(** * Z-Image API: event-stream extraction, HuggingFace adapter, dispatch

    A shallow embedding of
    - [apps/api/src/app.ts]  (the extractor, the Gradio job client and the
      [POST /generate], [POST /generate-hf] and [POST /upscale] handlers),
    - [apps/api/src/providers/huggingface.ts]  (the extractor, the Gradio
      job client and [HuggingFaceProvider.generate]),
    - [apps/web/src/lib/utils.ts]  (the download helpers and the flow
      sessions kept in IndexedDB),
    - [apps/web/netlify/functions/api.ts]  (the allowed origins),
    together with the part of the JavaScript runtime these functions rely
    on: strings as sequences of UTF-16 code units, IEEE-754 binary64
    numbers, [JSON.parse], [JSON.stringify], [ToString], [ToBoolean]. *)

From Stdlib Require Import List ZArith NArith Bool Lia String Ascii.
From Stdlib Require Import Floats.SpecFloat.
From Stdlib Require Import Sorted Permutation.
Import ListNotations.

Set Implicit Arguments.
Set Warnings "-register-all".

(** ** JavaScript strings *)

Module JSString.

(** A JavaScript string is a finite sequence of 16-bit code units. *)
Definition jsstring := list N.

(** Code units of an ASCII literal. *)
Definition u (s : string) : jsstring :=
  map N_of_ascii (list_ascii_of_string s).

Fixpoint eqb (a b : jsstring) : bool :=
  match a, b with
  | [], [] => true
  | x :: a', y :: b' => N.eqb x y && eqb a' b'
  | _, _ => false
  end.

(** [s.startsWith(p)] *)
Fixpoint startsWith (p s : jsstring) : bool :=
  match p, s with
  | [], _ => true
  | x :: p', y :: s' => N.eqb x y && startsWith p' s'
  | _ :: _, [] => false
  end.

(** [s.substring(n)]: the code units from index [n] on. *)
Definition substring_from (n : nat) (s : jsstring) : jsstring := skipn n s.

(** [s.substring(0, n)] and [s.slice(0, n)]: the first [n] code units. *)
Definition substring_to (n : nat) (s : jsstring) : jsstring := firstn n s.

(** White space and line terminators removed by [String.prototype.trim]:
    TAB, LF, VT, FF, CR, SP, NBSP, the Unicode space separators (Zs),
    LS, PS and the byte order mark. *)
Definition is_trim_space (c : N) : bool :=
  match c with
  | 9 | 10 | 11 | 12 | 13 | 32 | 160 => true
  | 5760 => true
  | 8232 | 8233 | 8239 | 8287 | 12288 | 65279 => true
  | _ => (8192 <=? c) && (c <=? 8202)
  end%N.

Fixpoint trimStart (s : jsstring) : jsstring :=
  match s with
  | [] => []
  | c :: r => if is_trim_space c then trimStart r else s
  end.

Definition trimEnd (s : jsstring) : jsstring := rev (trimStart (rev s)).

Definition trim (s : jsstring) : jsstring := trimEnd (trimStart s).

(** [s.split(sep)] for a separator of one code unit; never empty:
    the empty string splits into one empty piece. *)
Fixpoint split (sep : N) (s : jsstring) : list jsstring :=
  match s with
  | [] => [[]]
  | c :: r =>
      if N.eqb c sep then [] :: split sep r
      else match split sep r with
           | h :: t => (c :: h) :: t
           | [] => [[c]]
           end
  end.

(** Concatenation of the pieces with a separator, as [Array.prototype.join]. *)
Fixpoint join (sep : jsstring) (l : list jsstring) : jsstring :=
  match l with
  | [] => []
  | [x] => x
  | x :: r => x ++ sep ++ join sep r
  end.

(** Decimal digits of a natural number, most significant first. *)
Fixpoint digits_fuel (fuel : nat) (n : Z) (acc : jsstring) : jsstring :=
  match fuel with
  | O => acc
  | S f =>
      let acc' := Z.to_N (48 + n mod 10) :: acc in
      if (n <? 10)%Z then acc' else digits_fuel f (n / 10) acc'
  end.

Definition decimal (n : Z) : jsstring :=
  digits_fuel (S (Z.to_nat (Z.log2 n))) n [].

End JSString.
Export JSString.

(** ** JavaScript numbers: IEEE-754 binary64, after the Standard Library's
    specification of floating-point arithmetic *)

Module Number.

Definition prec : Z := 53.
Definition emax : Z := 1024.

Definition float64 := spec_float.

Definition eqb (x y : float64) : bool :=
  match x, y with
  | S754_zero a, S754_zero b => Bool.eqb a b
  | S754_infinity a, S754_infinity b => Bool.eqb a b
  | S754_nan, S754_nan => true
  | S754_finite a m e, S754_finite b n f =>
      Bool.eqb a b && Pos.eqb m n && Z.eqb e f
  | _, _ => false
  end.

(** The Number value of an integer (round to nearest, ties to even). *)
Definition of_Z (z : Z) : float64 := binary_normalize prec emax z 0 false.

(** The Number value of the decimal [(-1)^neg * m * 10^e10], as numeric
    literals and [JSON.parse] produce it. *)
Definition of_decimal (neg : bool) (m : Z) (e10 : Z) : float64 :=
  match m with
  | Zpos p =>
      if (0 <=? e10)%Z
      then binary_normalize prec emax
             ((if neg then Z.opp else id) (Zpos p * 10 ^ e10)%Z) 0 neg
      else SFdiv prec emax (S754_finite neg p 0)
             (S754_finite false (Z.to_pos (10 ^ (- e10))) 0)
  | _ => S754_zero neg
  end.

(** The integer part [floor ((-1)^s * m * 2^e)] of a finite Number. *)
Definition floor_Z (s : bool) (m : positive) (e : Z) : Z :=
  if (0 <=? e)%Z then ((if s then Z.opp else id) (Zpos m * 2 ^ e))%Z
  else if s then (- ((Zpos m + 2 ^ (- e) - 1) / 2 ^ (- e)))%Z
       else (Zpos m / 2 ^ (- e))%Z.

(** [Math.floor]: the Number value of the integer part; zeros, infinities
    and [NaN] are returned as they are. *)
Definition floor (x : float64) : float64 :=
  match x with
  | S754_finite s m e => binary_normalize prec emax (floor_Z s m e) 0 s
  | _ => x
  end.



(** ToBoolean on a Number: false for [+0], [-0] and [NaN]. *)
Definition truthy (x : float64) : bool :=
  match x with
  | S754_zero _ | S754_nan => false
  | _ => true
  end.

(** *** Number::toString, radix 10

    For a finite positive [x = m * 2^e]: integers [n], [k], [s] with
    [10^(k-1) <= s < 10^k], [s * 10^(n-k)] rounding to [x], and [k] as
    small as possible; among several [s], the closest to [x]. *)

(** Smallest [j >= 1] with [num * 10^j >= den], for [0 < num < den]. *)
Fixpoint first_scale (fuel : nat) (j num den : Z) : Z :=
  match fuel with
  | O => j
  | S f => if (den <=? num * 10)%Z then j else first_scale f (j + 1) (num * 10) den
  end.

Fixpoint count_digits (fuel : nat) (q : Z) : Z :=
  match fuel with
  | O => 1
  | S f => if (q <? 10)%Z then 1 else (1 + count_digits f (q / 10))%Z
  end.

(** [n0] with [10^(n0-1) <= num/den < 10^n0]. *)
Definition decimal_exponent (num den : Z) : Z :=
  if (den <=? num)%Z
  then count_digits (S (Z.to_nat (Z.log2 (num / den)))) (num / den)
  else (1 - first_scale (Z.to_nat (Z.log2 den) + 1) 1 num den)%Z.

(** The candidate with [k] digits, if one rounds to [x]: [(s, n)]. *)
Definition candidate (x : float64) (num den n0 k : Z) : option (Z * Z) :=
  let sc := (k - n0)%Z in
  let tnum := if (0 <=? sc)%Z then (num * 10 ^ sc)%Z else num in
  let tden := if (0 <=? sc)%Z then den else (den * 10 ^ (- sc))%Z in
  let lo := (tnum / tden)%Z in
  let rm := (tnum mod tden)%Z in
  let hi := (lo + 1)%Z in
  let ok_lo := (10 ^ (k - 1) <=? lo)%Z && eqb (of_decimal false lo (n0 - k)) x in
  let ok_hi := eqb (of_decimal false hi (n0 - k)) x in
  let pick_hi := if (hi =? 10 ^ k)%Z then (10 ^ (k - 1), n0 + 1)%Z else (hi, n0) in
  match ok_lo, ok_hi with
  | true, true =>
      match (2 * rm ?= tden)%Z with
      | Lt => Some (lo, n0)
      | Gt => Some pick_hi
      | Eq => if Z.even lo then Some (lo, n0) else Some pick_hi
      end
  | true, false => Some (lo, n0)
  | false, true => Some pick_hi
  | false, false => None
  end.

Fixpoint shortest (fuel : nat) (x : float64) (num den n0 k : Z) : Z * Z * Z :=
  match fuel with
  | O => (0, k, 0)%Z
  | S f =>
      match candidate x num den n0 k with
      | Some (s, n) => (s, k, n)
      | None => shortest f x num den n0 (k + 1)
      end
  end.

Definition zeros (n : Z) : jsstring := repeat 48%N (Z.to_nat n).

Definition format_positive (s k n : Z) : jsstring :=
  let ds := decimal s in
  if ((k <=? n) && (n <=? 21))%Z then ds ++ zeros (n - k)
  else if ((0 <? n) && (n <=? 21))%Z then
    firstn (Z.to_nat n) ds ++ u "." ++ skipn (Z.to_nat n) ds
  else if ((-6 <? n) && (n <=? 0))%Z then
    u "0." ++ zeros (- n) ++ ds
  else
    let ex := (n - 1)%Z in
    let sign := if (0 <=? ex)%Z then u "+" else u "-" in
    let mant := match ds with
                | d :: (_ :: _) as r => d :: u "." ++ r
                | _ => ds
                end in
    mant ++ u "e" ++ sign ++ decimal (Z.abs ex).

Definition toString (x : float64) : jsstring :=
  match x with
  | S754_nan => u "NaN"
  | S754_zero _ => u "0"
  | S754_infinity s => if s then u "-Infinity" else u "Infinity"
  | S754_finite sg m e =>
      let num := if (0 <=? e)%Z then (Zpos m * 2 ^ e)%Z else Zpos m in
      let den := if (0 <=? e)%Z then 1%Z else (2 ^ (- e))%Z in
      let n0 := decimal_exponent num den in
      let '(s, k, n) := shortest 17 (S754_finite false m e) num den n0 1 in
      (if sg then u "-" else []) ++ format_positive s k n
  end.


End Number.

(** ** JavaScript values that JSON can carry *)

Module JSValues.

Inductive JSValue :=
| JNull
| JBool (b : bool)
| JNumber (x : Number.float64)
| JString (s : jsstring)
| JArray (elements : list JSValue)
| JObject (properties : list (jsstring * JSValue)).

(** What a [throw] carries. *)
Inductive Thrown :=
| Error (message : jsstring)   (* [new Error(message)] *)
| SyntaxError                  (* raised by [JSON.parse]; its text is the engine's *)
| TypeError                    (* raised by the runtime; its text is the engine's *)
| NotAnError.                  (* a thrown value that is no instance of [Error] *)

Inductive Outcome (A : Type) :=
| Returned (a : A)
| Threw (t : Thrown).
Arguments Returned {A} a.
Arguments Threw {A} t.

(** *** Own properties of an object, in property order *)

Fixpoint own (ps : list (jsstring * JSValue)) (k : jsstring) : option JSValue :=
  match ps with
  | [] => None
  | (k', v) :: r => if JSString.eqb k' k then Some v else own r k
  end.

Definition is_digit (c : N) : bool := ((48 <=? c) && (c <=? 57))%N.

Definition digits_value (ds : jsstring) : Z :=
  fold_left (fun a c => (a * 10 + (Z.of_N c - 48))%Z) ds 0%Z.

(** An array index is a canonical numeric string below [2^32 - 1]. *)
Definition array_index (k : jsstring) : option Z :=
  match k with
  | [] => None
  | [48%N] => Some 0%Z
  | 48%N :: _ => None
  | _ =>
      if forallb is_digit k && (List.length k <=? 10)%nat
      then let i := digits_value k in
           if (i <=? 4294967294)%Z then Some i else None
      else None
  end.

Fixpoint replace_own (ps : list (jsstring * JSValue)) (k : jsstring) (v : JSValue) :=
  match ps with
  | [] => []
  | (k', v') :: r =>
      if JSString.eqb k' k then (k', v) :: r else (k', v') :: replace_own r k v
  end.

Fixpoint insert_index (ps : list (jsstring * JSValue)) (i : Z) (k : jsstring) (v : JSValue) :=
  match ps with
  | [] => [(k, v)]
  | (k', v') :: r =>
      match array_index k' with
      | Some j => if (j <? i)%Z then (k', v') :: insert_index r i k v
                  else (k, v) :: ps
      | None => (k, v) :: ps
      end
  end.

(** CreateDataProperty on an ordinary object: an existing key keeps its
    place; array indices come first in ascending order; other keys follow
    in creation order. *)
Definition define_own (ps : list (jsstring * JSValue)) (k : jsstring) (v : JSValue) :=
  match own ps k with
  | Some _ => replace_own ps k v
  | None =>
      match array_index k with
      | Some i => insert_index ps i k v
      | None => ps ++ [(k, v)]
      end
  end.

(** *** ToBoolean, [||], [??], [typeof] *)

Definition ToBoolean (v : JSValue) : bool :=
  match v with
  | JNull => false
  | JBool b => b
  | JNumber x => Number.truthy x
  | JString s => match s with [] => false | _ => true end
  | JArray _ | JObject _ => true
  end.

(** [None] stands for [undefined]. *)
Definition truthy (v : option JSValue) : bool :=
  match v with
  | Some w => ToBoolean w
  | None => false
  end.

(** [a || b] *)
Definition or_else (a b : option JSValue) : option JSValue :=
  if truthy a then a else b.

(** [a || d] with a default [d] that is defined. *)
Definition or_default (a : option JSValue) (d : JSValue) : JSValue :=
  match a with
  | Some v => if ToBoolean v then v else d
  | None => d
  end.

(** A numeric literal with an integer value. *)
Definition num (z : Z) : option JSValue := Some (JNumber (Number.of_Z z)).

(** [a ?? b] *)
Definition nullish (a b : option JSValue) : option JSValue :=
  match a with
  | None | Some JNull => b
  | _ => a
  end.

Definition is_number (v : option JSValue) : bool :=
  match v with
  | Some (JNumber _) => true
  | _ => false
  end.

(** *** ToString

    A plain object answers ["[object Object]"] through
    [Object.prototype.toString], unless an own property shadows
    [toString]: a JSON value is never callable, [valueOf] then yields the
    object itself, and the conversion raises a TypeError ([None]).
    An array is joined with commas, [null] elements giving the empty
    string. *)
Fixpoint ToString (v : JSValue) : option jsstring :=
  match v with
  | JNull => Some (u "null")
  | JBool b => Some (if b then u "true" else u "false")
  | JNumber x => Some (Number.toString x)
  | JString s => Some s
  | JArray l =>
      let fix each (l : list JSValue) : option (list jsstring) :=
        match l with
        | [] => Some []
        | x :: r =>
            match (match x with JNull => Some [] | _ => ToString x end) with
            | Some a => match each r with
                        | Some b => Some (a :: b)
                        | None => None
                        end
            | None => None
            end
        end in
      match each l with
      | Some parts => Some (join (u ",") parts)
      | None => None
      end
  | JObject ps =>
      match own ps (u "toString") with
      | Some _ => None
      | None => Some (u "[object Object]")
      end
  end.

(** ToString of a value that may be [undefined]. *)
Definition ToString_opt (v : option JSValue) : option jsstring :=
  match v with
  | Some w => ToString w
  | None => Some (u "undefined")
  end.

(** *** Property access

    [field v k] is [v.k] for a receiver other than [null] and
    [undefined], and for a name [k] that no built-in prototype defines
    (the program reads [error], [message], [url], [event_id], [provider],
    [model], [prompt], ...): an own property of an object, else
    [undefined]. *)
Definition field (v : JSValue) (k : jsstring) : option JSValue :=
  match v with
  | JObject ps => own ps k
  | _ => None
  end.

(** [v?.k] *)
Definition field_opt (v : option JSValue) (k : jsstring) : option JSValue :=
  match v with
  | None | Some JNull => None
  | Some w => field w k
  end.

(** [v[i]] for an integer literal [i]; [null] has no properties. *)
Definition index (v : JSValue) (i : nat) : Outcome (option JSValue) :=
  match v with
  | JNull => Threw TypeError
  | JArray l => Returned (nth_error l i)
  | JString s => Returned (match nth_error s i with
                           | Some c => Some (JString [c])
                           | None => None
                           end)
  | JObject ps => Returned (own ps (decimal (Z.of_nat i)))
  | _ => Returned None
  end.

End JSValues.
Export JSValues.

(** ** [JSON.parse] and [JSON.stringify] *)

Module JSON.

(** *** Numbers: an optional minus sign, an integer part without a
    leading zero (or a single zero), an optional fraction of one or more
    digits, an optional exponent *)

Fixpoint span_digits (s : jsstring) : jsstring * jsstring :=
  match s with
  | c :: r => if is_digit c
              then let (d, t) := span_digits r in (c :: d, t)
              else ([], s)
  | [] => ([], [])
  end.

Definition number_fraction (s : jsstring) : option (jsstring * jsstring) :=
  match s with
  | 46%N :: r =>
      match span_digits r with
      | ([], _) => None
      | (fp, t) => Some (fp, t)
      end
  | _ => Some ([], s)
  end.

Definition number_exponent (s : jsstring) : option (Z * jsstring) :=
  match s with
  | 101%N :: r | 69%N :: r =>
      let '(neg, r') := match r with
                        | 43%N :: t => (false, t)
                        | 45%N :: t => (true, t)
                        | _ => (false, r)
                        end in
      match span_digits r' with
      | ([], _) => None
      | (ep, t) => Some ((if neg then - digits_value ep else digits_value ep)%Z, t)
      end
  | _ => Some (0%Z, s)
  end.

Definition number_of_lexeme (s : jsstring) : option Number.float64 :=
  let '(neg, s1) := match s with
                    | 45%N :: r => (true, r)
                    | _ => (false, s)
                    end in
  match span_digits s1 with
  | ([], _) => None
  | (48%N :: _ :: _, _) => None
  | (ip, s2) =>
      match number_fraction s2 with
      | None => None
      | Some (fp, s3) =>
          match number_exponent s3 with
          | Some (ex, []) =>
              Some (Number.of_decimal neg (digits_value (ip ++ fp))
                      (ex - Z.of_nat (List.length fp)))
          | _ => None
          end
      end
  end.

(** *** Tokens *)

Inductive token :=
| TLBrace | TRBrace | TLBracket | TRBracket | TColon | TComma
| TString (s : jsstring)
| TNumber (x : Number.float64)
| TTrue | TFalse | TNull.

(** The scanner reads one code unit at a time. Accumulators are reversed. *)
Inductive mode :=
| MStart
| MString (acc : jsstring)
| MEscape (acc : jsstring)
| MUnicode (acc : jsstring) (read : nat) (code : N)
| MNumber (acc : jsstring)
| MLiteral (rest : jsstring) (t : token).

Definition hex_value (c : N) : option N :=
  if ((48 <=? c) && (c <=? 57))%N then Some (c - 48)%N
  else if ((97 <=? c) && (c <=? 102))%N then Some (c - 87)%N
  else if ((65 <=? c) && (c <=? 70))%N then Some (c - 55)%N
  else None.

Definition is_number_char (c : N) : bool :=
  is_digit c || match c with
                | 43 | 45 | 46 | 69 | 101 => true
                | _ => false
                end%N.

(** Between tokens. *)
Definition scan_start (toks : list token) (c : N) : option (mode * list token) :=
  match c with
  | 9 | 10 | 13 | 32 => Some (MStart, toks)
  | 123 => Some (MStart, TLBrace :: toks)
  | 125 => Some (MStart, TRBrace :: toks)
  | 91 => Some (MStart, TLBracket :: toks)
  | 93 => Some (MStart, TRBracket :: toks)
  | 58 => Some (MStart, TColon :: toks)
  | 44 => Some (MStart, TComma :: toks)
  | 34 => Some (MString [], toks)
  | 116 => Some (MLiteral (u "rue") TTrue, toks)
  | 102 => Some (MLiteral (u "alse") TFalse, toks)
  | 110 => Some (MLiteral (u "ull") TNull, toks)
  | _ => if is_digit c || N.eqb c 45 then Some (MNumber [c], toks) else None
  end%N.

Definition scan_step (m : mode) (toks : list token) (c : N) : option (mode * list token) :=
  match m with
  | MStart => scan_start toks c
  | MString acc =>
      if N.eqb c 34 then Some (MStart, TString (rev acc) :: toks)
      else if N.eqb c 92 then Some (MEscape acc, toks)
      else if (c <? 32)%N then None
      else Some (MString (c :: acc), toks)
  | MEscape acc =>
      match c with
      | 34 | 92 | 47 => Some (MString (c :: acc), toks)
      | 98 => Some (MString (8 :: acc), toks)
      | 102 => Some (MString (12 :: acc), toks)
      | 110 => Some (MString (10 :: acc), toks)
      | 114 => Some (MString (13 :: acc), toks)
      | 116 => Some (MString (9 :: acc), toks)
      | 117 => Some (MUnicode acc 0 0, toks)
      | _ => None
      end%N
  | MUnicode acc n code =>
      match hex_value c with
      | Some h =>
          let code' := (code * 16 + h)%N in
          if Nat.eqb n 3 then Some (MString (code' :: acc), toks)
          else Some (MUnicode acc (S n) code', toks)
      | None => None
      end
  | MNumber acc =>
      if is_number_char c then Some (MNumber (c :: acc), toks)
      else match number_of_lexeme (rev acc) with
           | Some x => scan_start (TNumber x :: toks) c
           | None => None
           end
  | MLiteral rest t =>
      match rest with
      | [d] => if N.eqb c d then Some (MStart, t :: toks) else None
      | d :: rest' => if N.eqb c d then Some (MLiteral rest' t, toks) else None
      | [] => None
      end
  end.

Fixpoint scan (s : jsstring) (m : mode) (toks : list token) : option (list token) :=
  match s with
  | c :: r =>
      match scan_step m toks c with
      | Some (m', toks') => scan r m' toks'
      | None => None
      end
  | [] =>
      match m with
      | MStart => Some (rev toks)
      | MNumber acc =>
          match number_of_lexeme (rev acc) with
          | Some x => Some (rev (TNumber x :: toks))
          | None => None
          end
      | _ => None
      end
  end.

(** *** Values from tokens: a stack of open arrays and objects *)

Inductive frame :=
| FArray (acc : list JSValue)                       (* reversed *)
| FObject (props : list (jsstring * JSValue)) (key : option jsstring).

Inductive phase :=
| PValue (first : bool)    (* a value; right after [[] also []] *)
| PKey (first : bool)      (* a member name; right after [{] also [}] *)
| PColon (key : jsstring)
| PAfter                   (* after a value inside an array or object *)
| PDone (v : JSValue).

Definition push (v : JSValue) (st : list frame) : option (list frame * phase) :=
  match st with
  | [] => Some ([], PDone v)
  | FArray acc :: st' => Some (FArray (v :: acc) :: st', PAfter)
  | FObject ps (Some k) :: st' => Some (FObject (define_own ps k v) None :: st', PAfter)
  | FObject _ None :: _ => None
  end.

Definition parse_step (st : list frame) (ph : phase) (t : token)
  : option (list frame * phase) :=
  match ph with
  | PValue first =>
      match t with
      | TString s => push (JString s) st
      | TNumber x => push (JNumber x) st
      | TTrue => push (JBool true) st
      | TFalse => push (JBool false) st
      | TNull => push JNull st
      | TLBracket => Some (FArray [] :: st, PValue true)
      | TLBrace => Some (FObject [] None :: st, PKey true)
      | TRBracket =>
          match first, st with
          | true, FArray [] :: st' => push (JArray []) st'
          | _, _ => None
          end
      | _ => None
      end
  | PKey first =>
      match t with
      | TString k => Some (st, PColon k)
      | TRBrace =>
          match first, st with
          | true, FObject ps None :: st' => push (JObject ps) st'
          | _, _ => None
          end
      | _ => None
      end
  | PColon k =>
      match t, st with
      | TColon, FObject ps None :: st' => Some (FObject ps (Some k) :: st', PValue false)
      | _, _ => None
      end
  | PAfter =>
      match t, st with
      | TComma, FArray _ :: _ => Some (st, PValue false)
      | TComma, FObject _ None :: _ => Some (st, PKey false)
      | TRBracket, FArray acc :: st' => push (JArray (rev acc)) st'
      | TRBrace, FObject ps None :: st' => push (JObject ps) st'
      | _, _ => None
      end
  | PDone _ => None
  end.

Fixpoint parse_tokens (ts : list token) (st : list frame) (ph : phase) : option JSValue :=
  match ts with
  | t :: r =>
      match parse_step st ph t with
      | Some (st', ph') => parse_tokens r st' ph'
      | None => None
      end
  | [] =>
      match ph with
      | PDone v => Some v
      | _ => None
      end
  end.

(** [JSON.parse(text)]: the value, or [None] for a SyntaxError. *)
Definition parse (text : jsstring) : option JSValue :=
  match scan text MStart [] with
  | Some ts => parse_tokens ts [] (PValue false)
  | None => None
  end.

(** *** [JSON.stringify] *)

Definition hex_digit (n : N) : N :=
  if (n <? 10)%N then (48 + n)%N else (87 + n)%N.

Definition unicode_escape (c : N) : jsstring :=
  u "\u" ++ [hex_digit (c / 4096 mod 16); hex_digit (c / 256 mod 16);
             hex_digit (c / 16 mod 16); hex_digit (c mod 16)]%N.

Definition is_high_surrogate (c : N) : bool := ((55296 <=? c) && (c <=? 56319))%N.
Definition is_low_surrogate (c : N) : bool := ((56320 <=? c) && (c <=? 57343))%N.

Definition quote_unit (c : N) : jsstring :=
  match c with
  | 8 => u "\b"
  | 9 => u "\t"
  | 10 => u "\n"
  | 12 => u "\f"
  | 13 => u "\r"
  | 34 => [92; 34]
  | 92 => [92; 92]
  | _ => if (c <? 32)%N then unicode_escape c else [c]
  end%N.

(** Code units between the quotes; [prev_high]: the unit before was a
    high surrogate kept as it is, so a low surrogate now completes a pair. *)
Fixpoint quote_body (s : jsstring) (prev_high : bool) : jsstring :=
  match s with
  | [] => []
  | c :: r =>
      if is_high_surrogate c then
        match r with
        | d :: _ => if is_low_surrogate d then c :: quote_body r true
                    else unicode_escape c ++ quote_body r false
        | [] => unicode_escape c
        end
      else if is_low_surrogate c then
        (if prev_high then [c] else unicode_escape c) ++ quote_body r false
      else quote_unit c ++ quote_body r false
  end.

Definition quote (s : jsstring) : jsstring := [34%N] ++ quote_body s false ++ [34%N].

Definition number_text (x : Number.float64) : jsstring :=
  match x with
  | S754_nan | S754_infinity _ => u "null"
  | _ => Number.toString x
  end.

Fixpoint stringify (v : JSValue) : jsstring :=
  match v with
  | JNull => u "null"
  | JBool b => if b then u "true" else u "false"
  | JNumber x => number_text x
  | JString s => quote s
  | JArray l => u "[" ++ join (u ",") (map stringify l) ++ u "]"
  | JObject ps =>
      u "{" ++ join (u ",") (map (fun kv => quote (fst kv) ++ u ":" ++ stringify (snd kv)) ps)
        ++ u "}"
  end.

(** In an array, [undefined] is written [null]. *)
Definition or_null (v : option JSValue) : JSValue :=
  match v with
  | Some w => w
  | None => JNull
  end.

End JSON.

(** ** Objects used as lookup tables

    [HF_SPACES], [MODEL_CONFIGS] and [PROVIDER_CONFIGS] are object
    literals indexed by a string that comes from the request. A key that
    is no own property is looked up on [Object.prototype], whose
    properties are functions (and, for [__proto__], an object): truthy
    values with none of the fields of a table entry. *)

Module Table.

Inductive Slot (A : Type) :=
| Value (a : A)
| Builtin (name : jsstring)    (* a property of [Object.prototype] *)
| Undefined.
Arguments Value {A} a.
Arguments Builtin {A} name.
Arguments Undefined {A}.

Definition Object_prototype : list jsstring :=
  map u ["constructor"; "__defineGetter__"; "__defineSetter__"; "hasOwnProperty";
         "__lookupGetter__"; "__lookupSetter__"; "isPrototypeOf";
         "propertyIsEnumerable"; "toString"; "valueOf"; "__proto__";
         "toLocaleString"]%string.

Fixpoint assoc {A : Type} (t : list (jsstring * A)) (k : jsstring) : option A :=
  match t with
  | [] => None
  | (k', a) :: r => if JSString.eqb k' k then Some a else assoc r k
  end.

(** [t[k]] *)
Definition get {A : Type} (t : list (jsstring * A)) (k : jsstring) : Slot A :=
  match assoc t k with
  | Some a => Value a
  | None => if existsb (JSString.eqb k) Object_prototype then Builtin k else Undefined
  end.

(** [a || b], given ToBoolean on the entries. *)
Definition or_else {A : Type} (truth : A -> bool) (a b : Slot A) : Slot A :=
  match a with
  | Value x => if truth x then a else b
  | Builtin _ => a
  | Undefined => b
  end.

End Table.

(** ** Types shared by the dispatch layer and the adapters
    ([ProviderGenerateRequest] of [providers/types], [GenerateSuccessResponse]
    of the shared package). Fields hold what the request body held: the
    declared TypeScript types are not checked at run time. *)

Module Types.

Record ProviderGenerateRequest := {
  model : option JSValue;
  prompt : option JSValue;
  negativePrompt : option JSValue;
  width : option JSValue;
  height : option JSValue;
  steps : option JSValue;
  seed : option JSValue;
  guidanceScale : option JSValue;
  authToken : option jsstring
}.

Record GenerateSuccessResponse := {
  url : option JSValue;
  result_seed : option JSValue
}.

End Types.
Export Types.

(** ** The event-stream extractor of [apps/api/src/app.ts] *)

Module App.

(** [new Error(errorMsg)]: the message is ToString of the argument. *)
Definition new_Error (errorMsg : option JSValue) : Thrown :=
  match errorMsg with
  | None => Error []
  | Some v => match ToString v with
              | Some s => Error s
              | None => TypeError
              end
  end.

(** The body of [if (currentEvent === 'error')]: always throws. *)
Definition error_event (jsonData : jsstring) : Thrown :=
  let attempt :=
    match JSON.parse jsonData with
    | None => SyntaxError
    | Some errorData =>
        let errorMsg :=
          or_else (or_else (or_else (field_opt (Some errorData) (u "error"))
                                    (field_opt (Some errorData) (u "message")))
                           (Some (JString (JSON.stringify errorData))))
                  (Some (JString (u "Unknown error"))) in
        new_Error errorMsg
    end in
  match attempt with
  | SyntaxError =>
      Error (match jsonData with [] => u "Unknown SSE error" | _ => jsonData end)
  | e => e
  end.

(** The [for] loop; [None] when it runs to the end. *)
Fixpoint scan_lines (lines : list jsstring) (currentEvent : jsstring)
  : option (Outcome JSValue) :=
  match lines with
  | [] => None
  | line :: rest =>
      if startsWith (u "event:") line then
        scan_lines rest (trim (substring_from 6 line))
      else if startsWith (u "data:") line then
        let jsonData := trim (substring_from 5 line) in
        if JSString.eqb currentEvent (u "complete") then
          Some (match JSON.parse jsonData with
                | Some v => Returned v
                | None => Threw SyntaxError
                end)
        else if JSString.eqb currentEvent (u "error") then
          Some (Threw (error_event jsonData))
        else scan_lines rest currentEvent
      else scan_lines rest currentEvent
  end.

Definition extractCompleteEventData (sseStream : jsstring) : Outcome JSValue :=
  let lines := split 10 sseStream in
  match scan_lines lines [] with
  | Some r => r
  | None => Threw (Error (u "Unexpected SSE response: " ++ substring_to 300 sseStream))
  end.

(** *** [POST /generate] *)

(** An entry of [PROVIDER_CONFIGS] (shared package). *)
Record ProviderConfig := {
  name : jsstring;
  requiresAuth : bool;
  authHeader : option jsstring
}.

(** What a validator of the shared package returns. *)
Record Verdict := {
  valid : bool;
  error : option jsstring
}.

Record HttpRequest := {
  body_text : jsstring;                      (* the request body *)
  header : jsstring -> option jsstring       (* [c.req.header(name)] *)
}.

(** The text of an [{ error }] response: a string of the program's, or
    the message the engine gave a built-in error. *)
Inductive MessageText :=
| Text (s : jsstring)
| EngineText (t : Thrown).

Inductive Payload :=
| ErrorPayload (message : option MessageText)
| ResultPayload (r : GenerateSuccessResponse).

Record Response := {
  status : N;
  payload : Payload
}.

(** [c.json({ error: m }, st)] *)
Definition json_error (m : jsstring) (st : N) : Response :=
  {| status := st; payload := ErrorPayload (Some (Text m)) |}.

(** The handler answers, lets an exception out, or calls
    [getProvider(providerId).generate(request)] and answers from its
    outcome. *)
Inductive Handler :=
| Respond (r : Response)
| Escape (t : Thrown)
| Invoke (providerId : JSValue) (request : ProviderGenerateRequest)
         (k : Outcome GenerateSuccessResponse -> Response).

(** [err instanceof Error ? err.message : 'Image generation failed'] *)
Definition error_message (err : Thrown) : MessageText :=
  match err with
  | Error m => Text m
  | SyntaxError | TypeError => EngineText err
  | NotAnError => Text (u "Image generation failed")
  end.

(** The [try] block around the adapter call, and its [catch]. *)
Definition respond_outcome (o : Outcome GenerateSuccessResponse) : Response :=
  match o with
  | Returned result => {| status := 200; payload := ResultPayload result |}
  | Threw err => {| status := 500; payload := ErrorPayload (Some (error_message err)) |}
  end.

(** The handler run against an adapter. *)
Definition serve (adapter : JSValue -> ProviderGenerateRequest -> Outcome GenerateSuccessResponse)
    (h : Handler) : Outcome Response :=
  match h with
  | Respond r => Returned r
  | Escape t => Threw t
  | Invoke providerId request k => Returned (k (adapter providerId request))
  end.

(** Whether the handler reaches the adapter call. *)
Definition invokes (h : Handler) : bool :=
  match h with
  | Invoke _ _ _ => true
  | _ => false
  end.

Section Generate.

(** Of [./providers] and the shared package. *)
Variable hasProvider : JSValue -> bool.
Variable PROVIDER_CONFIGS : list (jsstring * ProviderConfig).
Variable validatePrompt : option JSValue -> Verdict.
Variable validateDimensions : option JSValue -> option JSValue -> Verdict.
Variable validateSteps : option JSValue -> Verdict.

(** [providerConfig?.authHeader || 'X-API-Key'] *)
Definition auth_header_name (providerConfig : Table.Slot ProviderConfig) : jsstring :=
  match providerConfig with
  | Table.Value c =>
      match authHeader c with
      | Some ((_ :: _) as h) => h
      | _ => u "X-API-Key"
      end
  | _ => u "X-API-Key"
  end.

(** [providerConfig?.requiresAuth] *)
Definition requires_auth (providerConfig : Table.Slot ProviderConfig) : option ProviderConfig :=
  match providerConfig with
  | Table.Value c => if requiresAuth c then Some c else None
  | _ => None
  end.

Definition present (authToken : option jsstring) : bool :=
  match authToken with
  | Some (_ :: _) => true
  | _ => false
  end.

Definition invalid (v : Verdict) : Response :=
  {| status := 400; payload := ErrorPayload (option_map Text (error v)) |}.

(** [body.provider || 'gitee'] *)
Definition provider_of (body : JSValue) : JSValue :=
  or_default (field body (u "provider")) (JString (u "gitee")).

Definition generate_route (req : HttpRequest) : Handler :=
  match JSON.parse (body_text req) with
  | None => Respond (json_error (u "Invalid JSON body") 400)
  | Some JNull => Escape TypeError      (* [body.provider] on [null] *)
  | Some body =>
      let providerId := provider_of body in
      if negb (hasProvider providerId) then
        match ToString providerId with
        | Some id => Respond (json_error (u "Invalid provider: " ++ id) 400)
        | None => Escape TypeError
        end
      else
        match ToString providerId with
        | None => Escape TypeError
        | Some key =>
            let providerConfig := Table.get PROVIDER_CONFIGS key in
            let authToken := header req (auth_header_name providerConfig) in
            match requires_auth providerConfig, present authToken with
            | Some c, false =>
                Respond (json_error
                  (match authHeader c with Some h => h | None => u "undefined" end
                   ++ u " is required for " ++ name c) 401)
            | _, _ =>
                let promptValidation := validatePrompt (field body (u "prompt")) in
                if negb (valid promptValidation) then Respond (invalid promptValidation)
                else
                  let width := nullish (field body (u "width")) (num 1024) in
                  let height := nullish (field body (u "height")) (num 1024) in
                  let dimensionsValidation := validateDimensions width height in
                  if negb (valid dimensionsValidation) then
                    Respond (invalid dimensionsValidation)
                  else
                    let steps :=
                      nullish (nullish (field body (u "steps"))
                                       (field body (u "num_inference_steps")))
                              (num 9) in
                    let stepsValidation := validateSteps steps in
                    if negb (valid stepsValidation) then Respond (invalid stepsValidation)
                    else
                      Invoke providerId
                        {| model := field body (u "model");
                           prompt := field body (u "prompt");
                           negativePrompt :=
                             or_else (field body (u "negativePrompt"))
                                     (field body (u "negative_prompt"));
                           width := width;
                           height := height;
                           steps := steps;
                           seed := field body (u "seed");
                           guidanceScale := field body (u "guidanceScale");
                           authToken := authToken |}
                        respond_outcome
            end
        end
  end.

End Generate.

End App.

(** ** [apps/api/src/providers/huggingface.ts] *)

Module HuggingFace.

(** *** Its own copy of the extractor *)

Definition new_Error (errorMsg : option JSValue) : Thrown :=
  match errorMsg with
  | None => Error []
  | Some v => match ToString v with
              | Some s => Error s
              | None => TypeError
              end
  end.

Definition error_event (jsonData : jsstring) : Thrown :=
  let attempt :=
    match JSON.parse jsonData with
    | None => SyntaxError
    | Some errorData =>
        let errorMsg :=
          or_else (or_else (or_else (field_opt (Some errorData) (u "error"))
                                    (field_opt (Some errorData) (u "message")))
                           (Some (JString (JSON.stringify errorData))))
                  (Some (JString (u "Unknown error"))) in
        new_Error errorMsg
    end in
  match attempt with
  | SyntaxError =>
      Error (match jsonData with [] => u "Unknown SSE error" | _ => jsonData end)
  | e => e
  end.

Fixpoint scan_lines (lines : list jsstring) (currentEvent : jsstring)
  : option (Outcome JSValue) :=
  match lines with
  | [] => None
  | line :: rest =>
      if startsWith (u "event:") line then
        scan_lines rest (trim (substring_from 6 line))
      else if startsWith (u "data:") line then
        let jsonData := trim (substring_from 5 line) in
        if JSString.eqb currentEvent (u "complete") then
          Some (match JSON.parse jsonData with
                | Some v => Returned v
                | None => Threw SyntaxError
                end)
        else if JSString.eqb currentEvent (u "error") then
          Some (Threw (error_event jsonData))
        else scan_lines rest currentEvent
      else scan_lines rest currentEvent
  end.

Definition extractCompleteEventData (sseStream : jsstring) : Outcome JSValue :=
  let lines := split 10 sseStream in
  match scan_lines lines [] with
  | Some r => r
  | None => Threw (Error (u "Unexpected SSE response: " ++ substring_to 300 sseStream))
  end.

(** *** Effects: [fetch] and [Math.random] *)

Record FetchRequest := {
  fr_method : jsstring;
  fr_base : Table.Slot jsstring;     (* the value interpolated as [${baseUrl}] *)
  fr_path : jsstring;                (* the rest of the URL *)
  fr_headers : list (jsstring * jsstring);
  fr_body : option jsstring
}.

(** A response is read whole: its status and its body text. *)
Inductive FetchResult :=
| FetchRejected (t : Thrown)
| FetchResponse (status : N) (text : jsstring).

(** [response.ok] *)
Definition ok (status : N) : bool := ((200 <=? status) && (status <=? 299))%N.

Inductive Prog (A : Type) :=
| Ret (a : A)
| Throw (t : Thrown)
| MathRandom (k : Number.float64 -> Prog A)
| Fetch (rq : FetchRequest) (k : FetchResult -> Prog A).
Arguments Ret {A} a.
Arguments Throw {A} t.
Arguments MathRandom {A} k.
Arguments Fetch {A} rq k.

Fixpoint bind {A B : Type} (p : Prog A) (f : A -> Prog B) : Prog B :=
  match p with
  | Ret a => f a
  | Throw t => Throw t
  | MathRandom k => MathRandom (fun r => bind (k r) f)
  | Fetch rq k => Fetch rq (fun r => bind (k r) f)
  end.

Definition lift {A : Type} (o : Outcome A) : Prog A :=
  match o with
  | Returned a => Ret a
  | Threw t => Throw t
  end.

(** [await fetch(...)]: a rejected promise throws. *)
Definition await_fetch (rq : FetchRequest) : Prog (N * jsstring) :=
  Fetch rq (fun r => match r with
                     | FetchRejected t => Throw t
                     | FetchResponse status text => Ret (status, text)
                     end).

(** The environment a run takes place in: the Number [Math.random()]
    returns and the backend behind [fetch]. *)
Record World := {
  random : Number.float64;
  fetch : FetchRequest -> FetchResult
}.

Fixpoint run {A : Type} (w : World) (p : Prog A) : Outcome A :=
  match p with
  | Ret a => Returned a
  | Throw t => Threw t
  | MathRandom k => run w (k (random w))
  | Fetch rq k => run w (k (fetch w rq))
  end.

(** *** [callGradioApi] *)

Definition callGradioApi (baseUrl : Table.Slot jsstring) (endpoint : jsstring)
    (data : list (option JSValue)) (hfToken : option jsstring) : Prog JSValue :=
  let headers :=
    (u "Content-Type", u "application/json") ::
    match hfToken with
    | Some ((_ :: _) as t) => [(u "Authorization", u "Bearer " ++ t)]
    | _ => []
    end in
  let call := u "/gradio_api/call/" ++ endpoint in
  bind (await_fetch {| fr_method := u "POST"; fr_base := baseUrl; fr_path := call;
                       fr_headers := headers;
                       fr_body := Some (JSON.stringify
                         (JObject [(u "data", JArray (map JSON.or_null data))])) |})
    (fun queue =>
       let '(status, text) := queue in
       if negb (ok status) then
         let errText := text in
         Throw (Error (u "Queue request failed: " ++ decimal (Z.of_N status)
                         ++ u " - " ++ substring_to 100 errText))
       else
         match JSON.parse text with
         | None => Throw SyntaxError
         | Some JNull => Throw TypeError
         | Some queueData =>
             let event_id := field queueData (u "event_id") in
             if negb (truthy event_id) then Throw (Error (u "No event_id returned"))
             else
               match ToString_opt event_id with
               | None => Throw TypeError
               | Some id =>
                   bind (await_fetch {| fr_method := u "GET"; fr_base := baseUrl;
                                        fr_path := call ++ u "/" ++ id;
                                        fr_headers := headers; fr_body := None |})
                     (fun result => lift (extractCompleteEventData (snd result)))
               end
         end).

(** *** Model-specific Gradio configurations *)

Record ModelConfig := {
  endpoint : jsstring;
  buildData : ProviderGenerateRequest -> option JSValue -> list (option JSValue)
}.

Definition MODEL_CONFIGS : list (jsstring * ModelConfig) :=
  [ (u "z-image-turbo",
     {| endpoint := u "generate_image";
        buildData := fun r seed =>
          [prompt r; height r; width r; nullish (steps r) (num 9); seed;
           Some (JBool false)] |});
    (u "qwen-image-fast",
     {| endpoint := u "generate_image";
        buildData := fun r seed =>
          [prompt r; seed; Some (JBool true); Some (JString (u "1:1")); num 3;
           nullish (steps r) (num 8)] |});
    (u "ovis-image",
     {| endpoint := u "generate";
        buildData := fun r seed =>
          [prompt r; height r; width r; seed; nullish (steps r) (num 24); num 4] |});
    (u "flux-1-schnell",
     {| endpoint := u "infer";
        buildData := fun r seed =>
          [prompt r; seed; Some (JBool false); width r; height r;
           nullish (steps r) (num 8)] |}) ].

(** *** [HuggingFaceProvider.generate] *)

Section Provider.

(** [HF_SPACES] of the shared package: the own properties of the table
    of hosted-space base URLs. *)
Variable HF_SPACES : list (jsstring * jsstring).

Definition nonempty (s : jsstring) : bool :=
  match s with [] => false | _ => true end.

(** [request.seed ?? Math.floor(Math.random() * 2147483647)] *)
Definition generated_seed (r : Number.float64) : Number.float64 :=
  Number.floor (SFmul Number.prec Number.emax r (Number.of_Z 2147483647)).

Definition choose_seed (request : ProviderGenerateRequest) : Prog (option JSValue) :=
  match seed request with
  | None | Some JNull => MathRandom (fun r => Ret (Some (JNumber (generated_seed r))))
  | s => Ret s
  end.

(** The seed in force in a run: the caller's, or the generated one. *)
Definition seed_in_force (w : World) (request : ProviderGenerateRequest) : option JSValue :=
  match seed request with
  | None | Some JNull => Some (JNumber (generated_seed (random w)))
  | s => s
  end.

(** [HF_SPACES[modelId] || HF_SPACES['z-image-turbo']] *)
Definition resolve_baseUrl (key : jsstring) : Table.Slot jsstring :=
  Table.or_else nonempty (Table.get HF_SPACES key)
                         (Table.get HF_SPACES (u "z-image-turbo")).

(** [MODEL_CONFIGS[modelId] || MODEL_CONFIGS['z-image-turbo']] *)
Definition resolve_config (key : jsstring) : Table.Slot ModelConfig :=
  Table.or_else (fun _ => true) (Table.get MODEL_CONFIGS key)
                                (Table.get MODEL_CONFIGS (u "z-image-turbo")).

(** The statements after [callGradioApi] returned [data]. *)
Definition normalize (data : JSValue) (seed : option JSValue)
  : Outcome GenerateSuccessResponse :=
  match index data 0 with
  | Threw t => Threw t
  | Returned first =>
      let imageUrl := field_opt first (u "url") in
      if negb (truthy imageUrl) then
        Threw (Error (u "No image returned from HuggingFace"))
      else
        match index data 1 with
        | Threw t => Threw t
        | Returned second =>
            Returned {| url := imageUrl;
                        result_seed := if is_number second then second else seed |}
        end
  end.

Definition generate (request : ProviderGenerateRequest) : Prog GenerateSuccessResponse :=
  bind (choose_seed request) (fun seed =>
    let modelId := or_default (model request) (JString (u "z-image-turbo")) in
    match ToString modelId with
    | None => Throw TypeError
    | Some key =>
        let baseUrl := resolve_baseUrl key in
        let config := resolve_config key in
        match config with
        | Table.Value c =>
            bind (callGradioApi baseUrl (endpoint c) (buildData c request seed)
                    (authToken request))
                 (fun data => lift (normalize data seed))
        | Table.Builtin _ =>
            (* [config.buildData] is [undefined]: calling it is a TypeError *)
            Throw TypeError
        | Table.Undefined =>
            (* [config.endpoint] on [undefined] *)
            Throw TypeError
        end
    end).

End Provider.

End HuggingFace.

(** ** Vocabulary of the specification *)

Module Stream.

(** The data lines of a stream, each with the event name in force when
    the line is read and with its trimmed payload text. *)
Fixpoint data_lines (lines : list jsstring) (current : jsstring)
  : list (jsstring * jsstring) :=
  match lines with
  | [] => []
  | line :: rest =>
      if startsWith (u "event:") line then
        data_lines rest (trim (substring_from 6 line))
      else if startsWith (u "data:") line then
        (current, trim (substring_from 5 line)) :: data_lines rest current
      else data_lines rest current
  end.

Definition data_events (text : jsstring) : list (jsstring * jsstring) :=
  data_lines (split 10 text) [].

Definition complete : jsstring := u "complete".
Definition error : jsstring := u "error".

(** A terminal event is [complete] or [error]; any other name is progress. *)
Definition terminal (event : jsstring) : bool :=
  JSString.eqb event complete || JSString.eqb event error.

Definition progress (l : list (jsstring * jsstring)) : Prop :=
  Forall (fun ed => terminal (fst ed) = false) l.

(** What a list of data lines leads to: the first terminal one decides. *)
Fixpoint first_terminal (evs : list (jsstring * jsstring))
  : option (jsstring * jsstring) :=
  match evs with
  | [] => None
  | (ev, d) :: r => if terminal ev then Some (ev, d) else first_terminal r
  end.

(** What the extractor does at a terminal data line. *)
Definition outcome_of (ed : jsstring * jsstring) : Outcome JSValue :=
  if JSString.eqb (fst ed) complete then
    match JSON.parse (snd ed) with
    | Some v => Returned v
    | None => Threw SyntaxError
    end
  else Threw (App.error_event (snd ed)).

End Stream.

(** ** Concrete inputs *)

Module Examples.

(** An ASCII text in which ['] stands for the double quote. *)
Definition json (s : string) : jsstring :=
  map (fun c => if N.eqb c 39 then 34%N else c) (u s).

(** Lines joined by LF. *)
Definition text_of (lines : list string) : jsstring :=
  join [10%N] (map json lines).

Definition error_then_complete : jsstring :=
  text_of ["event: error"; "data: boom"; "event: complete"; "data: [1]"]%string.

Definition progress_then_complete : jsstring :=
  text_of ["event: generating"; "data: null"; "event: heartbeat"; "data: {}";
           "event: complete"; "data: [{'url':'https://x/y.png'}, 42]";
           "event: error"; "data: late"]%string.

Definition empty_error : jsstring :=
  text_of ["event: error"; "data:"; ""]%string.

Definition error_X : jsstring :=
  text_of ["event: heartbeat"; "data: null"; "event: error"; "data: {'error':'X'}"; ""]%string.

Definition progress_only_stream : jsstring :=
  text_of ["event: generating"; "data: null"; ": keep-alive"; "event: heartbeat";
           "data: 1"; ""]%string.

End Examples.

Module Worlds.
Import HuggingFace Examples.

(** A stub backend: it accepts the job with event id [job1] and then
    serves [stream] as the job's event stream. *)
Definition stub_backend (stream : jsstring) (rq : FetchRequest) : FetchResult :=
  if JSString.eqb (fr_method rq) (u "POST")
  then FetchResponse 200 (json "{'event_id':'job1'}")
  else FetchResponse 200 stream.

Definition one_half : Number.float64 := Number.of_decimal false 5 (-1).

Definition stub_world (stream : jsstring) : World :=
  {| random := one_half; fetch := stub_backend stream |}.

Definition spaces : list (jsstring * jsstring) :=
  [ (u "z-image-turbo", u "https://turbo.example");
    (u "upscaler", u "https://upscaler.example") ].

Definition cat_request (m : string) (s : option JSValue) : ProviderGenerateRequest :=
  {| model := Some (JString (u m)); prompt := Some (JString (u "cat"));
     negativePrompt := None; width := num 1024; height := num 1024;
     steps := num 9; seed := s; guidanceScale := None; authToken := None |}.

(** A network on which every [fetch] is rejected, with the TypeError the
    Fetch standard prescribes. *)
Definition offline_world : World :=
  {| random := one_half; fetch := fun _ => FetchRejected TypeError |}.

Definition png_stream : jsstring :=
  text_of ["event: complete"; "data: [{'url':'https://x/y.png'}, 42]"; ""]%string.

Definition empty_url_stream : jsstring :=
  text_of ["event: complete"; "data: [{'url':''}, 42]"; ""]%string.

Definition malformed_complete_stream : jsstring :=
  text_of ["event: complete"; "data: oops"; ""]%string.

(** A registry and validators to run the dispatch layer with. *)
Definition known_provider (v : JSValue) : bool :=
  match v with
  | JString s => existsb (JSString.eqb s) (map u ["gitee"; "huggingface"; "modelscope"]%string)
  | _ => false
  end.

Definition provider_configs : list (jsstring * App.ProviderConfig) :=
  [ (u "gitee", {| App.name := u "Gitee AI"; App.requiresAuth := true;
                   App.authHeader := Some (u "X-API-Key") |});
    (u "huggingface", {| App.name := u "HuggingFace"; App.requiresAuth := false;
                         App.authHeader := Some (u "X-HF-Token") |});
    (u "modelscope", {| App.name := u "ModelScope"; App.requiresAuth := true;
                        App.authHeader := Some (u "X-MS-Token") |}) ].

Definition accept : App.Verdict := {| App.valid := true; App.error := None |}.

Definition route (req : App.HttpRequest) : App.Handler :=
  App.generate_route known_provider provider_configs
    (fun _ => accept) (fun _ _ => accept) (fun _ => accept) req.

Definition no_headers : jsstring -> option jsstring := fun _ => None.

Definition post (body : string) : App.HttpRequest :=
  {| App.body_text := json body; App.header := no_headers |}.

(** The HuggingFace adapter, with its tables, run in a world. *)
Definition huggingface (w : World) (providerId : JSValue)
    (request : ProviderGenerateRequest) : Outcome GenerateSuccessResponse :=
  run w (generate spaces request).

End Worlds.

Unset Implicit Arguments.

(** ** The seed as the specification writes it *)

Module Exact.


End Exact.

(** ** Observing a run: the requests it sends, and [try]/[catch] *)

Module Trace.
Import HuggingFace.

(** The requests a program sends through [fetch] in a world, in order. *)
Fixpoint requests {A : Type} (w : World) (p : Prog A) : list FetchRequest :=
  match p with
  | Ret _ => []
  | Throw _ => []
  | MathRandom k => requests w (k (random w))
  | Fetch rq k => rq :: requests w (k (fetch w rq))
  end.

(** [try { p } catch (err) { h err }] *)
Fixpoint try_catch {A : Type} (p : Prog A) (h : Thrown -> Prog A) : Prog A :=
  match p with
  | Ret a => Ret a
  | Throw t => h t
  | MathRandom k => MathRandom (fun r => try_catch (k r) h)
  | Fetch rq k => Fetch rq (fun r => try_catch (k r) h)
  end.

End Trace.

(** ** The other routes of [apps/api/src/app.ts] *)

Module Routes.
Import App HuggingFace Trace.

(** *** [callGradioApi] of [app.ts], used by the upscale route *)

Definition callGradioApi (baseUrl : Table.Slot jsstring) (endpoint : jsstring)
    (data : list (option JSValue)) (hfToken : option jsstring) : Prog JSValue :=
  let headers :=
    (u "Content-Type", u "application/json") ::
    match hfToken with
    | Some ((_ :: _) as t) => [(u "Authorization", u "Bearer " ++ t)]
    | _ => []
    end in
  let call := u "/gradio_api/call/" ++ endpoint in
  bind (await_fetch {| fr_method := u "POST"; fr_base := baseUrl; fr_path := call;
                       fr_headers := headers;
                       fr_body := Some (JSON.stringify
                         (JObject [(u "data", JArray (map JSON.or_null data))])) |})
    (fun queue =>
       let '(status, text) := queue in
       if negb (ok status) then
         Throw (Error (u "Queue request failed: " ++ decimal (Z.of_N status)))
       else
         match JSON.parse text with
         | None => Throw SyntaxError
         | Some JNull => Throw TypeError
         | Some queueData =>
             let event_id := field queueData (u "event_id") in
             if negb (truthy event_id) then Throw (Error (u "No event_id returned"))
             else
               match ToString_opt event_id with
               | None => Throw TypeError
               | Some id =>
                   bind (await_fetch {| fr_method := u "GET"; fr_base := baseUrl;
                                        fr_path := call ++ u "/" ++ id;
                                        fr_headers := headers; fr_body := None |})
                     (fun result => lift (App.extractCompleteEventData (snd result)))
               end
         end).

(** *** Responses of the upscale route *)

Inductive UpscalePayload :=
| UpscaleError (message : option MessageText)
| UpscaleResult (url : JSValue).            (* [{ url: imageUrl }] *)

Record UpscaleResponse := {
  upscale_status : N;
  upscale_payload : UpscalePayload
}.

Definition upscale_error (m : jsstring) (st : N) : UpscaleResponse :=
  {| upscale_status := st; upscale_payload := UpscaleError (Some (Text m)) |}.

(** [err instanceof Error ? err.message : 'Upscale failed'] *)
Definition upscale_failure (err : Thrown) : MessageText :=
  match err with
  | Error m => Text m
  | SyntaxError | TypeError => EngineText err
  | NotAnError => Text (u "Upscale failed")
  end.

(** [err instanceof Error ? err.message : 'Generation failed'] *)
Definition legacy_failure (err : Thrown) : MessageText :=
  match err with
  | Error m => Text m
  | SyntaxError | TypeError => EngineText err
  | NotAnError => Text (u "Generation failed")
  end.

(** The [try] block of the legacy route around the adapter call. *)
Definition respond_legacy (o : Outcome GenerateSuccessResponse) : Response :=
  match o with
  | Returned result => {| status := 200; payload := ResultPayload result |}
  | Threw err => {| status := 500; payload := ErrorPayload (Some (legacy_failure err)) |}
  end.

(** The first argument of the upscaler: a Gradio file reference. *)
Definition file_data (url : jsstring) : JSValue :=
  JObject [(u "path", JString url);
           (u "meta", JObject [(u "_type", JString (u "gradio.FileData"))])].

Section Handlers.

(** Of the shared package. *)
Variable HF_SPACES : list (jsstring * jsstring).
Variable validatePrompt : option JSValue -> Verdict.
Variable validateDimensions : option JSValue -> option JSValue -> Verdict.
Variable validateScale : option JSValue -> Verdict.
Variable isAllowedImageUrl : jsstring -> bool.

(** *** [POST /generate-hf] *)

Definition generate_hf_route (req : HttpRequest) : Handler :=
  match JSON.parse (body_text req) with
  | None => Respond (json_error (u "Invalid JSON body") 400)
  | Some JNull => Escape TypeError      (* [body.prompt] on [null] *)
  | Some body =>
      let promptValidation := validatePrompt (field body (u "prompt")) in
      if negb (valid promptValidation) then Respond (invalid promptValidation)
      else
        let hfToken := header req (u "X-HF-Token") in
        let width := nullish (field body (u "width")) (num 1024) in
        let height := nullish (field body (u "height")) (num 1024) in
        let dimensionsValidation := validateDimensions width height in
        if negb (valid dimensionsValidation) then Respond (invalid dimensionsValidation)
        else
          Invoke (JString (u "huggingface"))
            {| model := Some (or_default (field body (u "model")) (JString (u "z-image")));
               prompt := field body (u "prompt");
               negativePrompt := None;
               width := width;
               height := height;
               steps := None;
               seed := field body (u "seed");
               guidanceScale := None;
               authToken := hfToken |}
            respond_legacy
  end.

(** *** [POST /upscale] *)

(** The statements of the [try] block after [callGradioApi] returned. *)
Definition upscale_result (data : JSValue) : Prog UpscaleResponse :=
  match index data 0 with
  | Threw t => Throw t
  | Returned first =>
      match field_opt first (u "url") with
      | Some imageUrl =>
          if ToBoolean imageUrl
          then Ret {| upscale_status := 200; upscale_payload := UpscaleResult imageUrl |}
          else Ret (upscale_error (u "No image returned") 500)
      | None => Ret (upscale_error (u "No image returned") 500)
      end
  end.

Definition upscale_route (req : HttpRequest) : Prog UpscaleResponse :=
  match JSON.parse (body_text req) with
  | None => Ret (upscale_error (u "Invalid JSON body") 400)
  | Some JNull => Throw TypeError       (* [body.url] on [null] *)
  | Some body =>
      match field body (u "url") with
      | Some (JString ((_ :: _) as url)) =>
          if negb (isAllowedImageUrl url) then Ret (upscale_error (u "URL not allowed") 400)
          else
            let hfToken := header req (u "X-HF-Token") in
            let scale := nullish (field body (u "scale")) (num 4) in
            let scaleValidation := validateScale scale in
            if negb (valid scaleValidation) then
              Ret {| upscale_status := 400;
                     upscale_payload := UpscaleError (option_map Text (error scaleValidation)) |}
            else
              try_catch
                (bind (callGradioApi (Table.get HF_SPACES (u "upscaler")) (u "realesrgan")
                         [Some (file_data url);
                          Some (JString (u "RealESRGAN_x4plus"));
                          Some (JNumber (Number.of_decimal false 5 (-1)));
                          Some (JBool false);
                          scale]
                         hfToken)
                      upscale_result)
                (fun err =>
                   Ret {| upscale_status := 500;
                          upscale_payload := UpscaleError (Some (upscale_failure err)) |})
      | _ => Ret (upscale_error (u "url is required") 400)
      end
  end.

End Handlers.

End Routes.

(** ** [apps/web/src/lib/utils.ts] *)

Module Web.

(** [s.includes(p)]: [p] occurs in [s]. *)
Fixpoint includes (p s : jsstring) : bool :=
  startsWith p s ||
  match s with
  | [] => false
  | _ :: r => includes p r
  end.

Definition isHuggingFaceUrl (url : jsstring) : bool :=
  includes (u ".hf.space") url || includes (u "huggingface.co") url.

(** *** The file name of a converted download:
    [filename.replace(/\.(jpg|jpeg|webp)$/i, '.png')]

    With the [i] flag two code units match when they canonicalize to the
    same unit; a unit outside ASCII never canonicalizes into ASCII, so the
    letters of the pattern match themselves and their capitals only. *)

Definition fold_case (c : N) : N :=
  if ((65 <=? c) && (c <=? 90))%N then (c + 32)%N else c.

(** The whole of [s] matches [\.(jpg|jpeg|webp)]. *)
Definition image_extension (s : jsstring) : bool :=
  let l := map fold_case s in
  JSString.eqb l (u ".jpg") || JSString.eqb l (u ".jpeg") || JSString.eqb l (u ".webp").

(** The leftmost position from which the rest of the name matches up to
    its end is replaced. *)
Fixpoint png_filename (filename : jsstring) : jsstring :=
  if image_extension filename then u ".png"
  else match filename with
       | [] => []
       | c :: r => c :: png_filename r
       end.

(** *** Flow sessions in IndexedDB *)

Record GeneratedImage := {
  image_id : jsstring;
  image_url : jsstring;
  image_prompt : jsstring;
  image_aspectRatio : jsstring;
  image_timestamp : Number.float64;
  image_model : jsstring;
  image_seed : option Number.float64;
  image_duration : option Number.float64;
  image_isBlurred : option bool;
  image_isUpscaled : option bool
}.

(** Times are milliseconds since the epoch, as [Date.now()] returns them. *)
Record FlowSession := {
  id : jsstring;
  name : jsstring;
  createdAt : Z;
  updatedAt : Z;
  images : list GeneratedImage
}.

(** The order of IndexedDB on string keys: by code units. *)
Fixpoint key_compare (a b : jsstring) : comparison :=
  match a, b with
  | [], [] => Eq
  | [], _ :: _ => Lt
  | _ :: _, [] => Gt
  | x :: a', y :: b' =>
      match N.compare x y with
      | Eq => key_compare a' b'
      | c => c
      end
  end.

(** The object store [sessions] with key path [id]: its records, in key
    order. *)
Definition Store := list FlowSession.

(** [db.put(SESSIONS_STORE, session)]: a record with the same key is
    replaced. *)
Fixpoint put (st : Store) (session : FlowSession) : Store :=
  match st with
  | [] => [session]
  | x :: r =>
      match key_compare (id session) (id x) with
      | Lt => session :: st
      | Eq => session :: r
      | Gt => x :: put r session
      end
  end.

(** [db.get(SESSIONS_STORE, key)] *)
Fixpoint get (st : Store) (key : jsstring) : option FlowSession :=
  match st with
  | [] => None
  | x :: r => if JSString.eqb (id x) key then Some x else get r key
  end.

(** [db.delete(SESSIONS_STORE, key)] *)
Fixpoint delete (st : Store) (key : jsstring) : Store :=
  match st with
  | [] => []
  | x :: r => if JSString.eqb (id x) key then delete r key else x :: delete r key
  end.

(** [db.getAll(SESSIONS_STORE)]: the records in key order. *)
Definition getAll (st : Store) : list FlowSession := st.

(** [sessions.sort((a, b) => b.updatedAt - a.updatedAt)]: the sort is
    stable, so sessions updated at the same time keep their order. *)
Fixpoint insert_by_update (s : FlowSession) (l : list FlowSession) : list FlowSession :=
  match l with
  | [] => [s]
  | x :: r => if (updatedAt x <=? updatedAt s)%Z then s :: l else x :: insert_by_update s r
  end.

Fixpoint sort_by_update (l : list FlowSession) : list FlowSession :=
  match l with
  | [] => []
  | x :: r => insert_by_update x (sort_by_update r)
  end.

(** [db] is [None] when the database cannot be opened or read: the
    [catch] answers the empty list. *)
Definition loadFlowSessions (db : option Store) : list FlowSession :=
  match db with
  | Some st => sort_by_update (getAll st)
  | None => []
  end.


Definition updateFlowSession (st : Store) (sessionId : jsstring)
    (newImages : list GeneratedImage) (now : Z) : Store :=
  match get st sessionId with
  | Some session =>
      put st {| id := id session; name := name session; createdAt := createdAt session;
                updatedAt := now; images := newImages |}
  | None => st
  end.

Definition deleteFlowSession (st : Store) (sessionId : jsstring) : Store :=
  delete st sessionId.

Section Clock.

(** [new Date(t).toLocaleString("zh-CN")], of the runtime. *)
Variable toLocaleString : Z -> jsstring.


End Clock.

End Web.

(** ** [apps/web/netlify/functions/api.ts] *)

Module Netlify.

(** [process.env.CORS_ORIGINS ? process.env.CORS_ORIGINS.split(',').map(trim) : [...]] *)
Definition corsOrigins (CORS_ORIGINS : option jsstring) : list jsstring :=
  match CORS_ORIGINS with
  | Some ((_ :: _) as v) => map trim (split 44 v)
  | _ => [u "http://localhost:5173"; u "http://localhost:3000"]
  end.

End Netlify.

(** * The runtime model on concrete inputs *)

Module Checks.
Import Examples.

Definition number (neg : bool) (m e10 : Z) : jsstring :=
  Number.toString (Number.of_decimal neg m e10).

Example toString_tenth : number false 1 (-1) = u "0.1".
Proof. vm_compute. reflexivity. Qed.

Example toString_large : number false 1 21 = u "1e+21".
Proof. vm_compute. reflexivity. Qed.

Example toString_small : number false 123 (-20) = u "1.23e-18".
Proof. vm_compute. reflexivity. Qed.

Example toString_rounded : number false 9007199254740993 0 = u "9007199254740992".
Proof. vm_compute. reflexivity. Qed.

Example toString_sum :
  Number.toString (SFadd Number.prec Number.emax (Number.of_decimal false 1 (-1))
                     (Number.of_decimal false 2 (-1)))
  = u "0.30000000000000004".
Proof. vm_compute. reflexivity. Qed.

Example floor_negative : Number.floor (Number.of_decimal true 25 (-1)) = Number.of_Z (-3).
Proof. vm_compute. reflexivity. Qed.

Example largest_seed :
  HuggingFace.generated_seed (Number.of_decimal false 9999999999999999 (-16))
  = Number.of_Z 2147483646.
Proof. vm_compute. reflexivity. Qed.

Example parse_result :
  JSON.parse (json " [ {'url' : 'https://x/y.png'} , 42 ] ")
  = Some (JArray [JObject [(u "url", JString (u "https://x/y.png"))];
                  JNumber (Number.of_Z 42)]).
Proof. vm_compute. reflexivity. Qed.

Example parse_property_order :
  option_map JSON.stringify (JSON.parse (json "{'b':1,'2':2,'a':3,'10':4,'b':null,'e':1e400}"))
  = Some (json "{'2':2,'10':4,'b':null,'a':3,'e':null}").
Proof. vm_compute. reflexivity. Qed.

Example parse_rejects :
  map JSON.parse (map json ["" ; "nul"; "[1,]"; "{'a':1,}"; "01"; "1."; "+1"; "'abc";
                            "[1 2]"; "{1:2}"; "1 2"; "boom"]%string)
  = repeat None 12.
Proof. vm_compute. reflexivity. Qed.

Example stringify_escapes :
  option_map JSON.stringify (JSON.parse (json "'a\n\u001f\ud83dx'"))
  = Some (json "'a\n\u001f\ud83dx'").
Proof. vm_compute. reflexivity. Qed.

Example ToString_array :
  option_map ToString (JSON.parse (json "[1, null, [2, 'x'], true, {}, 1e21]"))
  = Some (Some (u "1,,2,x,true,[object Object],1e+21")).
Proof. vm_compute. reflexivity. Qed.

Example ToString_shadowed :
  option_map ToString (JSON.parse (json "{'toString': 1}")) = Some None.
Proof. vm_compute. reflexivity. Qed.

Example trim_line : trim (substring_from 6 (u "event:  complete  ")) = u "complete".
Proof. vm_compute. reflexivity. Qed.

Example split_lines : split 10 (text_of ["a"; ""; "b"; ""]%string) = map u ["a"; ""; "b"; ""]%string.
Proof. vm_compute. reflexivity. Qed.

Example error_fields :
  map (fun d => App.extractCompleteEventData (text_of ["event: error"; d]%string))
      ["data: {'error':'', 'message':'m'}"; "data: {'error':{'a':1}}";
       "data: {'error':{'toString':1}}"; "data: null"; "data: not json"]%string
  = [Threw (Error (u "m")); Threw (Error (u "[object Object]")); Threw TypeError;
     Threw (Error (u "null")); Threw (Error (u "not json"))].
Proof. vm_compute. reflexivity. Qed.

End Checks.

(** * The event-stream extractor *)

Module Extractor.

Lemma jsstring_eqb_eq (a b : jsstring) : JSString.eqb a b = true <-> a = b.
Proof.
  revert b; induction a as [|x a IH]; intros [|y b]; simpl; split; intro H;
    try reflexivity; try discriminate.
  - apply andb_true_iff in H as [Hx Hab].
    apply N.eqb_eq in Hx. apply IH in Hab. congruence.
  - injection H as -> ->. rewrite N.eqb_refl. simpl. now apply IH.
Qed.

Lemma jsstring_eqb_refl (a : jsstring) : JSString.eqb a a = true.
Proof. now apply jsstring_eqb_eq. Qed.

(** The two copies of the loop agree. *)
Lemma error_event_same (d : jsstring) : App.error_event d = HuggingFace.error_event d.
Proof. reflexivity. Qed.

Lemma scan_lines_same (lines : list jsstring) :
  forall current, App.scan_lines lines current = HuggingFace.scan_lines lines current.
Proof.
  induction lines as [|line rest IH]; intro current;
    cbn [App.scan_lines HuggingFace.scan_lines].
  - reflexivity.
  - destruct (startsWith (u "event:") line); [apply IH|].
    destruct (startsWith (u "data:") line); [|apply IH].
    destruct (JSString.eqb current (u "complete")); [reflexivity|].
    destruct (JSString.eqb current (u "error")); [|apply IH].
    now rewrite error_event_same.
Qed.

Lemma extract_same (text : jsstring) :
  App.extractCompleteEventData text = HuggingFace.extractCompleteEventData text.
Proof.
  unfold App.extractCompleteEventData, HuggingFace.extractCompleteEventData.
  now rewrite scan_lines_same.
Qed.

(** What the loop does, read off the data lines. *)
Lemma scan_lines_first_terminal (lines : list jsstring) :
  forall current,
    App.scan_lines lines current =
    option_map Stream.outcome_of (Stream.first_terminal (Stream.data_lines lines current)).
Proof.
  induction lines as [|line rest IH]; intro current;
    cbn [App.scan_lines Stream.data_lines].
  - reflexivity.
  - destruct (startsWith (u "event:") line); [apply IH|].
    destruct (startsWith (u "data:") line); [|apply IH].
    cbn [Stream.first_terminal]. unfold Stream.terminal.
    change (u "complete") with Stream.complete.
    change (u "error") with Stream.error.
    destruct (JSString.eqb current Stream.complete) eqn:Hc; cbn [orb option_map].
    { unfold Stream.outcome_of. cbn [fst snd]. now rewrite Hc. }
    destruct (JSString.eqb current Stream.error) eqn:He; cbn [option_map].
    { unfold Stream.outcome_of. cbn [fst snd]. now rewrite Hc. }
    apply IH.
Qed.

Lemma first_terminal_after_progress pre :
  Stream.progress pre ->
  forall ev d post,
    Stream.terminal ev = true ->
    Stream.first_terminal (pre ++ (ev, d) :: post) = Some (ev, d).
Proof.
  induction 1 as [|[e x] pre Hx _ IH]; intros ev d post Hev;
    cbn [app Stream.first_terminal].
  - now rewrite Hev.
  - cbn [fst] in Hx. rewrite Hx. now apply IH.
Qed.

Lemma first_terminal_progress l :
  Stream.progress l -> Stream.first_terminal l = None.
Proof.
  induction 1 as [|[e x] l Hx _ IH]; cbn [Stream.first_terminal]; [reflexivity|].
  cbn [fst] in Hx. now rewrite Hx.
Qed.

Lemma extract_terminal text pre ev d post :
  Stream.data_events text = pre ++ (ev, d) :: post ->
  Stream.progress pre ->
  Stream.terminal ev = true ->
  App.extractCompleteEventData text = Stream.outcome_of (ev, d).
Proof.
  intros Hev Hpre Hterm.
  unfold App.extractCompleteEventData.
  rewrite scan_lines_first_terminal.
  unfold Stream.data_events in Hev. rewrite Hev.
  now rewrite (first_terminal_after_progress pre Hpre).
Qed.

(** [JSON.stringify] never yields the empty string. *)
Lemma digits_fuel_acc fuel : forall n acc, acc <> [] -> digits_fuel fuel n acc <> [].
Proof.
  induction fuel as [|f IH]; intros n acc Hacc; cbn [digits_fuel]; [exact Hacc|].
  destruct (n <? 10)%Z; [discriminate|]. apply IH. discriminate.
Qed.

Lemma decimal_nonempty n : decimal n <> [].
Proof.
  unfold decimal. cbn [digits_fuel].
  destruct (n <? 10)%Z; [discriminate|]. apply digits_fuel_acc. discriminate.
Qed.

Lemma format_positive_nonempty s k n : Number.format_positive s k n <> [].
Proof.
  unfold Number.format_positive.
  pose proof (decimal_nonempty s) as Hd.
  destruct (decimal s) as [|d ds] eqn:E; [congruence|].
  destruct ((k <=? n)%Z && (n <=? 21)%Z); [discriminate|].
  destruct ((0 <? n)%Z && (n <=? 21)%Z).
  { intro H. apply app_eq_nil in H as [_ H]. discriminate. }
  destruct ((-6 <? n)%Z && (n <=? 0)%Z); [discriminate|].
  destruct ds; discriminate.
Qed.

Lemma Number_toString_nonempty x : Number.toString x <> [].
Proof.
  destruct x as [s|s| |sg m e]; cbn [Number.toString]; try discriminate.
  - destruct s; discriminate.
  - destruct (Number.shortest _ _ _ _ _ _) as [[s k] n].
    intro H. apply app_eq_nil in H as [_ H].
    now apply format_positive_nonempty in H.
Qed.

Lemma stringify_nonempty v : JSON.stringify v <> [].
Proof.
  destruct v as [|b|x|s|l|ps]; cbn [JSON.stringify]; try discriminate.
  - destruct b; discriminate.
  - unfold JSON.number_text.
    destruct x; try discriminate; apply Number_toString_nonempty.
Qed.

Lemma new_Error_not_SyntaxError m : App.new_Error m <> SyntaxError.
Proof.
  unfold App.new_Error. destruct m as [v|]; [|discriminate].
  destruct (ToString v); discriminate.
Qed.

(** The value the [||] chain of the error branch selects. *)
Lemma error_event_decoded d v :
  JSON.parse d = Some v ->
  App.error_event d =
  App.new_Error
    (if truthy (field_opt (Some v) (u "error")) then field_opt (Some v) (u "error")
     else if truthy (field_opt (Some v) (u "message")) then field_opt (Some v) (u "message")
     else Some (JString (JSON.stringify v))).
Proof.
  intro Hp. unfold App.error_event. rewrite Hp.
  set (E := field_opt (Some v) (u "error")).
  set (M := field_opt (Some v) (u "message")).
  assert (Hs : truthy (Some (JString (JSON.stringify v))) = true).
  { cbn [truthy ToBoolean]. pose proof (stringify_nonempty v).
    destruct (JSON.stringify v); congruence. }
  assert (Hchain :
    or_else (or_else (or_else E M) (Some (JString (JSON.stringify v))))
            (Some (JString (u "Unknown error")))
    = if truthy E then E else if truthy M then M
      else Some (JString (JSON.stringify v))).
  { unfold or_else at 3. destruct (truthy E) eqn:HE.
    - unfold or_else at 2. rewrite HE. unfold or_else. now rewrite HE.
    - destruct (truthy M) eqn:HM.
      + unfold or_else at 2. rewrite HM. unfold or_else. now rewrite HM.
      + unfold or_else at 2. rewrite HM. unfold or_else. now rewrite Hs. }
  rewrite Hchain.
  match goal with |- match ?t with _ => _ end = _ =>
    pose proof (@new_Error_not_SyntaxError
      (if truthy E then E else if truthy M then M
       else Some (JString (JSON.stringify v)))) as Hn;
    destruct t; try reflexivity; congruence
  end.
Qed.

Lemma error_event_undecodable d :
  JSON.parse d = None ->
  App.error_event d = Error (match d with [] => u "Unknown SSE error" | _ => d end).
Proof. intro Hp. unfold App.error_event. now rewrite Hp. Qed.

(** C1 (as amended). When the first terminal data line of a stream is a
    [complete] one, that is, only progress data lines come before it and
    in particular no [error] data line, the extractor JSON-decodes that
    line and returns the decoded payload; a payload that is no JSON makes
    [JSON.parse]'s SyntaxError leave the extractor. The lines after it
    ([post]) have no influence: they are not scanned. Both copies of the
    extractor behave so. *)
Theorem complete_payload_after_progress (text : jsstring)
    (pre : list (jsstring * jsstring)) (d : jsstring)
    (post : list (jsstring * jsstring)) :
  Stream.data_events text = pre ++ (Stream.complete, d) :: post ->
  Stream.progress pre ->
  let result := match JSON.parse d with
                | Some v => Returned v
                | None => Threw SyntaxError
                end in
  App.extractCompleteEventData text = result /\
  HuggingFace.extractCompleteEventData text = result.
Proof.
  intros Hev Hpre result.
  assert (H : App.extractCompleteEventData text = result).
  { rewrite (extract_terminal text pre _ d post Hev Hpre) by reflexivity. reflexivity. }
  split; [exact H|]. now rewrite <- extract_same.
Qed.

(** The stream of the specification's example, between two progress
    events and an [error] event that comes too late to matter. *)
Lemma complete_payload_after_progress_witness :
  Stream.data_events Examples.progress_then_complete =
    [(u "generating", u "null"); (u "heartbeat", u "{}")]
    ++ (Stream.complete, Examples.json "[{'url':'https://x/y.png'}, 42]")
    :: [(u "error", u "late")] /\
  Stream.progress [(u "generating", u "null"); (u "heartbeat", u "{}")] /\
  App.extractCompleteEventData Examples.progress_then_complete =
    Returned (JArray [JObject [(u "url", JString (u "https://x/y.png"))];
                      JNumber (Number.of_Z 42)]).
Proof.
  split; [reflexivity|]. split; [repeat constructor|].
  apply (@complete_payload_after_progress Examples.progress_then_complete
           [(u "generating", u "null"); (u "heartbeat", u "{}")]
           (Examples.json "[{'url':'https://x/y.png'}, 42]")
           [(u "error", u "late")]); [reflexivity | repeat constructor].
Defined.

(** C1 as stated fails: this stream contains a [complete] data line with
    the decodable payload [[1]], yet an [error] data line comes first and
    the extractor throws. *)
Lemma complete_after_error_counterexample :
  Stream.data_events Examples.error_then_complete =
    [(Stream.error, u "boom"); (Stream.complete, u "[1]")] /\
  JSON.parse (u "[1]") = Some (JArray [JNumber (Number.of_Z 1)]) /\
  App.extractCompleteEventData Examples.error_then_complete = Threw (Error (u "boom")) /\
  HuggingFace.extractCompleteEventData Examples.error_then_complete
    = Threw (Error (u "boom")).
Proof. repeat split; reflexivity. Qed.

(** C2 (as amended). When the first terminal data line of a stream is an
    [error] one, the extractor throws. If its data is no JSON the error
    message is the trimmed data text, and the fixed text
    [Unknown SSE error] when that text is empty. If it decodes, the
    message is the string form of the decoded value's [error] field when
    that field is truthy, else of its [message] field when truthy, else
    the JSON serialisation of the decoded value. A truthy field that has
    no string form (an object with an own [toString] property, or an
    array that holds one) makes [new Error] throw a TypeError instead.
    In particular data [{"error":"X"}] with a non-empty [X] gives the
    message [X]. *)
Theorem error_event_message (text : jsstring)
    (pre : list (jsstring * jsstring)) (d : jsstring)
    (post : list (jsstring * jsstring)) :
  Stream.data_events text = pre ++ (Stream.error, d) :: post ->
  Stream.progress pre ->
  exists thrown,
    App.extractCompleteEventData text = Threw thrown /\
    HuggingFace.extractCompleteEventData text = Threw thrown /\
    (JSON.parse d = None -> d <> [] -> thrown = Error d) /\
    (JSON.parse d = None -> d = [] -> thrown = Error (u "Unknown SSE error")) /\
    (forall v e m,
        JSON.parse d = Some v ->
        field v (u "error") = Some e -> ToBoolean e = true ->
        ToString e = Some m ->
        thrown = Error m) /\
    (forall v e m,
        JSON.parse d = Some v ->
        truthy (field v (u "error")) = false ->
        field v (u "message") = Some e -> ToBoolean e = true ->
        ToString e = Some m ->
        thrown = Error m) /\
    (forall v e,
        JSON.parse d = Some v ->
        field v (u "error") = Some e -> ToBoolean e = true ->
        ToString e = None ->
        thrown = TypeError) /\
    (forall v e,
        JSON.parse d = Some v ->
        truthy (field v (u "error")) = false ->
        field v (u "message") = Some e -> ToBoolean e = true ->
        ToString e = None ->
        thrown = TypeError) /\
    (forall v,
        JSON.parse d = Some v ->
        truthy (field v (u "error")) = false ->
        truthy (field v (u "message")) = false ->
        thrown = Error (JSON.stringify v)) /\
    (forall X,
        JSON.parse d = Some (JObject [(u "error", JString X)]) -> X <> [] ->
        thrown = Error X).
Proof.
  intros Hev Hpre.
  exists (App.error_event d).
  assert (H : App.extractCompleteEventData text = Threw (App.error_event d)).
  { rewrite (extract_terminal text pre _ d post Hev Hpre) by reflexivity.
    reflexivity. }
  assert (Hfield : forall v k, JSON.parse d = Some v ->
                               field_opt (Some v) k = field v k).
  { (* a decoded value is not [undefined]; [null] has no field either way *)
    intros v k Hp. destruct v; reflexivity. }
  split; [exact H|]. split; [now rewrite <- extract_same|].
  split; [|split; [|split; [|split; [|split; [|split; [|split]]]]]].
  - intros Hp Hd. rewrite (error_event_undecodable d Hp).
    destruct d; congruence.
  - intros Hp ->. now rewrite (error_event_undecodable [] Hp).
  - intros v e m Hp He Ht Hs.
    rewrite (error_event_decoded d v Hp), !(Hfield v _ Hp), He.
    cbn [truthy]. rewrite Ht. unfold App.new_Error. now rewrite Hs.
  - intros v e m Hp Hne He Ht Hs.
    rewrite (error_event_decoded d v Hp), !(Hfield v _ Hp), Hne, He.
    cbn [truthy]. rewrite Ht. unfold App.new_Error. now rewrite Hs.
  - intros v e Hp He Ht Hs.
    rewrite (error_event_decoded d v Hp), !(Hfield v _ Hp), He.
    cbn [truthy]. rewrite Ht. unfold App.new_Error. now rewrite Hs.
  - intros v e Hp Hne He Ht Hs.
    rewrite (error_event_decoded d v Hp), !(Hfield v _ Hp), Hne, He.
    cbn [truthy]. rewrite Ht. unfold App.new_Error. now rewrite Hs.
  - intros v Hp Hne Hnm.
    rewrite (error_event_decoded d v Hp), !(Hfield v _ Hp), Hne, Hnm.
    reflexivity.
  - intros X Hp HX.
    rewrite (error_event_decoded d _ Hp).
    cbn [field_opt field own].
    rewrite jsstring_eqb_refl. cbn [truthy ToBoolean].
    destruct X; [congruence|]. reflexivity.
Qed.

Lemma error_event_message_witness :
  Stream.data_events Examples.error_X =
    [(u "heartbeat", u "null")]
    ++ (Stream.error, Examples.json "{'error':'X'}") :: [] /\
  Stream.progress [(u "heartbeat", u "null")] /\
  JSON.parse (Examples.json "{'error':'X'}")
    = Some (JObject [(u "error", JString (u "X"))]) /\
  App.extractCompleteEventData Examples.error_X = Threw (Error (u "X")) /\
  HuggingFace.extractCompleteEventData Examples.error_X = Threw (Error (u "X")).
Proof.
  split; [reflexivity|]. split; [repeat constructor|]. split; [reflexivity|].
  destruct (error_event_message Examples.error_X
              [(u "heartbeat", u "null")] (Examples.json "{'error':'X'}") []
              eq_refl ltac:(repeat constructor))
    as (thrown & Ha & Hh & _ & _ & _ & _ & _ & _ & _ & HX).
  rewrite Ha, Hh.
  rewrite (HX (u "X") eq_refl ltac:(discriminate)).
  split; reflexivity.
Defined.

(** C2 as stated fails: an [error] event whose data text is empty does
    not decode, and the message is not that (empty) raw text. *)
Lemma empty_error_data_counterexample :
  Stream.data_events Examples.empty_error = [(Stream.error, [])] /\
  JSON.parse [] = None /\
  App.extractCompleteEventData Examples.empty_error
    = Threw (Error (u "Unknown SSE error")) /\
  HuggingFace.extractCompleteEventData Examples.empty_error
    = Threw (Error (u "Unknown SSE error")) /\
  App.extractCompleteEventData Examples.empty_error <> Threw (Error []).
Proof. repeat split; try reflexivity. discriminate. Qed.

(** C3. A stream without [complete] or [error] data line makes the
    extractor throw an error whose message is the fixed prefix
    [Unexpected SSE response: ] followed by the first 300 code units of
    the stream and nothing more. *)
Theorem no_terminal_event_bounded_prefix (text : jsstring) :
  Stream.progress (Stream.data_events text) ->
  let shown := substring_to 300 text in
  App.extractCompleteEventData text
    = Threw (Error (u "Unexpected SSE response: " ++ shown)) /\
  HuggingFace.extractCompleteEventData text
    = Threw (Error (u "Unexpected SSE response: " ++ shown)) /\
  shown = firstn 300 text /\
  (List.length shown <= 300)%nat /\
  (List.length (u "Unexpected SSE response: " ++ shown) <= 25 + 300)%nat.
Proof.
  intros Hp shown.
  assert (H : App.extractCompleteEventData text
              = Threw (Error (u "Unexpected SSE response: " ++ shown))).
  { unfold App.extractCompleteEventData.
    rewrite scan_lines_first_terminal.
    unfold Stream.data_events in Hp.
    now rewrite (first_terminal_progress _ Hp). }
  assert (Hlen : (List.length shown <= 300)%nat).
  { unfold shown, substring_to. rewrite length_firstn. lia. }
  split; [exact H|]. split; [now rewrite <- extract_same|].
  split; [reflexivity|]. split; [exact Hlen|].
  rewrite length_app.
  change (List.length (u "Unexpected SSE response: ")) with 25%nat. lia.
Qed.

Lemma no_terminal_event_bounded_prefix_witness :
  Stream.progress (Stream.data_events Examples.progress_only_stream) /\
  App.extractCompleteEventData Examples.progress_only_stream
    = Threw (Error (u "Unexpected SSE response: " ++ Examples.progress_only_stream)).
Proof.
  split; [repeat constructor|].
  apply (no_terminal_event_bounded_prefix Examples.progress_only_stream).
  repeat constructor.
Defined.

(** C10. The extractor of the dispatch app and the extractor of the
    HuggingFace provider return the same value or throw the same error on
    every input. *)
Theorem extractor_copies_agree (text : jsstring) :
  App.extractCompleteEventData text = HuggingFace.extractCompleteEventData text.
Proof.
  unfold App.extractCompleteEventData, HuggingFace.extractCompleteEventData.
  destruct (App.scan_lines (JSString.split 10 text) []) as [r|] eqn:Ha;
    rewrite scan_lines_same in Ha; now rewrite Ha.
Qed.

End Extractor.

(** * Binary64 rounding, for the generated seed *)

Module Binary64.
Import HuggingFace.
Local Open Scope Z_scope.






















End Binary64.

(** * The HuggingFace adapter *)

Module Provider.
Import HuggingFace.

Lemma run_bind {A B : Type} (w : World) (p : Prog A) (f : A -> Prog B) :
  run w (bind p f) =
  match run w p with
  | Returned a => run w (f a)
  | Threw t => Threw t
  end.
Proof.
  induction p as [a|t|k IH|rq k IH]; cbn [bind run]; try reflexivity; apply IH.
Qed.

Lemma run_lift {A : Type} (w : World) (o : Outcome A) : run w (lift o) = o.
Proof. destruct o; reflexivity. Qed.

Lemma run_choose_seed (w : World) (request : ProviderGenerateRequest) :
  run w (choose_seed request) = Returned (seed_in_force w request).
Proof.
  unfold choose_seed, seed_in_force.
  destruct (seed request) as [[| | | | |]|]; reflexivity.
Qed.

(** A seed the caller supplies is kept, zero included. *)
Lemma caller_seed_kept (w : World) (request : ProviderGenerateRequest) (s : JSValue) :
  seed request = Some s -> s <> JNull ->
  run w (choose_seed request) = Returned (Some s).
Proof.
  intros Hs Hn. rewrite run_choose_seed. unfold seed_in_force. rewrite Hs.
  destruct s; congruence.
Qed.

Lemma inherited_config (name : jsstring) :
  In name Table.Object_prototype ->
  name <> [] /\
  Table.assoc MODEL_CONFIGS name = None /\
  resolve_config name = Table.Builtin name.
Proof.
  intro H. cbv [Table.Object_prototype map] in H.
  repeat (destruct H as [<-|H]; [repeat split; try discriminate; reflexivity|]).
  destruct H.
Qed.

(** C4, the failing inputs. A model id that names a property of
    [Object.prototype] ([constructor], [toString], [__proto__], ...) is
    non-empty and is no key of [MODEL_CONFIGS], yet [MODEL_CONFIGS[modelId]]
    finds the inherited property, which is truthy: the [||] fallback to
    [z-image-turbo] is not taken, [config.buildData] is [undefined], and
    [generate] throws a TypeError before any request is sent. *)
Theorem inherited_model_id_throws (HF_SPACES : list (jsstring * jsstring))
    (w : World) (request : ProviderGenerateRequest) (name : jsstring) :
  In name Table.Object_prototype ->
  model request = Some (JString name) ->
  name <> [] /\
  Table.assoc MODEL_CONFIGS name = None /\
  run w (generate HF_SPACES request) = Threw TypeError.
Proof.
  intros Hin Hm.
  destruct (inherited_config name Hin) as (Hne & Hassoc & Hcfg).
  split; [exact Hne|]. split; [exact Hassoc|].
  unfold generate. rewrite run_bind, run_choose_seed, Hm.
  assert (Hid : or_default (Some (JString name)) (JString (u "z-image-turbo"))
                = JString name).
  { unfold or_default. cbn [ToBoolean]. destruct name; [congruence|reflexivity]. }
  rewrite Hid. cbn [ToString]. now rewrite Hcfg.
Qed.

Lemma inherited_model_id_throws_witness :
  In (u "constructor") Table.Object_prototype /\
  run (Worlds.stub_world Worlds.png_stream)
      (generate Worlds.spaces (Worlds.cat_request "constructor" (num 7)))
    = Threw TypeError.
Proof.
  split; [left; reflexivity|].
  apply (inherited_model_id_throws Worlds.spaces (Worlds.stub_world Worlds.png_stream)
           (Worlds.cat_request "constructor" (num 7)) (u "constructor"));
    [left; reflexivity | reflexivity].
Defined.

(** The fallback the code aims at: an id that is in neither table and is
    no property of [Object.prototype] resolves to the default model. *)
Lemma unknown_model_falls_back (HF_SPACES : list (jsstring * jsstring)) (key : jsstring) :
  Table.get MODEL_CONFIGS key = Table.Undefined ->
  Table.get HF_SPACES key = Table.Undefined ->
  resolve_config key = Table.get MODEL_CONFIGS (u "z-image-turbo") /\
  resolve_baseUrl HF_SPACES key = Table.get HF_SPACES (u "z-image-turbo").
Proof.
  intros Hc Hs. unfold resolve_config, resolve_baseUrl.
  now rewrite Hc, Hs.
Qed.

(** The two tables are consulted one by one: an id known to [HF_SPACES]
    only keeps its own base URL and takes the default configuration. *)
Lemma upscaler_base_with_default_config :
  resolve_baseUrl Worlds.spaces (u "upscaler") = Table.Value (u "https://upscaler.example") /\
  resolve_config (u "upscaler") = Table.get MODEL_CONFIGS (u "z-image-turbo").
Proof. split; reflexivity. Qed.

(** C5 (as amended). When the backend's result is an array whose first
    element is an object with a non-empty string [url], [generate]
    returns that url, and as seed the array's second element when it is a
    number, else the seed in force (the caller's, or the generated one). *)
Theorem generate_returns_url_and_seed (HF_SPACES : list (jsstring * jsstring))
    (w : World) (request : ProviderGenerateRequest)
    (key : jsstring) (c : ModelConfig)
    (props : list (jsstring * JSValue)) (rest : list JSValue) (s : jsstring) :
  ToString (or_default (model request) (JString (u "z-image-turbo"))) = Some key ->
  resolve_config key = Table.Value c ->
  run w (callGradioApi (resolve_baseUrl HF_SPACES key) (endpoint c)
           (buildData c request (seed_in_force w request)) (authToken request))
    = Returned (JArray (JObject props :: rest)) ->
  own props (u "url") = Some (JString s) ->
  s <> [] ->
  run w (generate HF_SPACES request) =
  Returned {| url := Some (JString s);
              result_seed := match rest with
                             | JNumber x :: _ => Some (JNumber x)
                             | _ => seed_in_force w request
                             end |}.
Proof.
  intros Hkey Hcfg Hcall Hurl Hs.
  unfold generate. rewrite run_bind, run_choose_seed, Hkey, Hcfg.
  rewrite run_bind, Hcall, run_lift.
  unfold normalize. cbn [JSValues.index nth_error field_opt field]. rewrite Hurl.
  cbn [truthy ToBoolean]. destruct s as [|ch s]; [congruence|]. cbn [negb].
  destruct rest as [|[| | | | |] rest]; reflexivity.
Qed.

(** The end-to-end example of the specification: the stub backend
    answers [[{"url":"https://x/y.png"}, 42]] to a request with seed 7. *)
Lemma generate_returns_url_and_seed_witness :
  run (Worlds.stub_world Worlds.png_stream)
      (generate Worlds.spaces (Worlds.cat_request "z-image-turbo" (num 7)))
  = Returned {| url := Some (JString (u "https://x/y.png")); result_seed := num 42 |}.
Proof.
  apply (generate_returns_url_and_seed Worlds.spaces
           (Worlds.stub_world Worlds.png_stream)
           (Worlds.cat_request "z-image-turbo" (num 7))
           (u "z-image-turbo")
           {| endpoint := u "generate_image";
              buildData := fun r seed =>
                [prompt r; height r; width r; nullish (steps r) (num 9); seed;
                 Some (JBool false)] |}
           [(u "url", JString (u "https://x/y.png"))]
           [JNumber (Number.of_Z 42)]
           (u "https://x/y.png"));
    [reflexivity | reflexivity | reflexivity | reflexivity | discriminate].
Defined.

(** C5 as stated fails: the first element is an object whose [url] is a
    string, the empty one, and [generate] throws. *)
Lemma empty_url_counterexample :
  run (Worlds.stub_world Worlds.empty_url_stream)
      (callGradioApi (resolve_baseUrl Worlds.spaces (u "z-image-turbo"))
         (u "generate_image")
         [Some (JString (u "cat")); num 1024; num 1024; num 9; num 7; Some (JBool false)]
         None)
    = Returned (JArray [JObject [(u "url", JString [])]; JNumber (Number.of_Z 42)]) /\
  run (Worlds.stub_world Worlds.empty_url_stream)
      (generate Worlds.spaces (Worlds.cat_request "z-image-turbo" (num 7)))
    = Threw (Error (u "No image returned from HuggingFace")).
Proof. split; reflexivity. Qed.

(** A [complete] payload that is no JSON: the SyntaxError of [JSON.parse]
    leaves the extractor, the job client and [generate]. *)
Lemma malformed_payload_syntax_error :
  run (Worlds.stub_world Worlds.malformed_complete_stream)
      (generate Worlds.spaces (Worlds.cat_request "z-image-turbo" (num 7)))
  = Threw SyntaxError.
Proof. reflexivity. Qed.




End Provider.

(** * The dispatch layer *)

Module Dispatch.
Import App.

Section Dispatch.

Variable hasProvider : JSValue -> bool.
Variable PROVIDER_CONFIGS : list (jsstring * ProviderConfig).
Variable validatePrompt : option JSValue -> Verdict.
Variable validateDimensions : option JSValue -> option JSValue -> Verdict.
Variable validateSteps : option JSValue -> Verdict.

Let route := generate_route hasProvider PROVIDER_CONFIGS
               validatePrompt validateDimensions validateSteps.

Lemma route_known_provider (req : HttpRequest) (body : JSValue) (key : jsstring) :
  JSON.parse (body_text req) = Some body -> body <> JNull ->
  hasProvider (provider_of body) = true ->
  ToString (provider_of body) = Some key ->
  route req =
  let providerConfig := Table.get PROVIDER_CONFIGS key in
  let authToken := header req (auth_header_name providerConfig) in
  match requires_auth providerConfig, present authToken with
  | Some c, false =>
      Respond (json_error
        (match authHeader c with Some h => h | None => u "undefined" end
         ++ u " is required for " ++ name c) 401)
  | _, _ =>
      let promptValidation := validatePrompt (field body (u "prompt")) in
      if negb (valid promptValidation) then Respond (invalid promptValidation)
      else
        let width := nullish (field body (u "width")) (num 1024) in
        let height := nullish (field body (u "height")) (num 1024) in
        let dimensionsValidation := validateDimensions width height in
        if negb (valid dimensionsValidation) then Respond (invalid dimensionsValidation)
        else
          let steps :=
            nullish (nullish (field body (u "steps"))
                             (field body (u "num_inference_steps")))
                    (num 9) in
          let stepsValidation := validateSteps steps in
          if negb (valid stepsValidation) then Respond (invalid stepsValidation)
          else
            Invoke (provider_of body)
              {| model := field body (u "model");
                 prompt := field body (u "prompt");
                 negativePrompt :=
                   or_else (field body (u "negativePrompt"))
                           (field body (u "negative_prompt"));
                 width := width;
                 height := height;
                 steps := steps;
                 seed := field body (u "seed");
                 guidanceScale := field body (u "guidanceScale");
                 authToken := authToken |}
              respond_outcome
  end.
Proof.
  intros Hp Hn Hh Hk. unfold route, generate_route.
  rewrite Hp. destruct body; try congruence; rewrite Hh, Hk; reflexivity.
Qed.

(** C7. When the provider's configuration requires auth and the request
    lacks the configured header, the handler answers 401 with the message
    [<header> is required for <provider name>] and does not reach the
    adapter. *)
Theorem missing_auth_header_401 (req : HttpRequest) (body : JSValue)
    (key : jsstring) (c : ProviderConfig) (h : jsstring) :
  JSON.parse (body_text req) = Some body -> body <> JNull ->
  hasProvider (provider_of body) = true ->
  ToString (provider_of body) = Some key ->
  Table.get PROVIDER_CONFIGS key = Table.Value c ->
  requiresAuth c = true ->
  authHeader c = Some h -> h <> [] ->
  header req h = None ->
  route req = Respond {| status := 401;
                         payload := ErrorPayload
                           (Some (Text (h ++ u " is required for " ++ name c))) |} /\
  App.invokes (route req) = false.
Proof.
  intros Hp Hn Hh Hk Hc Hr Ha Hne Hhead.
  assert (H : route req = Respond (json_error (h ++ u " is required for " ++ name c) 401)).
  { rewrite (route_known_provider req body key Hp Hn Hh Hk), Hc. cbv zeta.
    cbn [requires_auth auth_header_name]. rewrite Hr, Ha.
    destruct h as [|x h']; [congruence|]. cbv iota beta. now rewrite Hhead. }
  rewrite H. split; reflexivity.
Qed.

(** The provider check on a body that can be read: the provider id is
    [body.provider], and [gitee] when the body has none; an id the
    registry does not know is answered with 400 and the message
    [Invalid provider: <id>], and the adapter is not reached. *)
Theorem unknown_provider_400 (req : HttpRequest) (body : JSValue) :
  JSON.parse (body_text req) = Some body -> body <> JNull ->
  (field body (u "provider") = None -> provider_of body = JString (u "gitee")) /\
  (forall p, field body (u "provider") = Some (JString p) -> p <> [] ->
             provider_of body = JString p) /\
  (forall providerId request k,
      route req = Invoke providerId request k -> providerId = provider_of body) /\
  (forall id,
      hasProvider (provider_of body) = false ->
      ToString (provider_of body) = Some id ->
      route req = Respond {| status := 400;
                             payload := ErrorPayload
                               (Some (Text (u "Invalid provider: " ++ id))) |} /\
      App.invokes (route req) = false).
Proof.
  intros Hp Hn.
  split; [|split; [|split]].
  - intro Hf. unfold provider_of, or_default. now rewrite Hf.
  - intros p Hf Hne. unfold provider_of, or_default. rewrite Hf.
    cbn [ToBoolean]. destruct p; [congruence|reflexivity].
  - intros providerId request k.
    destruct (hasProvider (provider_of body)) eqn:Hh.
    + destruct (ToString (provider_of body)) as [key|] eqn:Hk.
      * rewrite (route_known_provider req body key Hp Hn Hh Hk). cbv zeta.
        destruct (requires_auth _) as [c|];
          [destruct (present _)|];
          repeat match goal with
                 | |- context [if negb (valid ?v) then _ else _] =>
                     destruct (valid v); cbn [negb]
                 end;
          intro H; try discriminate; now inversion H.
      * unfold route, generate_route. rewrite Hp.
        destruct body; try congruence; rewrite Hh, Hk; discriminate.
    + unfold route, generate_route. rewrite Hp.
      destruct body; try congruence; rewrite Hh; cbn [negb];
        destruct (ToString _); discriminate.
  - intros id Hh Hid.
    assert (H : route req = Respond (json_error (u "Invalid provider: " ++ id) 400)).
    { unfold route, generate_route. rewrite Hp.
      destruct body; try congruence; rewrite Hh, Hid; reflexivity. }
    rewrite H. split; reflexivity.
Qed.

(** C8, the failing inputs. Not every request gets a provider id. A body
    that is the JSON literal [null] decodes, so the [catch] of the body
    parse does not apply, and reading [body.provider] throws a TypeError
    outside any [try]: the handler does not answer, no default is taken.
    And an unknown provider id that cannot be converted to a string (an
    object with an own [toString] property) makes the template of the 400
    message throw in the same way. *)
Theorem unreadable_provider_escapes (req : HttpRequest) :
  (JSON.parse (body_text req) = Some JNull -> route req = Escape TypeError) /\
  (forall body,
      JSON.parse (body_text req) = Some body -> body <> JNull ->
      hasProvider (provider_of body) = false ->
      ToString (provider_of body) = None ->
      route req = Escape TypeError).
Proof.
  split.
  - intro Hp. unfold route, generate_route. now rewrite Hp.
  - intros body Hp Hn Hh Hs. unfold route, generate_route. rewrite Hp.
    destruct body; try congruence; now rewrite Hh, Hs.
Qed.

(** C9 (as amended). A request that passes the provider check, the auth
    check and the three validations reaches the adapter, and the handler
    answers from the adapter's outcome: 200 with the result when it
    returns; 500 with the error's own message when it throws an instance
    of [Error], be it one the adapter made or a TypeError or SyntaxError
    of the runtime; 500 with the generic message
    [Image generation failed] only when the thrown value is no [Error].
    Whatever the adapter does, the handler answers: nothing is thrown
    past it. *)
Theorem adapter_outcome_mapping (req : HttpRequest) (body : JSValue) (key : jsstring) :
  JSON.parse (body_text req) = Some body -> body <> JNull ->
  hasProvider (provider_of body) = true ->
  ToString (provider_of body) = Some key ->
  (requires_auth (Table.get PROVIDER_CONFIGS key) = None \/
   present (header req (auth_header_name (Table.get PROVIDER_CONFIGS key))) = true) ->
  valid (validatePrompt (field body (u "prompt"))) = true ->
  valid (validateDimensions (nullish (field body (u "width")) (num 1024))
                            (nullish (field body (u "height")) (num 1024))) = true ->
  valid (validateSteps (nullish (nullish (field body (u "steps"))
                                         (field body (u "num_inference_steps")))
                                (num 9))) = true ->
  exists request k,
    route req = Invoke (provider_of body) request k /\
    (forall result,
        k (Returned result) = {| status := 200; payload := ResultPayload result |}) /\
    (forall m,
        k (Threw (Error m))
        = {| status := 500; payload := ErrorPayload (Some (Text m)) |}) /\
    k (Threw TypeError)
      = {| status := 500; payload := ErrorPayload (Some (EngineText TypeError)) |} /\
    k (Threw SyntaxError)
      = {| status := 500; payload := ErrorPayload (Some (EngineText SyntaxError)) |} /\
    k (Threw NotAnError)
      = {| status := 500;
           payload := ErrorPayload (Some (Text (u "Image generation failed"))) |} /\
    (forall adapter, exists response,
        App.serve adapter (route req) = Returned response /\
        (status response = 200 \/ status response = 500)%N).
Proof.
  intros Hp Hn Hh Hk Hauth Hvp Hvd Hvs.
  set (request :=
    {| model := field body (u "model");
       prompt := field body (u "prompt");
       negativePrompt := or_else (field body (u "negativePrompt"))
                                 (field body (u "negative_prompt"));
       width := nullish (field body (u "width")) (num 1024);
       height := nullish (field body (u "height")) (num 1024);
       steps := nullish (nullish (field body (u "steps"))
                                 (field body (u "num_inference_steps")))
                        (num 9);
       seed := field body (u "seed");
       guidanceScale := field body (u "guidanceScale");
       authToken := header req (auth_header_name (Table.get PROVIDER_CONFIGS key)) |}).
  exists request, respond_outcome.
  assert (H : route req = Invoke (provider_of body) request respond_outcome).
  { rewrite (route_known_provider req body key Hp Hn Hh Hk). cbv zeta.
    rewrite Hvp, Hvd, Hvs. cbn [negb].
    destruct Hauth as [Hno|Hyes]; [rewrite Hno | rewrite Hyes].
    - reflexivity.
    - destruct (requires_auth _); reflexivity. }
  split; [exact H|].
  repeat (split; [reflexivity|]).
  intro adapter. rewrite H. cbn [App.serve].
  eexists; split; [reflexivity|].
  destruct (adapter _ _); [left|right]; reflexivity.
Qed.

End Dispatch.

Lemma missing_auth_header_401_witness :
  Worlds.route (Worlds.post "{'prompt':'cat'}")
  = Respond {| status := 401;
               payload := ErrorPayload
                 (Some (Text (u "X-API-Key is required for Gitee AI"))) |}.
Proof.
  apply (missing_auth_header_401 Worlds.known_provider Worlds.provider_configs
           (fun _ => Worlds.accept) (fun _ _ => Worlds.accept) (fun _ => Worlds.accept)
           (Worlds.post "{'prompt':'cat'}")
           (JObject [(u "prompt", JString (u "cat"))])
           (u "gitee")
           {| name := u "Gitee AI"; requiresAuth := true;
              authHeader := Some (u "X-API-Key") |}
           (u "X-API-Key"));
    try reflexivity; discriminate.
Defined.

Lemma unknown_provider_400_witness :
  Worlds.route (Worlds.post "{'provider':'nope','prompt':'cat'}")
  = Respond {| status := 400;
               payload := ErrorPayload (Some (Text (u "Invalid provider: nope"))) |}.
Proof.
  apply (unknown_provider_400 Worlds.known_provider Worlds.provider_configs
           (fun _ => Worlds.accept) (fun _ _ => Worlds.accept) (fun _ => Worlds.accept)
           (Worlds.post "{'provider':'nope','prompt':'cat'}")
           (JObject [(u "provider", JString (u "nope")); (u "prompt", JString (u "cat"))])
           eq_refl ltac:(discriminate));
    reflexivity.
Defined.

Lemma unreadable_provider_escapes_witness :
  JSON.parse (body_text (Worlds.post "null")) = Some JNull /\
  Worlds.route (Worlds.post "null") = Escape TypeError /\
  serve (Worlds.huggingface Worlds.offline_world) (Worlds.route (Worlds.post "null"))
    = Threw TypeError.
Proof.
  split; [reflexivity|].
  assert (H : Worlds.route (Worlds.post "null") = Escape TypeError).
  { apply (unreadable_provider_escapes Worlds.known_provider Worlds.provider_configs
             (fun _ => Worlds.accept) (fun _ _ => Worlds.accept) (fun _ => Worlds.accept)
             (Worlds.post "null")).
    reflexivity. }
  split; [exact H|]. rewrite H. reflexivity.
Defined.

(** The HuggingFace adapter behind the registry, run in a world. *)
Lemma adapter_outcome_mapping_witness :
  App.serve (Worlds.huggingface (Worlds.stub_world Worlds.png_stream))
    (Worlds.route (Worlds.post
       "{'provider':'huggingface','model':'z-image-turbo','prompt':'cat','seed':7}"))
  = Returned {| status := 200;
                payload := ResultPayload
                  {| url := Some (JString (u "https://x/y.png"));
                     result_seed := num 42 |} |}.
Proof.
  destruct (adapter_outcome_mapping Worlds.known_provider Worlds.provider_configs
              (fun _ => Worlds.accept) (fun _ _ => Worlds.accept) (fun _ => Worlds.accept)
              (Worlds.post
                 "{'provider':'huggingface','model':'z-image-turbo','prompt':'cat','seed':7}")
              (JObject [(u "provider", JString (u "huggingface"));
                        (u "model", JString (u "z-image-turbo"));
                        (u "prompt", JString (u "cat"));
                        (u "seed", JNumber (Number.of_Z 7))])
              (u "huggingface")
              eq_refl ltac:(discriminate) eq_refl eq_refl (or_introl eq_refl)
              eq_refl eq_refl eq_refl)
    as (request & k & Hroute & H200 & _).
  unfold Worlds.route. rewrite Hroute. cbn [App.serve]. 
  vm_compute in Hroute. injection Hroute as <- <-.
  reflexivity.
Defined.

(** C9 as stated fails: when the network is down, [fetch] rejects with a
    TypeError, an exception the adapter did not make; the answer carries
    that error's message, not the generic one. *)
Lemma runtime_error_message_counterexample :
  App.serve (Worlds.huggingface Worlds.offline_world)
    (Worlds.route (Worlds.post
       "{'provider':'huggingface','model':'z-image-turbo','prompt':'cat'}"))
  = Returned {| status := 500;
                payload := ErrorPayload (Some (EngineText TypeError)) |} /\
  EngineText TypeError <> Text (u "Image generation failed").
Proof. split; [reflexivity|discriminate]. Qed.

End Dispatch.

(** * Framing of the event stream *)

Module Framing.

Lemma first_terminal_split evs : forall ed,
  Stream.first_terminal evs = Some ed ->
  exists pre post,
    evs = pre ++ ed :: post /\ Stream.progress pre /\ Stream.terminal (fst ed) = true.
Proof.
  induction evs as [|[ev d] r IH]; intros ed H; cbn in H; [discriminate|].
  destruct (Stream.terminal ev) eqn:T.
  - injection H as <-. exists [], r. repeat split; [constructor | exact T].
  - destruct (IH ed H) as (pre & post & -> & Hp & Ht).
    exists ((ev, d) :: pre), post.
    repeat split; [constructor; [exact T | exact Hp] | exact Ht].
Qed.

Lemma extract_by_events text :
  App.extractCompleteEventData text =
  match Stream.first_terminal (Stream.data_events text) with
  | Some ed => Stream.outcome_of ed
  | None => Threw (Error (u "Unexpected SSE response: " ++ substring_to 300 text))
  end.
Proof.
  unfold App.extractCompleteEventData, Stream.data_events.
  rewrite Extractor.scan_lines_first_terminal.
  destruct (Stream.first_terminal _); reflexivity.
Qed.

(** X1. A value is returned only from a [complete] data line: when either
    copy of the extractor returns [v], the stream's first terminal data
    line is a [complete] one and [v] is the decoded text of that line.
    Nothing is ever returned from an [error] event or from a stream
    without a terminal event. *)
Theorem returned_value_is_complete_payload (text : jsstring) (v : JSValue) :
  App.extractCompleteEventData text = Returned v \/
  HuggingFace.extractCompleteEventData text = Returned v ->
  exists pre d post,
    Stream.data_events text = pre ++ (Stream.complete, d) :: post /\
    Stream.progress pre /\
    JSON.parse d = Some v.
Proof.
  intros H.
  assert (H' : App.extractCompleteEventData text = Returned v).
  { destruct H as [H|H]; [exact H | rewrite Extractor.extract_same; exact H]. }
  clear H. rewrite extract_by_events in H'.
  destruct (Stream.first_terminal (Stream.data_events text)) as [[ev d]|] eqn:F;
    [|discriminate].
  destruct (first_terminal_split _ _ F) as (pre & post & E & Hp & _).
  unfold Stream.outcome_of in H'. cbn [fst snd] in H'.
  destruct (JSString.eqb ev Stream.complete) eqn:C; [|discriminate].
  apply Extractor.jsstring_eqb_eq in C. subst ev.
  destruct (JSON.parse d) as [v'|] eqn:P; [|discriminate].
  injection H' as <-.
  exists pre, d, post. repeat split; assumption.
Qed.

Lemma returned_value_is_complete_payload_witness :
  exists pre d post,
    Stream.data_events Examples.progress_then_complete
      = pre ++ (Stream.complete, d) :: post /\
    Stream.progress pre /\
    JSON.parse d = Some (JArray [JObject [(u "url", JString (u "https://x/y.png"))];
                                 JNumber (Number.of_Z 42)]).
Proof.
  apply (returned_value_is_complete_payload Examples.progress_then_complete).
  left. vm_compute. reflexivity.
Defined.

Lemma data_lines_no_event lines : forall current,
  Forall (fun line => startsWith (u "event:") line = false) lines ->
  Forall (fun ed => fst ed = current) (Stream.data_lines lines current).
Proof.
  induction lines as [|line rest IH]; intros current H; cbn [Stream.data_lines].
  - constructor.
  - inversion H as [|? ? Hl Hr]; subst. rewrite Hl.
    destruct (startsWith (u "data:") line).
    + constructor; [reflexivity | apply IH; exact Hr].
    + apply IH; exact Hr.
Qed.

(** X2. Data lines count only under an event declaration: a stream none
    of whose lines starts with [event:] is never accepted, whatever data
    lines it carries; the extractor throws the protocol error that shows
    the first 300 code units. *)
Theorem no_event_line_protocol_error (text : jsstring) :
  Forall (fun line => startsWith (u "event:") line = false) (split 10 text) ->
  App.extractCompleteEventData text
    = Threw (Error (u "Unexpected SSE response: " ++ substring_to 300 text)) /\
  HuggingFace.extractCompleteEventData text
    = Threw (Error (u "Unexpected SSE response: " ++ substring_to 300 text)).
Proof.
  intros H.
  assert (E : App.extractCompleteEventData text
              = Threw (Error (u "Unexpected SSE response: " ++ substring_to 300 text))).
  { rewrite extract_by_events.
    rewrite Extractor.first_terminal_progress; [reflexivity|].
    unfold Stream.progress, Stream.data_events.
    eapply Forall_impl; [|apply data_lines_no_event; exact H].
    intros [ev d] Hev. cbn in Hev |- *. subst ev. reflexivity. }
  split; [exact E | rewrite <- Extractor.extract_same; exact E].
Qed.

Lemma no_event_line_protocol_error_witness :
  App.extractCompleteEventData (Examples.text_of ["data: [1]"; "data: {}"]%string)
    = Threw (Error (u "Unexpected SSE response: "
                      ++ Examples.text_of ["data: [1]"; "data: {}"]%string)).
Proof.
  apply (no_event_line_protocol_error (Examples.text_of ["data: [1]"; "data: {}"]%string)).
  vm_compute. repeat constructor.
Defined.

(** *** Lines *)

Lemma split_line x : forall rest,
  ~ In 10%N x -> split 10 (x ++ 10%N :: rest) = x :: split 10 rest.
Proof.
  induction x as [|c x IH]; intros rest H.
  - reflexivity.
  - cbn [app split].
    destruct (N.eqb c 10) eqn:E.
    + apply N.eqb_eq in E. exfalso. apply H. left. exact E.
    + rewrite IH; [reflexivity|]. intros I. apply H. right. exact I.
Qed.

Lemma split_last x : ~ In 10%N x -> split 10 x = [x].
Proof.
  induction x as [|c x IH]; intros H.
  - reflexivity.
  - cbn [split].
    destruct (N.eqb c 10) eqn:E.
    + apply N.eqb_eq in E. exfalso. apply H. left. exact E.
    + rewrite IH; [reflexivity|]. intros I. apply H. right. exact I.
Qed.

Lemma data_lines_head x L1 L2 :
  (forall cur, Stream.data_lines L1 cur = Stream.data_lines L2 cur) ->
  forall cur, Stream.data_lines (x :: L1) cur = Stream.data_lines (x :: L2) cur.
Proof.
  intros H cur. cbn [Stream.data_lines].
  destruct (startsWith (u "event:") x); [apply H|].
  destruct (startsWith (u "data:") x); [f_equal; apply H | apply H].
Qed.

Lemma data_lines_join ls :
  Forall (fun l => ~ In 10%N l) ls ->
  forall cur, Stream.data_lines (split 10 (join [10%N] ls)) cur = Stream.data_lines ls cur.
Proof.
  induction ls as [|x r IH]; intros H cur.
  - reflexivity.
  - inversion H as [|? ? Hx Hr]; subst.
    destruct r as [|y r'].
    + cbn [join]. rewrite split_last by exact Hx. reflexivity.
    + change (join [10%N] (x :: y :: r')) with (x ++ 10%N :: join [10%N] (y :: r')).
      rewrite split_line by exact Hx.
      apply data_lines_head. intros c. apply IH. exact Hr.
Qed.

Lemma data_lines_skip before junk after :
  startsWith (u "event:") junk = false ->
  startsWith (u "data:") junk = false ->
  forall cur,
    Stream.data_lines (before ++ junk :: after) cur
    = Stream.data_lines (before ++ after) cur.
Proof.
  intros He Hd. induction before as [|x r IH]; intros cur.
  - cbn [app Stream.data_lines]. rewrite He, Hd. reflexivity.
  - cbn [app]. apply data_lines_head. exact IH.
Qed.

Lemma extract_same_events t1 t2 :
  Stream.data_events t1 = Stream.data_events t2 ->
  forall ed, Stream.first_terminal (Stream.data_events t2) = Some ed ->
  App.extractCompleteEventData t1 = App.extractCompleteEventData t2 /\
  HuggingFace.extractCompleteEventData t1 = HuggingFace.extractCompleteEventData t2.
Proof.
  intros E ed F.
  assert (A : App.extractCompleteEventData t1 = App.extractCompleteEventData t2).
  { rewrite !extract_by_events, E, F. reflexivity. }
  split; [exact A | rewrite <- !Extractor.extract_same; exact A].
Qed.

(** X3. Lines that start with neither [event:] nor [data:] (blank lines,
    comment lines, [id:] lines) are ignored wherever they stand: a stream
    with such a line has the same data events as the stream without it,
    and the same outcome whenever a terminal event decides the stream. *)
Theorem other_lines_are_ignored (before after : list jsstring) (junk : jsstring) :
  Forall (fun l => ~ In 10%N l) (before ++ junk :: after) ->
  startsWith (u "event:") junk = false ->
  startsWith (u "data:") junk = false ->
  let with_line := join [10%N] (before ++ junk :: after) in
  let without := join [10%N] (before ++ after) in
  Stream.data_events with_line = Stream.data_events without /\
  forall ed,
    Stream.first_terminal (Stream.data_events without) = Some ed ->
    App.extractCompleteEventData with_line = App.extractCompleteEventData without /\
    HuggingFace.extractCompleteEventData with_line
      = HuggingFace.extractCompleteEventData without.
Proof.
  intros H He Hd with_line without.
  assert (E : Stream.data_events with_line = Stream.data_events without).
  { unfold Stream.data_events, with_line, without.
    rewrite data_lines_join by exact H.
    rewrite data_lines_join.
    - apply data_lines_skip; assumption.
    - apply Forall_app in H. destruct H as [Hb Ha].
      apply Forall_app. split; [exact Hb | inversion Ha; assumption]. }
  split; [exact E | apply extract_same_events; exact E].
Qed.

Lemma other_lines_are_ignored_witness :
  Stream.data_events (Examples.text_of ["event: complete"; ": keep-alive"; "data: [1]"]%string)
    = Stream.data_events (Examples.text_of ["event: complete"; "data: [1]"]%string) /\
  App.extractCompleteEventData
      (Examples.text_of ["event: complete"; ": keep-alive"; "data: [1]"]%string)
    = Returned (JArray [JNumber (Number.of_Z 1)]).
Proof.
  destruct (other_lines_are_ignored [u "event: complete"] [u "data: [1]"] (u ": keep-alive"))
    as [E F].
  - repeat constructor; vm_compute; intuition discriminate.
  - reflexivity.
  - reflexivity.
  - split; [exact E|].
    destruct (F (Stream.complete, u "[1]") eq_refl) as [A _].
    etransitivity; [exact A | vm_compute; reflexivity].
Defined.

(** *** Carriage returns *)

Lemma trimStart_snoc s c :
  is_trim_space c = true ->
  trimStart (s ++ [c]) = match trimStart s with [] => [] | t => t ++ [c] end.
Proof.
  intros Hc. induction s as [|a s IH].
  - cbn. rewrite Hc. reflexivity.
  - cbn [app trimStart]. destruct (is_trim_space a); [exact IH | reflexivity].
Qed.

Lemma trim_snoc s c : is_trim_space c = true -> trim (s ++ [c]) = trim s.
Proof.
  intros Hc. unfold trim. rewrite trimStart_snoc by exact Hc.
  destruct (trimStart s) as [|a t] eqn:E; [reflexivity|].
  unfold trimEnd. rewrite rev_app_distr. cbn [rev app trimStart].
  rewrite Hc. reflexivity.
Qed.

Lemma startsWith_snoc p c : ~ In c p ->
  forall s, startsWith p (s ++ [c]) = startsWith p s.
Proof.
  induction p as [|x p IH]; intros H s.
  - destruct s; reflexivity.
  - destruct s as [|y s].
    + cbn. destruct (N.eqb x c) eqn:E; [|reflexivity].
      apply N.eqb_eq in E. exfalso. apply H. left. exact E.
    + cbn [app startsWith]. rewrite IH; [reflexivity|].
      intros I. apply H. right. exact I.
Qed.

Lemma startsWith_length p : forall s,
  startsWith p s = true -> (List.length p <= List.length s)%nat.
Proof.
  induction p as [|x p IH]; intros s H.
  - cbn. lia.
  - destruct s as [|y s]; [discriminate|].
    cbn in H. apply andb_true_iff in H. destruct H as [_ H].
    apply IH in H. cbn. lia.
Qed.

Lemma substring_from_snoc n s c :
  (n <= List.length s)%nat -> substring_from n (s ++ [c]) = substring_from n s ++ [c].
Proof.
  intros H. unfold substring_from. rewrite skipn_app.
  replace (n - List.length s)%nat with 0%nat by lia. reflexivity.
Qed.

Lemma data_lines_cr x rest cur :
  Stream.data_lines ((x ++ [13%N]) :: rest) cur = Stream.data_lines (x :: rest) cur.
Proof.
  cbn [Stream.data_lines].
  rewrite (startsWith_snoc (u "event:") 13) by (vm_compute; intuition discriminate).
  rewrite (startsWith_snoc (u "data:") 13) by (vm_compute; intuition discriminate).
  destruct (startsWith (u "event:") x) eqn:He.
  - apply startsWith_length in He.
    rewrite substring_from_snoc by exact He.
    rewrite trim_snoc by reflexivity. reflexivity.
  - destruct (startsWith (u "data:") x) eqn:Hd; [|reflexivity].
    apply startsWith_length in Hd.
    rewrite substring_from_snoc by exact Hd.
    rewrite trim_snoc by reflexivity. reflexivity.
Qed.

Lemma data_lines_join_crlf ls :
  Forall (fun l => ~ In 10%N l) ls ->
  forall cur,
    Stream.data_lines (split 10 (join [13%N; 10%N] ls)) cur = Stream.data_lines ls cur.
Proof.
  induction ls as [|x r IH]; intros H cur.
  - reflexivity.
  - inversion H as [|? ? Hx Hr]; subst.
    destruct r as [|y r'].
    + cbn [join]. rewrite split_last by exact Hx. reflexivity.
    + change (join [13%N; 10%N] (x :: y :: r'))
        with (x ++ [13%N; 10%N] ++ join [13%N; 10%N] (y :: r')).
      replace (x ++ [13%N; 10%N] ++ join [13%N; 10%N] (y :: r'))
        with ((x ++ [13%N]) ++ 10%N :: join [13%N; 10%N] (y :: r'))
        by (rewrite <- app_assoc; reflexivity).
      rewrite split_line.
      * rewrite data_lines_cr. apply data_lines_head. intros c. apply IH. exact Hr.
      * intros I. apply in_app_or in I. destruct I as [I|[I|[]]]; [exact (Hx I)|discriminate].
Qed.

(** X4. CRLF line ends are tolerated: a stream whose lines are joined by
    CR LF has the same data events as the same lines joined by LF, and
    the same outcome whenever a terminal event decides the stream. *)
Theorem crlf_line_ends_tolerated (lines : list jsstring) :
  Forall (fun l => ~ In 10%N l) lines ->
  let crlf := join [13%N; 10%N] lines in
  let lf := join [10%N] lines in
  Stream.data_events crlf = Stream.data_events lf /\
  forall ed,
    Stream.first_terminal (Stream.data_events lf) = Some ed ->
    App.extractCompleteEventData crlf = App.extractCompleteEventData lf /\
    HuggingFace.extractCompleteEventData crlf = HuggingFace.extractCompleteEventData lf.
Proof.
  intros H crlf lf.
  assert (E : Stream.data_events crlf = Stream.data_events lf).
  { unfold Stream.data_events, crlf, lf.
    rewrite data_lines_join_crlf by exact H.
    rewrite data_lines_join by exact H. reflexivity. }
  split; [exact E | apply extract_same_events; exact E].
Qed.

Lemma crlf_line_ends_tolerated_witness :
  App.extractCompleteEventData
    (join [13%N; 10%N] [u "event: heartbeat"; u "data: null"; u "event: complete";
                        u "data: [1]"; []])
  = Returned (JArray [JNumber (Number.of_Z 1)]).
Proof.
  destruct (crlf_line_ends_tolerated
              [u "event: heartbeat"; u "data: null"; u "event: complete"; u "data: [1]"; []])
    as [_ F].
  - repeat constructor; vm_compute; intuition discriminate.
  - destruct (F (Stream.complete, u "[1]") eq_refl) as [A _].
    etransitivity; [exact A | vm_compute; reflexivity].
Defined.

End Framing.


(** * The job client: [callGradioApi] *)

Module JobClient.
Import HuggingFace Trace.

Lemma requests_bind {A B : Type} (w : World) (p : Prog A) (f : A -> Prog B) :
  requests w (bind p f) =
  requests w p ++ match run w p with
                  | Returned a => requests w (f a)
                  | Threw _ => []
                  end.
Proof.
  induction p as [a|t|k IH|rq k IH]; cbn [bind requests run app].
  - reflexivity.
  - reflexivity.
  - apply IH.
  - f_equal. apply IH.
Qed.

Lemma requests_lift {A : Type} (w : World) (o : Outcome A) : requests w (lift o) = [].
Proof. destruct o; reflexivity. Qed.

Lemma run_await (w : World) (rq : FetchRequest) :
  run w (await_fetch rq) =
  match fetch w rq with
  | FetchRejected t => Threw t
  | FetchResponse status text => Returned (status, text)
  end.
Proof. cbn [await_fetch run]. destruct (fetch w rq); reflexivity. Qed.

Lemma requests_await (w : World) (rq : FetchRequest) :
  requests w (await_fetch rq) = [rq].
Proof. cbn [await_fetch requests]. destruct (fetch w rq); reflexivity. Qed.

Lemma requests_fetch {A : Type} (w : World) (rq : FetchRequest)
    (f : N * jsstring -> Prog A) :
  requests w (bind (await_fetch rq) f) =
  rq :: match fetch w rq with
        | FetchRejected _ => []
        | FetchResponse status text => requests w (f (status, text))
        end.
Proof. cbn [await_fetch bind requests]. destruct (fetch w rq); reflexivity. Qed.

Lemma run_fetch {A : Type} (w : World) (rq : FetchRequest) (f : N * jsstring -> Prog A) :
  run w (bind (await_fetch rq) f) =
  match fetch w rq with
  | FetchRejected t => Threw t
  | FetchResponse status text => run w (f (status, text))
  end.
Proof. cbn [await_fetch bind run]. destruct (fetch w rq); reflexivity. Qed.

(** X5. A submission that is answered with a status outside 200..299 ends
    the job: the result is never requested, and the error thrown carries
    the status and at most the first 100 code units of the response
    body. *)
Theorem failed_submission_stops_job (w : World) (baseUrl : Table.Slot jsstring)
    (endpoint : jsstring) (data : list (option JSValue)) (hfToken : option jsstring)
    (rq : FetchRequest) (rest : list FetchRequest) (status : N) (text : jsstring) :
  requests w (callGradioApi baseUrl endpoint data hfToken) = rq :: rest ->
  fetch w rq = FetchResponse status text ->
  ok status = false ->
  rest = [] /\
  run w (callGradioApi baseUrl endpoint data hfToken)
    = Threw (Error (u "Queue request failed: " ++ decimal (Z.of_N status)
                      ++ u " - " ++ substring_to 100 text)) /\
  (List.length (substring_to 100 text) <= 100)%nat.
Proof.
  unfold callGradioApi. rewrite requests_fetch, run_fetch.
  intros H F K.
  pose proof (f_equal (fun l => hd rq l) H) as E. cbn [hd] in E. subst rq.
  apply (f_equal (@tl _)) in H. cbn [tl] in H.
  rewrite F in H |- *. rewrite K in H |- *. cbn [negb requests] in H |- *.
  repeat split; [symmetry; exact H | apply firstn_le_length].
Qed.

Lemma failed_submission_stops_job_witness :
  run {| random := Worlds.one_half;
         fetch := fun _ => FetchResponse 503 (u "Service Unavailable") |}
      (callGradioApi (Table.Value (u "https://turbo.example")) (u "generate_image")
         [Some (JString (u "cat"))] None)
  = Threw (Error (u "Queue request failed: 503 - Service Unavailable")).
Proof.
  set (w := {| random := Worlds.one_half;
               fetch := fun _ => FetchResponse 503 (u "Service Unavailable") |}).
  destruct (failed_submission_stops_job w (Table.Value (u "https://turbo.example"))
              (u "generate_image") [Some (JString (u "cat"))] None
              {| fr_method := u "POST"; fr_base := Table.Value (u "https://turbo.example");
                 fr_path := u "/gradio_api/call/generate_image";
                 fr_headers := [(u "Content-Type", u "application/json")];
                 fr_body := Some (Examples.json "{'data':['cat']}") |}
              [] 503 (u "Service Unavailable")) as (_ & R & _).
  - reflexivity.
  - reflexivity.
  - reflexivity.
  - exact R.
Defined.

(** X6. A submission that is accepted but whose decoded answer carries
    no truthy [event_id] ends the job: the result is never requested.
    The job throws the error 'No event_id returned'; only when the
    answer is the value [null] it throws the TypeError of reading
    [event_id] of [null] instead. *)
Theorem missing_event_id_stops_job (w : World) (baseUrl : Table.Slot jsstring)
    (endpoint : jsstring) (data : list (option JSValue)) (hfToken : option jsstring)
    (rq : FetchRequest) (rest : list FetchRequest) (status : N) (text : jsstring)
    (queueData : JSValue) :
  requests w (callGradioApi baseUrl endpoint data hfToken) = rq :: rest ->
  fetch w rq = FetchResponse status text ->
  ok status = true ->
  JSON.parse text = Some queueData ->
  truthy (field queueData (u "event_id")) = false ->
  rest = [] /\
  run w (callGradioApi baseUrl endpoint data hfToken)
    = Threw (match queueData with
             | JNull => TypeError
             | _ => Error (u "No event_id returned")
             end).
Proof.
  unfold callGradioApi. rewrite requests_fetch, run_fetch.
  intros H F K P T.
  pose proof (f_equal (fun l => hd rq l) H) as E. cbn [hd] in E. subst rq.
  apply (f_equal (@tl _)) in H. cbn [tl] in H.
  rewrite F in H |- *. rewrite K in H |- *. cbn [negb] in H |- *.
  rewrite P in H |- *.
  destruct queueData;
    try (rewrite T in H |- *); cbn [negb requests] in H |- *;
    (split; [symmetry; exact H | reflexivity]).
Qed.

Lemma missing_event_id_stops_job_witness :
  run {| random := Worlds.one_half;
         fetch := fun _ => FetchResponse 200 (Examples.json "{'event_id':''}") |}
      (callGradioApi (Table.Value (u "https://turbo.example")) (u "generate_image")
         [Some (JString (u "cat"))] None)
  = Threw (Error (u "No event_id returned")).
Proof.
  set (w := {| random := Worlds.one_half;
               fetch := fun _ => FetchResponse 200 (Examples.json "{'event_id':''}") |}).
  destruct (missing_event_id_stops_job w (Table.Value (u "https://turbo.example"))
              (u "generate_image") [Some (JString (u "cat"))] None
              {| fr_method := u "POST"; fr_base := Table.Value (u "https://turbo.example");
                 fr_path := u "/gradio_api/call/generate_image";
                 fr_headers := [(u "Content-Type", u "application/json")];
                 fr_body := Some (Examples.json "{'data':['cat']}") |}
              [] 200 (Examples.json "{'event_id':''}")
              (JObject [(u "event_id", JString [])])) as (_ & R).
  - reflexivity.
  - reflexivity.
  - reflexivity.
  - reflexivity.
  - reflexivity.
  - exact R.
Defined.

(** X7. An accepted job whose answer carries a truthy [event_id] that
    has a string form is followed by exactly one more request: a GET to
    the submission's URL extended by [/] and the event id, with the same
    base URL and headers and no body. Whatever status that second
    response has, its body is handed to the extractor, whose outcome is
    the job's; a rejected second request throws what [fetch] threw. A
    truthy [event_id] without a string form (an object with an own
    [toString] property) makes the URL template throw a TypeError, and
    no second request is sent. *)
Theorem accepted_job_reads_event_stream (w : World) (baseUrl : Table.Slot jsstring)
    (endpoint : jsstring) (data : list (option JSValue)) (hfToken : option jsstring)
    (rq : FetchRequest) (rest : list FetchRequest) (status : N) (text : jsstring)
    (queueData : JSValue) :
  requests w (callGradioApi baseUrl endpoint data hfToken) = rq :: rest ->
  fetch w rq = FetchResponse status text ->
  ok status = true ->
  JSON.parse text = Some queueData ->
  truthy (field queueData (u "event_id")) = true ->
  match ToString_opt (field queueData (u "event_id")) with
  | Some id =>
      exists rq2,
        rest = [rq2] /\
        fr_method rq2 = u "GET" /\
        fr_base rq2 = fr_base rq /\
        fr_path rq2 = fr_path rq ++ u "/" ++ id /\
        fr_headers rq2 = fr_headers rq /\
        fr_body rq2 = None /\
        run w (callGradioApi baseUrl endpoint data hfToken)
          = match fetch w rq2 with
            | FetchRejected t => Threw t
            | FetchResponse _ stream => extractCompleteEventData stream
            end
  | None =>
      rest = [] /\
      run w (callGradioApi baseUrl endpoint data hfToken) = Threw TypeError
  end.
Proof.
  unfold callGradioApi. rewrite requests_fetch, run_fetch.
  intros H F K P T.
  pose proof (f_equal (fun l => hd rq l) H) as E. cbn [hd] in E. subst rq.
  apply (f_equal (@tl _)) in H. cbn [tl] in H.
  rewrite F in H |- *. rewrite K in H |- *. cbn [negb] in H |- *.
  rewrite P in H |- *.
  destruct queueData as [| | | | |ps]; try (cbv in T; discriminate T).
  rewrite T in H |- *. cbn [negb] in H |- *.
  destruct (ToString_opt (field (JObject ps) (u "event_id"))) as [id|];
    [|split; [symmetry; exact H | reflexivity]].
  rewrite requests_fetch in H. rewrite run_fetch. subst rest.
  eexists. split.
  - f_equal.
    match goal with
    | |- context [match fetch w ?r with _ => _ end] => destruct (fetch w r)
    end; [reflexivity | apply requests_lift].
  - cbn [fr_method fr_base fr_path fr_headers fr_body].
    repeat split.
    match goal with
    | |- context [match fetch w ?r with _ => _ end] => destruct (fetch w r)
    end; [reflexivity | apply Provider.run_lift].
Qed.

Lemma accepted_job_reads_event_stream_witness :
  run (Worlds.stub_world Worlds.png_stream)
      (callGradioApi (Table.Value (u "https://turbo.example")) (u "generate_image")
         [Some (JString (u "cat"))] None)
  = extractCompleteEventData Worlds.png_stream.
Proof.
  destruct (accepted_job_reads_event_stream (Worlds.stub_world Worlds.png_stream)
              (Table.Value (u "https://turbo.example"))
              (u "generate_image") [Some (JString (u "cat"))] None
              {| fr_method := u "POST"; fr_base := Table.Value (u "https://turbo.example");
                 fr_path := u "/gradio_api/call/generate_image";
                 fr_headers := [(u "Content-Type", u "application/json")];
                 fr_body := Some (Examples.json "{'data':['cat']}") |}
              [{| fr_method := u "GET"; fr_base := Table.Value (u "https://turbo.example");
                  fr_path := u "/gradio_api/call/generate_image/job1";
                  fr_headers := [(u "Content-Type", u "application/json")];
                  fr_body := None |}]
              200 (Examples.json "{'event_id':'job1'}")
              (JObject [(u "event_id", JString (u "job1"))]))
    as (rq2 & E & _ & _ & _ & _ & _ & R).
  - reflexivity.
  - reflexivity.
  - reflexivity.
  - reflexivity.
  - reflexivity.
  - injection E as <-. exact R.
Defined.

Lemma unconvertible_event_id_example :
  let w := {| random := Worlds.one_half;
              fetch := fun _ => FetchResponse 200
                                  (Examples.json "{'event_id':{'toString':1}}") |} in
  requests w (callGradioApi (Table.Value (u "https://turbo.example")) (u "generate_image")
                [Some (JString (u "cat"))] None)
  = [{| fr_method := u "POST"; fr_base := Table.Value (u "https://turbo.example");
        fr_path := u "/gradio_api/call/generate_image";
        fr_headers := [(u "Content-Type", u "application/json")];
        fr_body := Some (Examples.json "{'data':['cat']}") |}] /\
  run w (callGradioApi (Table.Value (u "https://turbo.example")) (u "generate_image")
           [Some (JString (u "cat"))] None)
  = Threw TypeError.
Proof.
  split; vm_compute; reflexivity.
Qed.

Lemma headers_of_job (hfToken : option jsstring) (v : jsstring) :
  In (u "Authorization", v)
     ((u "Content-Type", u "application/json") ::
      match hfToken with
      | Some ((_ :: _) as t) => [(u "Authorization", u "Bearer " ++ t)]
      | _ => []
      end)
  <-> exists t, hfToken = Some t /\ t <> [] /\ v = u "Bearer " ++ t.
Proof.
  split.
  - intros [E|I]; [vm_compute in E; discriminate E|].
    destruct hfToken as [[|c t]|]; try contradiction.
    destruct I as [E|[]]. exists (c :: t).
    split; [reflexivity|]. split; [discriminate|].
    injection E as <-. reflexivity.
  - intros (t & -> & Ht & ->). destruct t as [|c t]; [contradiction|].
    right. left. reflexivity.
Qed.

Lemma job_requests (w : World) (baseUrl : Table.Slot jsstring)
    (endpoint : jsstring) (data : list (option JSValue)) (hfToken : option jsstring) :
  (List.length (requests w (callGradioApi baseUrl endpoint data hfToken)) <= 2)%nat /\
  forall rq,
    In rq (requests w (callGradioApi baseUrl endpoint data hfToken)) ->
    fr_base rq = baseUrl /\
    In (u "Content-Type", u "application/json") (fr_headers rq) /\
    forall v, In (u "Authorization", v) (fr_headers rq)
              <-> exists t, hfToken = Some t /\ t <> [] /\ v = u "Bearer " ++ t.
Proof.
  unfold callGradioApi. rewrite requests_fetch.
  assert (G : forall rq' l,
             (List.length l <= 1)%nat ->
             (forall rq, In rq l ->
                fr_base rq = baseUrl /\
                fr_headers rq = fr_headers rq') ->
             fr_base rq' = baseUrl ->
             fr_headers rq' = (u "Content-Type", u "application/json") ::
                match hfToken with
                | Some ((_ :: _) as t) => [(u "Authorization", u "Bearer " ++ t)]
                | _ => []
                end ->
             (List.length (rq' :: l) <= 2)%nat /\
             forall rq, In rq (rq' :: l) ->
               fr_base rq = baseUrl /\
               In (u "Content-Type", u "application/json") (fr_headers rq) /\
               forall v, In (u "Authorization", v) (fr_headers rq)
                 <-> exists t, hfToken = Some t /\ t <> [] /\ v = u "Bearer " ++ t).
  { intros rq' l Hl Hin Hb Hh. split; [cbn [List.length]; lia|].
    intros rq [<-|I].
    - split; [exact Hb|]. rewrite Hh. split; [left; reflexivity|].
      intros v. apply headers_of_job.
    - destruct (Hin rq I) as [B Hs]. split; [exact B|]. rewrite Hs, Hh.
      split; [left; reflexivity|]. intros v. apply headers_of_job. }
  apply G; [| |reflexivity|reflexivity].
  - destruct (fetch w _) as [t|status text]; [cbn; lia|].
    destruct (negb (ok status)); [cbn; lia|].
    destruct (JSON.parse text) as [[]|]; try (cbn; lia);
      (destruct (negb (truthy _)); [cbn; lia|]);
      (destruct (ToString_opt _); [|cbn; lia]);
      rewrite requests_fetch;
      (destruct (fetch w _); [cbn; lia | rewrite requests_lift; cbn; lia]).
  - intros rq.
    destruct (fetch w _) as [t|status text]; [intros []|].
    destruct (negb (ok status)); [intros []|].
    destruct (JSON.parse text) as [[]|]; try (intros []);
      (destruct (negb (truthy _)); [intros []|]);
      (destruct (ToString_opt _); [|intros []]);
      rewrite requests_fetch;
      (destruct (fetch w _); [|rewrite requests_lift]);
      (intros [<-|[]]; split; reflexivity).
Qed.

(** X8. Every request of a job goes to the base URL the job was given and
    carries the JSON content type; it carries an [Authorization] header
    exactly when a non-empty token was given, and then with the value
    [Bearer <token>]. A job never sends more than two requests. *)
Theorem job_requests_carry_token (w : World) (baseUrl : Table.Slot jsstring)
    (endpoint : jsstring) (data : list (option JSValue)) (hfToken : option jsstring) :
  (List.length (requests w (callGradioApi baseUrl endpoint data hfToken)) <= 2)%nat /\
  forall rq,
    In rq (requests w (callGradioApi baseUrl endpoint data hfToken)) ->
    fr_base rq = baseUrl /\
    In (u "Content-Type", u "application/json") (fr_headers rq) /\
    forall v, In (u "Authorization", v) (fr_headers rq)
              <-> exists t, hfToken = Some t /\ t <> [] /\ v = u "Bearer " ++ t.
Proof. exact (job_requests w baseUrl endpoint data hfToken). Qed.

Lemma job_requests_carry_token_witness :
  let w := Worlds.stub_world Worlds.png_stream in
  let rq := {| fr_method := u "GET"; fr_base := Table.Value (u "https://turbo.example");
               fr_path := u "/gradio_api/call/generate_image/job1";
               fr_headers := [(u "Content-Type", u "application/json");
                              (u "Authorization", u "Bearer hf_abc")];
               fr_body := None |} in
  In rq (requests w (callGradioApi (Table.Value (u "https://turbo.example"))
                       (u "generate_image") [Some (JString (u "cat"))]
                       (Some (u "hf_abc")))) /\
  fr_base rq = Table.Value (u "https://turbo.example") /\
  (exists t, Some (u "hf_abc") = Some t /\ t <> [] /\ u "Bearer hf_abc" = u "Bearer " ++ t).
Proof.
  intros w rq.
  assert (Hin : In rq (requests w (callGradioApi (Table.Value (u "https://turbo.example"))
                       (u "generate_image") [Some (JString (u "cat"))]
                       (Some (u "hf_abc"))))).
  { right. left. reflexivity. }
  split; [exact Hin|].
  destruct (job_requests_carry_token w (Table.Value (u "https://turbo.example"))
              (u "generate_image") [Some (JString (u "cat"))] (Some (u "hf_abc")))
    as [_ H].
  destruct (H rq Hin) as (B & _ & A).
  split; [exact B|].
  apply (A (u "Bearer hf_abc")). right. left. reflexivity.
Defined.

End JobClient.

(** * The HuggingFace adapter beyond its result *)

Module Adapter.
Import HuggingFace Trace.

Lemma job_client_copies (w : World)
    (baseUrl : Table.Slot jsstring) (endpoint : jsstring)
    (data : list (option JSValue)) (hfToken : option jsstring) :
  requests w (Routes.callGradioApi baseUrl endpoint data hfToken)
    = requests w (callGradioApi baseUrl endpoint data hfToken) /\
  forall rq rest,
    requests w (callGradioApi baseUrl endpoint data hfToken) = rq :: rest ->
    match fetch w rq with
    | FetchResponse status text =>
        if ok status then
          run w (Routes.callGradioApi baseUrl endpoint data hfToken)
            = run w (callGradioApi baseUrl endpoint data hfToken)
        else
          run w (Routes.callGradioApi baseUrl endpoint data hfToken)
            = Threw (Error (u "Queue request failed: " ++ decimal (Z.of_N status))) /\
          run w (callGradioApi baseUrl endpoint data hfToken)
            = Threw (Error (u "Queue request failed: " ++ decimal (Z.of_N status)
                              ++ u " - " ++ substring_to 100 text))
    | FetchRejected t =>
        run w (Routes.callGradioApi baseUrl endpoint data hfToken) = Threw t /\
        run w (callGradioApi baseUrl endpoint data hfToken) = Threw t
    end.
Proof.
  unfold Routes.callGradioApi, callGradioApi.
  rewrite !JobClient.requests_fetch, !JobClient.run_fetch.
  split.
  - f_equal.
    destruct (fetch w _) as [t|status text]; [reflexivity|].
    destruct (negb (ok status)); [reflexivity|].
    destruct (JSON.parse text) as [[]|]; try reflexivity;
      (destruct (negb (truthy _)); [reflexivity|]);
      (destruct (ToString_opt _); [|reflexivity]);
      rewrite !JobClient.requests_fetch; f_equal;
      (destruct (fetch w _); [reflexivity|]);
      rewrite !JobClient.requests_lift; reflexivity.
  - intros rq rest H.
    pose proof (f_equal (fun l => hd rq l) H) as E. cbn [hd] in E. subst rq. clear H.
    destruct (fetch w _) as [t|status text]; [split; reflexivity|].
    destruct (ok status); cbn [negb]; [|split; reflexivity].
    destruct (JSON.parse text) as [[]|]; try reflexivity;
      (destruct (negb (truthy _)); [reflexivity|]);
      (destruct (ToString_opt _); [|reflexivity]);
      rewrite !JobClient.run_fetch;
      (destruct (fetch w _); [reflexivity|]);
      rewrite !Provider.run_lift; apply Extractor.extract_same.
Qed.

(** X9. The two copies of [callGradioApi] send the same requests. They
    have the same outcome whenever the submission is answered with a
    status in 200..299 or is rejected; on any other status both throw,
    the copy of [app.ts] with the status alone and the adapter's copy
    with the status followed by the start of the response body. *)
Theorem job_client_copies_differ_in_one_message (w : World)
    (baseUrl : Table.Slot jsstring) (endpoint : jsstring)
    (data : list (option JSValue)) (hfToken : option jsstring) :
  requests w (Routes.callGradioApi baseUrl endpoint data hfToken)
    = requests w (callGradioApi baseUrl endpoint data hfToken) /\
  forall rq rest,
    requests w (callGradioApi baseUrl endpoint data hfToken) = rq :: rest ->
    match fetch w rq with
    | FetchResponse status text =>
        if ok status then
          run w (Routes.callGradioApi baseUrl endpoint data hfToken)
            = run w (callGradioApi baseUrl endpoint data hfToken)
        else
          run w (Routes.callGradioApi baseUrl endpoint data hfToken)
            = Threw (Error (u "Queue request failed: " ++ decimal (Z.of_N status))) /\
          run w (callGradioApi baseUrl endpoint data hfToken)
            = Threw (Error (u "Queue request failed: " ++ decimal (Z.of_N status)
                              ++ u " - " ++ substring_to 100 text))
    | FetchRejected t =>
        run w (Routes.callGradioApi baseUrl endpoint data hfToken) = Threw t /\
        run w (callGradioApi baseUrl endpoint data hfToken) = Threw t
    end.
Proof. exact (job_client_copies w baseUrl endpoint data hfToken). Qed.

Lemma job_client_copies_differ_in_one_message_witness :
  let w := {| random := Worlds.one_half;
              fetch := fun _ => FetchResponse 503 (u "Service Unavailable") |} in
  run w (Routes.callGradioApi (Table.Value (u "https://up.example")) (u "realesrgan")
           [Some (JBool false)] None)
    = Threw (Error (u "Queue request failed: 503")) /\
  run w (callGradioApi (Table.Value (u "https://up.example")) (u "realesrgan")
           [Some (JBool false)] None)
    = Threw (Error (u "Queue request failed: 503 - Service Unavailable")).
Proof.
  intros w.
  destruct (job_client_copies_differ_in_one_message w
              (Table.Value (u "https://up.example")) (u "realesrgan")
              [Some (JBool false)] None) as [_ H].
  exact (H {| fr_method := u "POST"; fr_base := Table.Value (u "https://up.example");
              fr_path := u "/gradio_api/call/realesrgan";
              fr_headers := [(u "Content-Type", u "application/json")];
              fr_body := Some (Examples.json "{'data':[false]}") |} [] eq_refl).
Defined.

(** X10. Whatever the model, the payload sent to its space has six
    positional arguments, the prompt first; it contains the seed in
    force, and a step count that is the request's when it gives one and
    else the model's default (9, 8 or 24), never an absent value. *)
Theorem every_model_payload_has_seed_and_steps (key : jsstring) (c : ModelConfig)
    (request : ProviderGenerateRequest) (seed : option JSValue) :
  In (key, c) MODEL_CONFIGS ->
  List.length (buildData c request seed) = 6%nat /\
  nth_error (buildData c request seed) 0 = Some (prompt request) /\
  In seed (buildData c request seed) /\
  exists d, In d [9; 8; 24]%Z /\
            In (nullish (steps request) (num d)) (buildData c request seed) /\
            nullish (steps request) (num d) <> None /\
            nullish (steps request) (num d) <> Some JNull.
Proof.
  intros H.
  assert (N : forall d, nullish (steps request) (num d) <> None /\
                        nullish (steps request) (num d) <> Some JNull).
  { intros d. unfold nullish, num.
    destruct (steps request) as [[]|]; split; discriminate. }
  unfold MODEL_CONFIGS in H. cbn [In] in H.
  destruct H as [E|[E|[E|[E|[]]]]];
    apply (f_equal snd) in E; cbn [snd] in E; subst c; cbn [buildData];
    (split; [reflexivity|]); (split; [reflexivity|]);
    (split; [cbn [In]; tauto|]).
  - exists 9%Z. split; [cbn [In]; tauto|]. split; [cbn [In]; tauto | apply N].
  - exists 8%Z. split; [cbn [In]; tauto|]. split; [cbn [In]; tauto | apply N].
  - exists 24%Z. split; [cbn [In]; tauto|]. split; [cbn [In]; tauto | apply N].
  - exists 8%Z. split; [cbn [In]; tauto|]. split; [cbn [In]; tauto | apply N].
Qed.

Lemma every_model_payload_has_seed_and_steps_witness :
  exists c,
    In (u "ovis-image", c) MODEL_CONFIGS /\
    buildData c (Worlds.cat_request "ovis-image" None) (num 7)
      = [Some (JString (u "cat")); num 1024; num 1024; num 7; num 9; num 4] /\
    In (num 7) (buildData c (Worlds.cat_request "ovis-image" None) (num 7)).
Proof.
  eexists. split; [right; right; left; reflexivity|].
  split; [reflexivity|].
  eapply (every_model_payload_has_seed_and_steps (u "ovis-image")).
  right. right. left. reflexivity.
Defined.

(** *** Runs of [generate] *)

Section Generate.

Variable HF_SPACES : list (jsstring * jsstring).

Lemma requests_choose_seed (w : World) (request : ProviderGenerateRequest) :
  requests w (choose_seed request) = [].
Proof.
  unfold choose_seed. destruct (seed request) as [[]|]; reflexivity.
Qed.

Lemma job_same_backend (w1 w2 : World) baseUrl endpoint data hfToken :
  (forall rq, fetch w1 rq = fetch w2 rq) ->
  run w1 (callGradioApi baseUrl endpoint data hfToken)
    = run w2 (callGradioApi baseUrl endpoint data hfToken) /\
  requests w1 (callGradioApi baseUrl endpoint data hfToken)
    = requests w2 (callGradioApi baseUrl endpoint data hfToken).
Proof.
  intros H. unfold callGradioApi.
  rewrite !JobClient.requests_fetch, !JobClient.run_fetch, H.
  destruct (fetch w2 _) as [t|status text]; [split; reflexivity|].
  destruct (negb (ok status)); [split; reflexivity|].
  destruct (JSON.parse text) as [[]|]; try (split; reflexivity);
    (destruct (negb (truthy _)); [split; reflexivity|]);
    (destruct (ToString_opt _); [|split; reflexivity]);
    rewrite !JobClient.requests_fetch, !JobClient.run_fetch, H;
    (destruct (fetch w2 _); [split; reflexivity|]);
    rewrite !Provider.run_lift, !JobClient.requests_lift; split; reflexivity.
Qed.

(** What [generate] does once the seed is chosen. *)
Lemma generate_with_seed (w : World) (request : ProviderGenerateRequest) :
  (run w (generate HF_SPACES request) =
   match ToString (or_default (model request) (JString (u "z-image-turbo"))) with
   | None => Threw TypeError
   | Some key =>
       match resolve_config key with
       | Table.Value c =>
           match run w (callGradioApi (resolve_baseUrl HF_SPACES key) (endpoint c)
                          (buildData c request (seed_in_force w request))
                          (authToken request)) with
           | Returned data => normalize data (seed_in_force w request)
           | Threw t => Threw t
           end
       | _ => Threw TypeError
       end
   end) /\
  (requests w (generate HF_SPACES request) =
   match ToString (or_default (model request) (JString (u "z-image-turbo"))) with
   | None => []
   | Some key =>
       match resolve_config key with
       | Table.Value c =>
           requests w (callGradioApi (resolve_baseUrl HF_SPACES key) (endpoint c)
                         (buildData c request (seed_in_force w request))
                         (authToken request))
       | _ => []
       end
   end).
Proof.
  unfold generate.
  rewrite Provider.run_bind, JobClient.requests_bind.
  rewrite Provider.run_choose_seed, requests_choose_seed. cbn [app].
  destruct (ToString _) as [key|]; [|split; reflexivity].
  destruct (resolve_config key) as [c| |]; try (split; reflexivity).
  rewrite Provider.run_bind, JobClient.requests_bind.
  destruct (run w (callGradioApi _ _ _ _)) as [data|t].
  - rewrite Provider.run_lift, JobClient.requests_lift, app_nil_r. split; reflexivity.
  - rewrite app_nil_r. split; reflexivity.
Qed.

(** X11. With a seed given by the caller, [Math.random] is not consulted:
    two runs against the same backend have the same outcome and send the
    same requests, whatever the random source yields. *)
Theorem caller_seed_run_ignores_random (w1 w2 : World)
    (request : ProviderGenerateRequest) (s : JSValue) :
  (forall rq, fetch w1 rq = fetch w2 rq) ->
  seed request = Some s -> s <> JNull ->
  run w1 (generate HF_SPACES request) = run w2 (generate HF_SPACES request) /\
  requests w1 (generate HF_SPACES request) = requests w2 (generate HF_SPACES request).
Proof.
  intros H S N.
  destruct (generate_with_seed w1 request) as [R1 Q1].
  destruct (generate_with_seed w2 request) as [R2 Q2].
  rewrite R1, R2, Q1, Q2.
  assert (E : seed_in_force w1 request = seed_in_force w2 request).
  { unfold seed_in_force. rewrite S. destruct s; try reflexivity. contradiction. }
  rewrite E.
  destruct (ToString _) as [key|]; [|split; reflexivity].
  destruct (resolve_config key) as [c| |]; try (split; reflexivity).
  destruct (job_same_backend w1 w2 (resolve_baseUrl HF_SPACES key) (endpoint c)
              (buildData c request (seed_in_force w2 request)) (authToken request) H)
    as [A B].
  rewrite A, B. split; reflexivity.
Qed.

(** X12. One generation sends at most two requests (nothing is retried),
    all to the base URL resolved for the model and with the JSON content
    type; the caller's token, when it is non-empty, is sent as
    [Authorization: Bearer <token>], and no [Authorization] header is
    sent otherwise. *)
Theorem generation_sends_at_most_two_requests (w : World)
    (request : ProviderGenerateRequest) :
  (List.length (requests w (generate HF_SPACES request)) <= 2)%nat /\
  forall rq,
    In rq (requests w (generate HF_SPACES request)) ->
    (exists key,
        ToString (or_default (model request) (JString (u "z-image-turbo"))) = Some key /\
        fr_base rq = resolve_baseUrl HF_SPACES key) /\
    In (u "Content-Type", u "application/json") (fr_headers rq) /\
    forall v, In (u "Authorization", v) (fr_headers rq)
              <-> exists t, authToken request = Some t /\ t <> [] /\ v = u "Bearer " ++ t.
Proof.
  destruct (generate_with_seed w request) as [_ Q]. rewrite Q.
  destruct (ToString _) as [key|]; [|split; [cbn; lia | intros rq []]].
  destruct (resolve_config key) as [c| |]; try (split; [cbn; lia | intros rq []]).
  destruct (JobClient.job_requests w (resolve_baseUrl HF_SPACES key) (endpoint c)
              (buildData c request (seed_in_force w request)) (authToken request))
    as [L H].
  split; [exact L|].
  intros rq I. destruct (H rq I) as (B & C & A).
  split; [exists key; split; [reflexivity | exact B]|].
  split; [exact C | exact A].
Qed.

(** X13. A result that [generate] returns always carries a truthy image
    URL; its seed is a number the backend reported or else the seed in
    force (the caller's, or the generated one). *)
Theorem returned_result_has_image_url (w : World)
    (request : ProviderGenerateRequest) (res : GenerateSuccessResponse) :
  run w (generate HF_SPACES request) = Returned res ->
  truthy (url res) = true /\
  (is_number (result_seed res) = true \/ result_seed res = seed_in_force w request).
Proof.
  destruct (generate_with_seed w request) as [R _]. rewrite R. clear R.
  destruct (ToString _) as [key|]; [|discriminate].
  destruct (resolve_config key) as [c| |]; try discriminate.
  destruct (run w (callGradioApi _ _ _ _)) as [data|t]; [|discriminate].
  unfold normalize.
  destruct (index data 0) as [first|]; [|discriminate].
  destruct (truthy (field_opt first (u "url"))) eqn:T; cbn [negb]; [|discriminate].
  destruct (index data 1) as [second|]; [|discriminate].
  intros H. injection H as <-. cbn [url result_seed].
  split; [exact T|].
  destruct (is_number second) eqn:I; [left; exact I | right; reflexivity].
Qed.

Lemma or_else_same {A : Type} (truth : A -> bool) (a : Table.Slot A) :
  Table.or_else truth a a = a.
Proof. destruct a as [x| |]; cbn; [destruct (truth x)|..]; reflexivity. Qed.

Lemma unknown_model_as_default (w : World)
    (request : ProviderGenerateRequest) (key : jsstring) :
  ToString (or_default (model request) (JString (u "z-image-turbo"))) = Some key ->
  Table.get MODEL_CONFIGS key = Table.Undefined ->
  Table.get HF_SPACES key = Table.Undefined ->
  let fallback :=
    {| model := Some (JString (u "z-image-turbo")); prompt := prompt request;
       negativePrompt := negativePrompt request; width := width request;
       height := height request; steps := steps request; seed := seed request;
       guidanceScale := guidanceScale request; authToken := authToken request |} in
  run w (generate HF_SPACES request) = run w (generate HF_SPACES fallback) /\
  requests w (generate HF_SPACES request) = requests w (generate HF_SPACES fallback).
Proof.
  intros K M S fallback.
  destruct (generate_with_seed w request) as [R1 Q1].
  destruct (generate_with_seed w fallback) as [R2 Q2].
  rewrite R1, R2, Q1, Q2, K. clear R1 R2 Q1 Q2.
  change (ToString (or_default (model fallback) (JString (u "z-image-turbo"))))
    with (Some (u "z-image-turbo")).
  destruct (Provider.unknown_model_falls_back HF_SPACES key M S) as [C B].
  rewrite C, B. cbv beta iota.
  change (resolve_config (u "z-image-turbo"))
    with (Table.get MODEL_CONFIGS (u "z-image-turbo")).
  unfold resolve_baseUrl. rewrite or_else_same.
  destruct (Table.get MODEL_CONFIGS (u "z-image-turbo")) as [c| |] eqn:G;
    try (split; reflexivity).
  cbv in G. injection G as <-. split; reflexivity.
Qed.

(** X14. A model id that neither table knows and that is no property
    name of [Object.prototype] is served exactly as the default model
    [z-image-turbo]: same requests, same outcome. *)
Theorem unknown_model_runs_as_default (w : World)
    (request : ProviderGenerateRequest) (key : jsstring) :
  ToString (or_default (model request) (JString (u "z-image-turbo"))) = Some key ->
  Table.get MODEL_CONFIGS key = Table.Undefined ->
  Table.get HF_SPACES key = Table.Undefined ->
  let fallback :=
    {| model := Some (JString (u "z-image-turbo")); prompt := prompt request;
       negativePrompt := negativePrompt request; width := width request;
       height := height request; steps := steps request; seed := seed request;
       guidanceScale := guidanceScale request; authToken := authToken request |} in
  run w (generate HF_SPACES request) = run w (generate HF_SPACES fallback) /\
  requests w (generate HF_SPACES request) = requests w (generate HF_SPACES fallback).
Proof. exact (unknown_model_as_default w request key). Qed.

End Generate.

Lemma caller_seed_run_ignores_random_witness :
  run (Worlds.stub_world Worlds.png_stream)
      (generate Worlds.spaces (Worlds.cat_request "z-image-turbo" (num 7)))
  = run {| random := Number.of_Z 0; fetch := Worlds.stub_backend Worlds.png_stream |}
      (generate Worlds.spaces (Worlds.cat_request "z-image-turbo" (num 7))).
Proof.
  apply (caller_seed_run_ignores_random Worlds.spaces
           (Worlds.stub_world Worlds.png_stream)
           {| random := Number.of_Z 0; fetch := Worlds.stub_backend Worlds.png_stream |}
           (Worlds.cat_request "z-image-turbo" (num 7)) (JNumber (Number.of_Z 7))).
  - intros rq. reflexivity.
  - reflexivity.
  - discriminate.
Defined.

Lemma generation_sends_at_most_two_requests_witness :
  let request :=
    {| model := None; prompt := Some (JString (u "cat")); negativePrompt := None;
       width := num 1024; height := num 1024; steps := None; seed := num 7;
       guidanceScale := None; authToken := Some (u "hf_abc") |} in
  let rq := {| fr_method := u "GET"; fr_base := Table.Value (u "https://turbo.example");
               fr_path := u "/gradio_api/call/generate_image/job1";
               fr_headers := [(u "Content-Type", u "application/json");
                              (u "Authorization", u "Bearer hf_abc")];
               fr_body := None |} in
  In rq (requests (Worlds.stub_world Worlds.png_stream) (generate Worlds.spaces request)) /\
  exists t, authToken request = Some t /\ t <> [] /\ u "Bearer hf_abc" = u "Bearer " ++ t.
Proof.
  intros request rq.
  assert (Hin : In rq (requests (Worlds.stub_world Worlds.png_stream)
                         (generate Worlds.spaces request))).
  { right. left. reflexivity. }
  split; [exact Hin|].
  destruct (generation_sends_at_most_two_requests Worlds.spaces
              (Worlds.stub_world Worlds.png_stream) request) as [_ H].
  destruct (H rq Hin) as (_ & _ & A).
  apply (A (u "Bearer hf_abc")). right. left. reflexivity.
Defined.

Lemma returned_result_has_image_url_witness :
  truthy (Some (JString (u "https://x/y.png"))) = true /\
  (is_number (num 42) = true \/
   num 42 = seed_in_force (Worlds.stub_world Worlds.png_stream)
              (Worlds.cat_request "z-image-turbo" (num 7))).
Proof.
  apply (returned_result_has_image_url Worlds.spaces
           (Worlds.stub_world Worlds.png_stream)
           (Worlds.cat_request "z-image-turbo" (num 7))
           {| url := Some (JString (u "https://x/y.png")); result_seed := num 42 |}).
  vm_compute. reflexivity.
Defined.

Lemma unknown_model_runs_as_default_witness :
  run (Worlds.stub_world Worlds.png_stream)
      (generate Worlds.spaces (Worlds.cat_request "no-such-model" (num 7)))
  = run (Worlds.stub_world Worlds.png_stream)
      (generate Worlds.spaces (Worlds.cat_request "z-image-turbo" (num 7))).
Proof.
  apply (unknown_model_runs_as_default Worlds.spaces
           (Worlds.stub_world Worlds.png_stream)
           (Worlds.cat_request "no-such-model" (num 7)) (u "no-such-model")).
  - reflexivity.
  - reflexivity.
  - reflexivity.
Defined.

End Adapter.

(** * The routes *)

Module Endpoints.
Import App HuggingFace Trace.

Lemma run_try_catch {A : Type} (w : World) (p : Prog A) (h : Thrown -> Prog A) :
  run w (try_catch p h) =
  match run w p with
  | Returned a => Returned a
  | Threw t => run w (h t)
  end.
Proof.
  induction p as [a|t|k IH|rq k IH]; cbn [try_catch run]; try reflexivity; apply IH.
Qed.

Lemma requests_try_catch {A : Type} (w : World) (p : Prog A) (h : Thrown -> Prog A) :
  requests w (try_catch p h) =
  requests w p ++ match run w p with
                  | Returned _ => []
                  | Threw t => requests w (h t)
                  end.
Proof.
  induction p as [a|t|k IH|rq k IH]; cbn [try_catch requests run app];
    try reflexivity; [apply IH | f_equal; apply IH].
Qed.

Section Generate.

Variable hasProvider : JSValue -> bool.
Variable PROVIDER_CONFIGS : list (jsstring * ProviderConfig).
Variable validatePrompt : option JSValue -> Verdict.
Variable validateDimensions : option JSValue -> option JSValue -> Verdict.
Variable validateSteps : option JSValue -> Verdict.

Let route := generate_route hasProvider PROVIDER_CONFIGS
               validatePrompt validateDimensions validateSteps.

Lemma nullish_defined (a : option JSValue) (z : Z) :
  nullish a (num z) <> None /\ nullish a (num z) <> Some JNull.
Proof. unfold nullish, num. destruct a as [[]|]; split; discriminate. Qed.

(** X15. The adapter is reached only after every check has passed: the
    body decoded to a value other than [null], the provider is
    registered, a provider that requires authentication got a non-empty
    token, and the three validators accepted the prompt, the dimensions
    and the step count that are handed on. The request handed on never
    lacks a width, a height or a step count, and carries the value of
    the provider's own authentication header. *)
Theorem adapter_reached_only_after_checks (req : HttpRequest) (providerId : JSValue)
    (request : ProviderGenerateRequest)
    (k : Outcome GenerateSuccessResponse -> Response) :
  route req = Invoke providerId request k ->
  exists body key,
    JSON.parse (body_text req) = Some body /\ body <> JNull /\
    providerId = provider_of body /\
    hasProvider providerId = true /\
    ToString providerId = Some key /\
    (forall c, Table.get PROVIDER_CONFIGS key = Table.Value c ->
               requiresAuth c = true -> present (authToken request) = true) /\
    authToken request = header req (auth_header_name (Table.get PROVIDER_CONFIGS key)) /\
    prompt request = field body (u "prompt") /\
    valid (validatePrompt (prompt request)) = true /\
    valid (validateDimensions (width request) (height request)) = true /\
    valid (validateSteps (steps request)) = true /\
    (width request <> None /\ width request <> Some JNull) /\
    (height request <> None /\ height request <> Some JNull) /\
    (steps request <> None /\ steps request <> Some JNull) /\
    k = respond_outcome.
Proof.
  unfold route, generate_route. intros H.
  destruct (JSON.parse (body_text req)) as [body|] eqn:P; [|discriminate H].
  assert (NN : body <> JNull) by (intros ->; discriminate H).
  exists body.
  assert (G :
    (if negb (hasProvider (provider_of body)) then
        match ToString (provider_of body) with
        | Some id => Respond (json_error (u "Invalid provider: " ++ id) 400)
        | None => Escape TypeError
        end
      else
        match ToString (provider_of body) with
        | None => Escape TypeError
        | Some key =>
            let providerConfig := Table.get PROVIDER_CONFIGS key in
            let authToken := header req (auth_header_name providerConfig) in
            match requires_auth providerConfig, present authToken with
            | Some c, false =>
                Respond (json_error
                  (match authHeader c with Some h => h | None => u "undefined" end
                   ++ u " is required for " ++ name c) 401)
            | _, _ =>
                let promptValidation := validatePrompt (field body (u "prompt")) in
                if negb (valid promptValidation) then Respond (invalid promptValidation)
                else
                  let width := nullish (field body (u "width")) (num 1024) in
                  let height := nullish (field body (u "height")) (num 1024) in
                  let dimensionsValidation := validateDimensions width height in
                  if negb (valid dimensionsValidation) then
                    Respond (invalid dimensionsValidation)
                  else
                    let steps :=
                      nullish (nullish (field body (u "steps"))
                                       (field body (u "num_inference_steps")))
                              (num 9) in
                    let stepsValidation := validateSteps steps in
                    if negb (valid stepsValidation) then Respond (invalid stepsValidation)
                    else
                      Invoke (provider_of body)
                        {| model := field body (u "model");
                           prompt := field body (u "prompt");
                           negativePrompt :=
                             or_else (field body (u "negativePrompt"))
                                     (field body (u "negative_prompt"));
                           width := width;
                           height := height;
                           steps := steps;
                           seed := field body (u "seed");
                           guidanceScale := field body (u "guidanceScale");
                           authToken := authToken |}
                        respond_outcome
            end
        end) = Invoke providerId request k).
  { destruct body; try exact H. exfalso. apply NN. reflexivity. }
  clear H.
  destruct (hasProvider (provider_of body)) eqn:HP; cbn [negb] in G;
    [|destruct (ToString (provider_of body)); discriminate G].
  destruct (ToString (provider_of body)) as [key|] eqn:TS; [|discriminate G].
  exists key. cbv zeta in G.
  assert (G' :
    (requires_auth (Table.get PROVIDER_CONFIGS key) = None \/
     present (header req (auth_header_name (Table.get PROVIDER_CONFIGS key))) = true) /\
    (if negb (valid (validatePrompt (field body (u "prompt")))) then
       Respond (invalid (validatePrompt (field body (u "prompt"))))
     else if negb (valid (validateDimensions
                            (nullish (field body (u "width")) (num 1024))
                            (nullish (field body (u "height")) (num 1024)))) then
       Respond (invalid (validateDimensions
                            (nullish (field body (u "width")) (num 1024))
                            (nullish (field body (u "height")) (num 1024))))
     else if negb (valid (validateSteps
                            (nullish (nullish (field body (u "steps"))
                                              (field body (u "num_inference_steps")))
                                     (num 9)))) then
       Respond (invalid (validateSteps
                            (nullish (nullish (field body (u "steps"))
                                              (field body (u "num_inference_steps")))
                                     (num 9))))
     else
       Invoke (provider_of body)
         {| model := field body (u "model");
            prompt := field body (u "prompt");
            negativePrompt :=
              or_else (field body (u "negativePrompt"))
                      (field body (u "negative_prompt"));
            width := nullish (field body (u "width")) (num 1024);
            height := nullish (field body (u "height")) (num 1024);
            steps := nullish (nullish (field body (u "steps"))
                                      (field body (u "num_inference_steps")))
                             (num 9);
            seed := field body (u "seed");
            guidanceScale := field body (u "guidanceScale");
            authToken := header req (auth_header_name (Table.get PROVIDER_CONFIGS key)) |}
         respond_outcome) = Invoke providerId request k).
  { destruct (requires_auth (Table.get PROVIDER_CONFIGS key)) as [c|];
      [destruct (present _) eqn:PR; [|discriminate G]|];
      (split; [auto | exact G]). }
  clear G. destruct G' as [A G].
  destruct (valid (validatePrompt (field body (u "prompt")))) eqn:VP;
    cbn [negb] in G; [|discriminate G].
  destruct (valid (validateDimensions _ _)) eqn:VD; cbn [negb] in G; [|discriminate G].
  destruct (valid (validateSteps _)) eqn:VS; cbn [negb] in G; [|discriminate G].
  injection G as <- <- <-.
  cbn [prompt width height steps authToken].
  repeat (split; [first [ assumption | reflexivity | apply nullish_defined ]|]).
  split.
  { intros c Hc Hr.
    destruct A as [A|A]; [|exact A].
    unfold requires_auth in A. rewrite Hc, Hr in A. discriminate A. }
  repeat (split; [first [ assumption | reflexivity | apply nullish_defined ]|]).
  reflexivity.
Qed.

(** X16. Whatever the adapter does, a response of [POST /generate] has
    status 200, 400, 401 or 500; it has status 200 exactly when it
    carries a result of the adapter, and an error payload otherwise. *)
Theorem generate_statuses
    (adapter : JSValue -> ProviderGenerateRequest -> Outcome GenerateSuccessResponse)
    (req : HttpRequest) (r : Response) :
  serve adapter (route req) = Returned r ->
  In (status r) [200; 400; 401; 500]%N /\
  (status r = 200%N <-> exists result, payload r = ResultPayload result) /\
  (status r <> 200%N -> exists m, payload r = ErrorPayload m).
Proof.
  assert (E400 : forall m (r : Response),
             r = {| status := 400; payload := ErrorPayload m |} ->
             In (status r) [200; 400; 401; 500]%N /\
             (status r = 200%N <-> exists result, payload r = ResultPayload result) /\
             (status r <> 200%N -> exists m, payload r = ErrorPayload m)).
  { intros m r0 ->. cbn [status payload]. split; [right; left; reflexivity|].
    split; [split; [discriminate | intros [? Hres]; discriminate Hres]|].
    intros _. eexists. reflexivity. }
  assert (E401 : forall m (r : Response),
             r = {| status := 401; payload := ErrorPayload m |} ->
             In (status r) [200; 400; 401; 500]%N /\
             (status r = 200%N <-> exists result, payload r = ResultPayload result) /\
             (status r <> 200%N -> exists m, payload r = ErrorPayload m)).
  { intros m r0 ->. cbn [status payload]. split; [right; right; left; reflexivity|].
    split; [split; [discriminate | intros [? Hres]; discriminate Hres]|].
    intros _. eexists. reflexivity. }
  unfold route, generate_route.
  destruct (JSON.parse (body_text req)) as [body|];
    [|cbn [serve]; intros H; injection H as <-; eapply E400; reflexivity].
  destruct body; try (cbn [serve]; discriminate);
    (destruct (hasProvider _); cbn [negb];
     [|destruct (ToString _); cbn [serve]; [|discriminate];
       intros H; injection H as <-; eapply E400; reflexivity]);
    (destruct (ToString _) as [key|]; [|cbn [serve]; discriminate]);
    cbv zeta;
    (destruct (requires_auth _) as [c|]; [destruct (present _)|]);
    try (cbn [serve]; intros H; injection H as <-; eapply E401; reflexivity);
    (destruct (valid (validatePrompt _)); cbn [negb];
     [|cbn [serve]; intros H; injection H as <-; eapply E400; reflexivity]);
    (destruct (valid (validateDimensions _ _)); cbn [negb];
     [|cbn [serve]; intros H; injection H as <-; eapply E400; reflexivity]);
    (destruct (valid (validateSteps _)); cbn [negb];
     [|cbn [serve]; intros H; injection H as <-; eapply E400; reflexivity]);
    cbn [serve]; intros H; injection H as <-;
    (destruct (adapter _ _) as [result|err]; cbn [respond_outcome status payload];
     [ split; [left; reflexivity|];
       split; [split; [intros _; eexists; reflexivity | reflexivity]|];
       intros N; exfalso; apply N; reflexivity
     | split; [right; right; right; left; reflexivity|];
       split; [split; [discriminate | intros [? Hres]; discriminate Hres]|];
       intros _; eexists; reflexivity ]).
Qed.

End Generate.

Lemma adapter_reached_only_after_checks_witness :
  exists body key,
    JSON.parse (body_text (Worlds.post "{'provider':'huggingface','prompt':'cat'}"))
      = Some body /\
    body <> JNull /\
    JString (u "huggingface") = provider_of body /\
    ToString (JString (u "huggingface")) = Some key.
Proof.
  destruct (adapter_reached_only_after_checks Worlds.known_provider Worlds.provider_configs
              (fun _ => Worlds.accept) (fun _ _ => Worlds.accept) (fun _ => Worlds.accept)
              (Worlds.post "{'provider':'huggingface','prompt':'cat'}")
              (JString (u "huggingface"))
              {| model := None; prompt := Some (JString (u "cat")); negativePrompt := None;
                 width := num 1024; height := num 1024; steps := num 9; seed := None;
                 guidanceScale := None; authToken := None |}
              respond_outcome)
    as (body & key & P & NN & E & _ & TS & _).
  - reflexivity.
  - exists body, key. repeat split; assumption.
Defined.

Lemma generate_statuses_witness :
  In (status {| status := 200;
                payload := ResultPayload {| url := Some (JString (u "https://x/y.png"));
                                            result_seed := num 42 |} |})
     [200; 400; 401; 500]%N.
Proof.
  apply (generate_statuses Worlds.known_provider Worlds.provider_configs
           (fun _ => Worlds.accept) (fun _ _ => Worlds.accept) (fun _ => Worlds.accept)
           (Worlds.huggingface (Worlds.stub_world Worlds.png_stream))
           (Worlds.post "{'provider':'huggingface','prompt':'cat','seed':7}")).
  vm_compute. reflexivity.
Defined.

(** *** [POST /generate-hf] and [POST /upscale] *)

Lemma or_default_falsy (a : option JSValue) (d : JSValue) :
  truthy a = false -> or_default a d = d.
Proof.
  unfold truthy, or_default. destruct a as [v|]; [|reflexivity].
  intros ->. reflexivity.
Qed.

Lemma requests_upscale_result (w : World) (data : JSValue) :
  requests w (Routes.upscale_result data) = [].
Proof.
  unfold Routes.upscale_result.
  destruct (index data 0) as [first|]; [|reflexivity].
  destruct (field_opt first (u "url")) as [v|]; [|reflexivity].
  destruct (ToBoolean v); reflexivity.
Qed.

Section Handlers.

Variable HF_SPACES : list (jsstring * jsstring).
Variable validatePrompt : option JSValue -> Verdict.
Variable validateDimensions : option JSValue -> option JSValue -> Verdict.
Variable validateScale : option JSValue -> Verdict.
Variable isAllowedImageUrl : jsstring -> bool.

Let legacy := Routes.generate_hf_route validatePrompt validateDimensions.
Let upscale := Routes.upscale_route HF_SPACES validateScale isAllowedImageUrl.

(** X17. The legacy route asks for no provider and no token. A body
    that passes the prompt and dimension checks and names no model is
    handed to the HuggingFace adapter with the model id [z-image], the
    value of [X-HF-Token] and no step count; as long as the table of
    spaces has no entry [z-image], the adapter then serves it exactly as
    [z-image-turbo], and the job it submits goes to the endpoint
    [generate_image] with 9 steps. *)
Theorem legacy_route_runs_default_model (w : World) (req : HttpRequest) (body : JSValue) :
  JSON.parse (body_text req) = Some body -> body <> JNull ->
  valid (validatePrompt (field body (u "prompt"))) = true ->
  valid (validateDimensions (nullish (field body (u "width")) (num 1024))
                            (nullish (field body (u "height")) (num 1024))) = true ->
  truthy (field body (u "model")) = false ->
  Table.get HF_SPACES (u "z-image") = Table.Undefined ->
  let turbo :=
    {| model := Some (JString (u "z-image-turbo")); prompt := field body (u "prompt");
       negativePrompt := None;
       width := nullish (field body (u "width")) (num 1024);
       height := nullish (field body (u "height")) (num 1024);
       steps := None; seed := field body (u "seed"); guidanceScale := None;
       authToken := header req (u "X-HF-Token") |} in
  exists request,
    legacy req = Invoke (JString (u "huggingface")) request Routes.respond_legacy /\
    model request = Some (JString (u "z-image")) /\
    authToken request = header req (u "X-HF-Token") /\
    run w (generate HF_SPACES request) = run w (generate HF_SPACES turbo) /\
    requests w (generate HF_SPACES request) = requests w (generate HF_SPACES turbo) /\
    forall rq rest,
      requests w (generate HF_SPACES request) = rq :: rest ->
      fr_method rq = u "POST" /\
      fr_path rq = u "/gradio_api/call/generate_image" /\
      fr_body rq = Some (JSON.stringify (JObject [(u "data", JArray
        [JSON.or_null (field body (u "prompt"));
         JSON.or_null (nullish (field body (u "height")) (num 1024));
         JSON.or_null (nullish (field body (u "width")) (num 1024));
         JNumber (Number.of_Z 9);
         JSON.or_null (seed_in_force w turbo);
         JBool false])])).
Proof.
  intros P NN VP VD M S turbo.
  set (request :=
    {| model := Some (JString (u "z-image")); prompt := field body (u "prompt");
       negativePrompt := None;
       width := nullish (field body (u "width")) (num 1024);
       height := nullish (field body (u "height")) (num 1024);
       steps := None; seed := field body (u "seed"); guidanceScale := None;
       authToken := header req (u "X-HF-Token") |}).
  exists request.
  assert (R : legacy req = Invoke (JString (u "huggingface")) request Routes.respond_legacy).
  { unfold legacy, Routes.generate_hf_route. rewrite P.
    destruct body; try (exfalso; apply NN; reflexivity);
      rewrite VP; cbn [negb]; cbv zeta; rewrite VD; cbn [negb];
      rewrite (or_default_falsy _ _ M); reflexivity. }
  destruct (Adapter.unknown_model_as_default HF_SPACES w request (u "z-image")
              eq_refl eq_refl S) as [E Q].
  split; [exact R|]. split; [reflexivity|]. split; [reflexivity|].
  split; [exact E|]. split; [exact Q|].
  intros rq rest H. rewrite Q in H.
  change (requests w (generate HF_SPACES turbo) = rq :: rest) in H.
  destruct (Adapter.generate_with_seed HF_SPACES w turbo) as [_ G].
  rewrite G in H. clear G.
  change (ToString (or_default (model turbo) (JString (u "z-image-turbo"))))
    with (Some (u "z-image-turbo")) in H.
  cbv beta iota in H.
  change (resolve_config (u "z-image-turbo"))
    with (Table.Value {| endpoint := u "generate_image";
                         buildData := fun r seed =>
                           [prompt r; height r; width r; nullish (steps r) (num 9); seed;
                            Some (JBool false)] |}) in H.
  cbv beta iota in H. unfold callGradioApi in H.
  rewrite JobClient.requests_fetch in H.
  pose proof (f_equal (fun l => hd rq l) H) as E1. cbn [hd] in E1. subst rq.
  cbn [fr_method fr_path fr_body endpoint buildData].
  repeat split.
Qed.

Lemma upscale_checked (req : HttpRequest) (body : JSValue) (url : jsstring) :
  JSON.parse (body_text req) = Some body ->
  field body (u "url") = Some (JString url) -> url <> [] ->
  upscale req =
  if negb (isAllowedImageUrl url) then Ret (Routes.upscale_error (u "URL not allowed") 400)
  else
    let hfToken := header req (u "X-HF-Token") in
    let scale := nullish (field body (u "scale")) (num 4) in
    let scaleValidation := validateScale scale in
    if negb (valid scaleValidation) then
      Ret {| Routes.upscale_status := 400;
             Routes.upscale_payload :=
               Routes.UpscaleError (option_map Text (error scaleValidation)) |}
    else
      try_catch
        (bind (Routes.callGradioApi (Table.get HF_SPACES (u "upscaler")) (u "realesrgan")
                 [Some (Routes.file_data url);
                  Some (JString (u "RealESRGAN_x4plus"));
                  Some (JNumber (Number.of_decimal false 5 (-1)));
                  Some (JBool false);
                  scale]
                 hfToken)
              Routes.upscale_result)
        (fun err =>
           Ret {| Routes.upscale_status := 500;
                  Routes.upscale_payload :=
                    Routes.UpscaleError (Some (Routes.upscale_failure err)) |}).
Proof.
  intros P F N. unfold upscale, Routes.upscale_route. rewrite P.
  destruct body; try discriminate F.
  rewrite F. destruct url as [|c url']; [contradiction|]. reflexivity.
Qed.

Lemma upscale_unchecked (w : World) (req : HttpRequest) :
  (forall body url, JSON.parse (body_text req) = Some body ->
                    field body (u "url") = Some (JString url) -> url <> [] -> False) ->
  requests w (upscale req) = [] /\
  (JSON.parse (body_text req) <> Some JNull ->
   exists m, run w (upscale req) = Returned (Routes.upscale_error m 400)).
Proof.
  intros H. unfold upscale, Routes.upscale_route.
  destruct (JSON.parse (body_text req)) as [body|] eqn:P.
  - destruct body as [| | | | |ps];
      try (split; [reflexivity | intros _; eexists; reflexivity]).
    + split; [reflexivity | intros N; exfalso; apply N; reflexivity].
    + destruct (field (JObject ps) (u "url")) as [v|] eqn:F;
        [|split; [reflexivity | intros _; eexists; reflexivity]].
      destruct v as [| | |s'| |];
        try (split; [reflexivity | intros _; eexists; reflexivity]).
      destruct s' as [|c s''];
        [split; [reflexivity | intros _; eexists; reflexivity]|].
      exfalso. apply (H (JObject ps) (c :: s'') eq_refl F). discriminate.
  - split; [reflexivity | intros _; eexists; reflexivity].
Qed.

Lemma url_of_body (req : HttpRequest) :
  (exists body url, JSON.parse (body_text req) = Some body /\
                    field body (u "url") = Some (JString url) /\ url <> []) \/
  (forall body url, JSON.parse (body_text req) = Some body ->
                    field body (u "url") = Some (JString url) -> url <> [] -> False).
Proof.
  destruct (JSON.parse (body_text req)) as [body|]; [|right; intros ? ? H; discriminate H].
  destruct (field body (u "url")) as [[| | |s| |]|] eqn:F;
    try (right; intros bd ul Hb Hf; injection Hb as <-; rewrite F in Hf; discriminate Hf).
  destruct s as [|c s'].
  - right. intros bd ul Hb Hf N. injection Hb as <-. rewrite F in Hf. injection Hf as <-.
    apply N. reflexivity.
  - left. exists body, (c :: s'). repeat split; [exact F | discriminate].
Qed.

(** X18. The upscaler is contacted only for a request whose body has a
    non-empty string [url] that [isAllowedImageUrl] accepts and whose
    scale (4 when the body gives none) [validateScale] accepts. Every
    request then goes to the base URL of the [upscaler] space, and
    carries an [Authorization] header exactly when [X-HF-Token] is
    present and non-empty. *)
Theorem upscaler_contacted_only_after_checks (w : World) (req : HttpRequest)
    (rq : FetchRequest) :
  In rq (requests w (upscale req)) ->
  (exists body url,
      JSON.parse (body_text req) = Some body /\
      field body (u "url") = Some (JString url) /\ url <> [] /\
      isAllowedImageUrl url = true /\
      valid (validateScale (nullish (field body (u "scale")) (num 4))) = true) /\
  fr_base rq = Table.get HF_SPACES (u "upscaler") /\
  forall v, In (u "Authorization", v) (fr_headers rq)
            <-> exists t, header req (u "X-HF-Token") = Some t /\ t <> [] /\
                          v = u "Bearer " ++ t.
Proof.
  destruct (url_of_body req) as [(body & url & P & F & N)|H].
  - rewrite (upscale_checked req body url P F N).
    destruct (isAllowedImageUrl url) eqn:A; cbn [negb]; [|intros []].
    cbv zeta.
    destruct (valid (validateScale _)) eqn:V; cbn [negb]; [|intros []].
    rewrite requests_try_catch, JobClient.requests_bind.
    intros I.
    assert (I' : In rq (requests w
        (Routes.callGradioApi (Table.get HF_SPACES (u "upscaler")) (u "realesrgan")
           [Some (Routes.file_data url); Some (JString (u "RealESRGAN_x4plus"));
            Some (JNumber (Number.of_decimal false 5 (-1))); Some (JBool false);
            nullish (field body (u "scale")) (num 4)]
           (header req (u "X-HF-Token"))))).
    { apply in_app_or in I. destruct I as [I|I].
      - apply in_app_or in I. destruct I as [I|I]; [exact I|].
        destruct (run w (Routes.callGradioApi _ _ _ _)) as [data|t];
          [rewrite requests_upscale_result in I|]; destruct I.
      - destruct (run w (bind _ _)); destruct I. }
    clear I.
    destruct (Adapter.job_client_copies w (Table.get HF_SPACES (u "upscaler"))
                (u "realesrgan")
                [Some (Routes.file_data url); Some (JString (u "RealESRGAN_x4plus"));
                 Some (JNumber (Number.of_decimal false 5 (-1))); Some (JBool false);
                 nullish (field body (u "scale")) (num 4)]
                (header req (u "X-HF-Token"))) as [Q _].
    rewrite Q in I'.
    destruct (proj2 (JobClient.job_requests w _ _ _ _) rq I') as (B & _ & Au).
    split; [exists body, url; repeat split; assumption|].
    split; [exact B | exact Au].
  - destruct (upscale_unchecked w req H) as [E _]. rewrite E. intros [].
Qed.

(** X19. No failure of the job leaves the upscale handler as an
    exception. In every run in which each [fetch] the handler awaits is
    answered or rejected (a world gives every request its result; the
    code sets no timeout, so a request that is never settled keeps the
    handler waiting), and unless the body is the JSON text [null], the
    handler returns a response. Its status is 200, 400 or 500, and it is
    200 exactly when the response carries an image URL, which is then
    truthy. *)
Theorem upscale_failures_are_answered (w : World) (req : HttpRequest) :
  JSON.parse (body_text req) <> Some JNull ->
  exists r,
    run w (upscale req) = Returned r /\
    In (Routes.upscale_status r) [200; 400; 500]%N /\
    (Routes.upscale_status r = 200%N <->
     exists v, Routes.upscale_payload r = Routes.UpscaleResult v /\ ToBoolean v = true).
Proof.
  intros NN.
  assert (E : forall m st,
             In st [400; 500]%N ->
             In (Routes.upscale_status
                   {| Routes.upscale_status := st;
                      Routes.upscale_payload := Routes.UpscaleError m |})
                [200; 400; 500]%N /\
             (Routes.upscale_status
                {| Routes.upscale_status := st;
                   Routes.upscale_payload := Routes.UpscaleError m |} = 200%N <->
              exists v, Routes.upscale_payload
                          {| Routes.upscale_status := st;
                             Routes.upscale_payload := Routes.UpscaleError m |}
                        = Routes.UpscaleResult v /\ ToBoolean v = true)).
  { intros m st Hst. cbn [Routes.upscale_status Routes.upscale_payload].
    split; [right; exact Hst|].
    split.
    - intros ->. destruct Hst as [Hs|[Hs|[]]]; discriminate Hs.
    - intros (v & Hv & _). discriminate Hv. }
  destruct (url_of_body req) as [(body & url & P & F & N)|H].
  - rewrite (upscale_checked req body url P F N).
    destruct (isAllowedImageUrl url); cbn [negb];
      [|eexists; split; [reflexivity | apply E; left; reflexivity]].
    cbv zeta.
    destruct (valid (validateScale _)); cbn [negb];
      [|eexists; split; [reflexivity | apply E; left; reflexivity]].
    rewrite run_try_catch, Provider.run_bind.
    destruct (run w (Routes.callGradioApi _ _ _ _)) as [data|t];
      [|eexists; split; [reflexivity | apply E; right; left; reflexivity]].
    unfold Routes.upscale_result.
    destruct (index data 0) as [first|t];
      [|eexists; split; [reflexivity | apply E; right; left; reflexivity]].
    destruct (field_opt first (u "url")) as [v|];
      [|eexists; split; [reflexivity | apply E; right; left; reflexivity]].
    destruct (ToBoolean v) eqn:T;
      [|eexists; split; [reflexivity | apply E; right; left; reflexivity]].
    eexists. split; [reflexivity|].
    cbn [Routes.upscale_status Routes.upscale_payload].
    split; [left; reflexivity|].
    split; [intros _; exists v; split; [reflexivity | exact T] | reflexivity].
  - destruct (upscale_unchecked w req H) as [_ R].
    destruct (R NN) as [m Hm]. rewrite Hm.
    eexists. split; [reflexivity|]. apply E. left. reflexivity.
Qed.


End Handlers.

Lemma legacy_route_runs_default_model_witness :
  exists request,
    Routes.generate_hf_route (fun _ => Worlds.accept) (fun _ _ => Worlds.accept)
      (Worlds.post "{'prompt':'cat','seed':7}")
    = Invoke (JString (u "huggingface")) request Routes.respond_legacy /\
    model request = Some (JString (u "z-image")) /\
    run (Worlds.stub_world Worlds.png_stream) (generate Worlds.spaces request)
    = Returned {| url := Some (JString (u "https://x/y.png")); result_seed := num 42 |}.
Proof.
  destruct (legacy_route_runs_default_model Worlds.spaces
              (fun _ => Worlds.accept) (fun _ _ => Worlds.accept)
              (Worlds.stub_world Worlds.png_stream)
              (Worlds.post "{'prompt':'cat','seed':7}")
              (JObject [(u "prompt", JString (u "cat")); (u "seed", JNumber (Number.of_Z 7))]))
    as (request & R & M & _ & E & _).
  - reflexivity.
  - discriminate.
  - reflexivity.
  - reflexivity.
  - reflexivity.
  - reflexivity.
  - exists request. split; [exact R|]. split; [exact M|].
    etransitivity; [exact E | vm_compute; reflexivity].
Defined.

Lemma upscaler_contacted_only_after_checks_witness :
  let w := Worlds.stub_world Worlds.png_stream in
  let req := Worlds.post "{'url':'https://x/y.png'}" in
  let rq := {| fr_method := u "GET"; fr_base := Table.Value (u "https://upscaler.example");
               fr_path := u "/gradio_api/call/realesrgan/job1";
               fr_headers := [(u "Content-Type", u "application/json")];
               fr_body := None |} in
  In rq (requests w (Routes.upscale_route Worlds.spaces (fun _ => Worlds.accept)
                       (fun _ => true) req)) /\
  fr_base rq = Table.get Worlds.spaces (u "upscaler").
Proof.
  intros w req rq.
  assert (Hin : In rq (requests w (Routes.upscale_route Worlds.spaces
                                     (fun _ => Worlds.accept) (fun _ => true) req))).
  { vm_compute. right. left. reflexivity. }
  split; [exact Hin|].
  destruct (upscaler_contacted_only_after_checks Worlds.spaces (fun _ => Worlds.accept)
              (fun _ => true) w req rq Hin) as (_ & B & _).
  exact B.
Defined.

Lemma upscale_failures_are_answered_witness :
  exists r,
    run Worlds.offline_world
        (Routes.upscale_route Worlds.spaces (fun _ => Worlds.accept) (fun _ => true)
           (Worlds.post "{'url':'https://x/y.png'}"))
    = Returned r /\
    In (Routes.upscale_status r) [200; 400; 500]%N.
Proof.
  destruct (upscale_failures_are_answered Worlds.spaces (fun _ => Worlds.accept)
              (fun _ => true)
              Worlds.offline_world (Worlds.post "{'url':'https://x/y.png'}"))
    as (r & R & S & _).
  - vm_compute. discriminate.
  - exists r. split; assumption.
Defined.


End Endpoints.

(** * The web client's helpers *)

Module Browser.
Import Web.

Lemma startsWith_prefix (p : jsstring) : forall s,
  startsWith p s = true <-> exists b, s = p ++ b.
Proof.
  induction p as [|x p IH]; intros s.
  - split; [intros _; exists s; reflexivity | reflexivity].
  - destruct s as [|y s].
    + split; [discriminate | intros [b H]; discriminate H].
    + cbn [startsWith]. rewrite andb_true_iff, N.eqb_eq, IH. split.
      * intros [-> [b ->]]. exists b. reflexivity.
      * intros [b H]. injection H as -> ->. split; [reflexivity | exists b; reflexivity].
Qed.

Lemma includes_occurs (p : jsstring) : forall s,
  includes p s = true <-> exists a b, s = a ++ p ++ b.
Proof.
  induction s as [|c s IH].
  - cbn [includes]. rewrite orb_false_r, startsWith_prefix. split.
    + intros [b H]. exists [], b. exact H.
    + intros (a & b & H). destruct a as [|x a]; [exists b; exact H | discriminate H].
  - cbn [includes]. rewrite orb_true_iff, startsWith_prefix, IH. split.
    + intros [[b H]|(a & b & H)].
      * exists [], b. exact H.
      * exists (c :: a), b. rewrite H. reflexivity.
    + intros (a & b & H). destruct a as [|x a].
      * left. exists b. exact H.
      * right. injection H as -> ->. exists a, b. reflexivity.
Qed.

(** X21. [isHuggingFaceUrl] is a test for a substring, not for a host:
    it holds exactly for the texts in which [.hf.space] or
    [huggingface.co] occurs somewhere, be it in the path or the query. *)
Theorem isHuggingFaceUrl_tests_substring (url : jsstring) :
  isHuggingFaceUrl url = true <->
  exists a b, url = a ++ u ".hf.space" ++ b \/ url = a ++ u "huggingface.co" ++ b.
Proof.
  unfold isHuggingFaceUrl. rewrite orb_true_iff, !includes_occurs. split.
  - intros [(a & b & H)|(a & b & H)]; exists a, b; [left | right]; exact H.
  - intros (a & b & [H|H]); [left | right]; exists a, b; exact H.
Qed.

Lemma isHuggingFaceUrl_tests_substring_witness :
  isHuggingFaceUrl (u "https://evil.example/?next=huggingface.co") = true.
Proof.
  apply (proj2 (isHuggingFaceUrl_tests_substring
                  (u "https://evil.example/?next=huggingface.co"))).
  exists (u "https://evil.example/?next="), []. right. reflexivity.
Defined.

(** *** The file name of a converted download *)

Lemma image_extension_cases (ext : jsstring) :
  image_extension ext = true ->
  map fold_case ext = [46; 106; 112; 103]%N \/
  map fold_case ext = [46; 106; 112; 101; 103]%N \/
  map fold_case ext = [46; 119; 101; 98; 112]%N.
Proof.
  unfold image_extension. rewrite !orb_true_iff, !Extractor.jsstring_eqb_eq.
  intros [[H|H]|H]; rewrite H; [left | right; left | right; right]; reflexivity.
Qed.

Lemma image_extension_longer (t ext : jsstring) :
  t <> [] -> image_extension ext = true -> image_extension (t ++ ext) = false.
Proof.
  intros Ht He.
  destruct (image_extension (t ++ ext)) eqn:E; [|reflexivity]. exfalso.
  apply image_extension_cases in E. apply image_extension_cases in He.
  rewrite map_app in E.
  destruct t as [|c t]; [apply Ht; reflexivity|]. cbn [map app] in E.
  destruct t as [|c2 t].
  - cbn [map app] in E.
    destruct He as [He|[He|He]]; rewrite He in E;
      destruct E as [E|[E|E]]; discriminate E.
  - assert (L : (6 <= List.length (fold_case c :: map fold_case (c2 :: t)
                                     ++ map fold_case ext))%nat).
    { cbn [List.length map app]. rewrite length_app.
      destruct He as [He|[He|He]]; rewrite He; cbn [List.length]; lia. }
    destruct E as [E|[E|E]]; rewrite E in L; cbn [List.length] in L; lia.
Qed.

(** X22. What the download is called: a name that ends in [.jpg],
    [.jpeg] or [.webp], in any mix of capitals, gets [.png] in place of
    that extension and keeps the rest; a name with no such ending is
    left as it is. *)
Theorem png_filename_replaces_image_extension :
  (forall stem ext,
      image_extension ext = true ->
      png_filename (stem ++ ext) = stem ++ u ".png") /\
  (forall filename,
      (forall stem ext, filename = stem ++ ext -> image_extension ext = false) ->
      png_filename filename = filename).
Proof.
  split.
  - intros stem ext H. induction stem as [|c stem IH].
    + destruct ext as [|c ext]; [discriminate H|].
      cbn [app png_filename]. rewrite H. reflexivity.
    + cbn [app png_filename].
      change (c :: stem ++ ext) with ((c :: stem) ++ ext).
      rewrite (image_extension_longer (c :: stem) ext) by (discriminate || exact H).
      cbn [app]. rewrite IH. reflexivity.
  - induction filename as [|c f IH]; intros H.
    + reflexivity.
    + cbn [png_filename]. rewrite (H [] (c :: f) eq_refl). f_equal.
      apply IH. intros stem ext E. apply (H (c :: stem) ext). rewrite E. reflexivity.
Qed.

Lemma png_filename_replaces_image_extension_witness :
  png_filename (u "zenith.final.JPeG") = u "zenith.final.png".
Proof.
  apply (proj1 png_filename_replaces_image_extension (u "zenith.final") (u ".JPeG")).
  reflexivity.
Defined.

(** *** Flow sessions *)

Lemma key_compare_eq (a : jsstring) : forall b, key_compare a b = Eq <-> a = b.
Proof.
  induction a as [|x a IH]; intros [|y b]; cbn [key_compare];
    try (split; [discriminate | discriminate]).
  - split; reflexivity.
  - destruct (N.compare x y) eqn:C.
    + apply N.compare_eq_iff in C. subst y. rewrite IH. split.
      * intros ->. reflexivity.
      * intros H. injection H as ->. reflexivity.
    + split; [discriminate|]. intros H. injection H as -> ->.
      rewrite N.compare_refl in C. discriminate C.
    + split; [discriminate|]. intros H. injection H as -> ->.
      rewrite N.compare_refl in C. discriminate C.
Qed.

Lemma eqb_false (a b : jsstring) : a <> b -> JSString.eqb a b = false.
Proof.
  intros H. destruct (JSString.eqb a b) eqn:E; [|reflexivity].
  apply Extractor.jsstring_eqb_eq in E. contradiction.
Qed.

Lemma get_id (st : Store) : forall key s, get st key = Some s -> id s = key.
Proof.
  induction st as [|x r IH]; intros key s H; [discriminate H|].
  cbn [get] in H. destruct (JSString.eqb (id x) key) eqn:E.
  - injection H as <-. apply Extractor.jsstring_eqb_eq. exact E.
  - apply IH. exact H.
Qed.

Lemma get_put_same (st : Store) (s : FlowSession) : get (put st s) (id s) = Some s.
Proof.
  induction st as [|x r IH]; cbn [put get].
  - rewrite Extractor.jsstring_eqb_refl. reflexivity.
  - destruct (key_compare (id s) (id x)) eqn:C; cbn [get].
    + rewrite Extractor.jsstring_eqb_refl. reflexivity.
    + rewrite Extractor.jsstring_eqb_refl. reflexivity.
    + rewrite eqb_false; [exact IH|].
      intros E. rewrite E in C.
      rewrite (proj2 (key_compare_eq (id s) (id s)) eq_refl) in C. discriminate C.
Qed.

Lemma get_put_other (st : Store) (s : FlowSession) (key : jsstring) :
  key <> id s -> get (put st s) key = get st key.
Proof.
  intros H. assert (H' : id s <> key) by (intros E; apply H; symmetry; exact E).
  induction st as [|x r IH]; cbn [put get].
  - rewrite eqb_false by exact H'. reflexivity.
  - destruct (key_compare (id s) (id x)) eqn:C; cbn [get].
    + apply key_compare_eq in C. rewrite <- C.
      rewrite eqb_false by exact H'. reflexivity.
    + rewrite eqb_false by exact H'. reflexivity.
    + rewrite IH. reflexivity.
Qed.

Lemma in_put (st : Store) (s x : FlowSession) : In x (put st s) -> x = s \/ In x st.
Proof.
  induction st as [|y r IH]; cbn [put].
  - intros [<-|[]]. left. reflexivity.
  - destruct (key_compare (id s) (id y)).
    + intros [<-|I]; [left; reflexivity | right; right; exact I].
    + intros [<-|I]; [left; reflexivity | right; exact I].
    + intros [<-|I]; [right; left; reflexivity|].
      destruct (IH I) as [E|I']; [left; exact E | right; right; exact I'].
Qed.

Lemma put_in (st : Store) (s : FlowSession) : In s (put st s).
Proof.
  induction st as [|y r IH]; cbn [put].
  - left. reflexivity.
  - destruct (key_compare (id s) (id y)); [left; reflexivity .. | right; exact IH].
Qed.

Lemma insert_permutation (s : FlowSession) (l : list FlowSession) :
  Permutation (insert_by_update s l) (s :: l).
Proof.
  induction l as [|x r IH]; cbn [insert_by_update].
  - apply Permutation_refl.
  - destruct (updatedAt x <=? updatedAt s)%Z.
    + apply Permutation_refl.
    + eapply Permutation_trans; [apply perm_skip; exact IH | apply perm_swap].
Qed.

Lemma sort_permutation (l : list FlowSession) : Permutation (sort_by_update l) l.
Proof.
  induction l as [|x r IH]; cbn [sort_by_update].
  - apply perm_nil.
  - eapply Permutation_trans; [apply insert_permutation | apply perm_skip; exact IH].
Qed.

Lemma insert_sorted (s : FlowSession) (l : list FlowSession) :
  StronglySorted (fun a b => (updatedAt b <= updatedAt a)%Z) l ->
  StronglySorted (fun a b => (updatedAt b <= updatedAt a)%Z) (insert_by_update s l).
Proof.
  induction l as [|x r IH]; intros H; cbn [insert_by_update].
  - constructor; constructor.
  - inversion H as [|? ? Hr Hx]; subst.
    destruct (updatedAt x <=? updatedAt s)%Z eqn:C.
    + apply Z.leb_le in C. constructor; [exact H|].
      constructor; [exact C|].
      eapply Forall_impl; [|exact Hx]. cbn. intros a Ha. lia.
    + apply Z.leb_gt in C. constructor; [apply IH; exact Hr|].
      eapply Permutation_Forall; [apply Permutation_sym; apply insert_permutation|].
      constructor; [lia | exact Hx].
Qed.

Lemma sort_sorted (l : list FlowSession) :
  StronglySorted (fun a b => (updatedAt b <= updatedAt a)%Z) (sort_by_update l).
Proof.
  induction l as [|x r IH]; cbn [sort_by_update].
  - constructor.
  - apply insert_sorted. exact IH.
Qed.

(** X23. [loadFlowSessions] lists exactly the stored sessions, each
    once, the most recently updated first: no session in the list was
    updated later than one that stands before it. When the database
    cannot be read the list is empty. *)
Theorem sessions_listed_most_recent_first (st : Store) :
  Permutation (loadFlowSessions (Some st)) st /\
  StronglySorted (fun a b => (updatedAt b <= updatedAt a)%Z) (loadFlowSessions (Some st)) /\
  loadFlowSessions None = [].
Proof.
  unfold loadFlowSessions, getAll.
  split; [apply sort_permutation|]. split; [apply sort_sorted | reflexivity].
Qed.

(** X24. [updateFlowSession] touches one session only. A session with
    the given id gets the new images and the new update time and keeps
    its id, name and creation time; every other session is left as it
    was; and when no session has the id, nothing changes and nothing is
    created. *)
Theorem update_touches_one_session (st : Store) (sessionId : jsstring)
    (newImages : list GeneratedImage) (now : Z) (key : jsstring) :
  get (updateFlowSession st sessionId newImages now) key =
  match get st key with
  | Some s =>
      if JSString.eqb key sessionId
      then Some {| id := id s; name := name s; createdAt := createdAt s;
                   updatedAt := now; images := newImages |}
      else Some s
  | None => None
  end.
Proof.
  unfold updateFlowSession.
  destruct (JSString.eqb key sessionId) eqn:E.
  - apply Extractor.jsstring_eqb_eq in E. subst key.
    destruct (get st sessionId) as [s|] eqn:G; [|exact G].
    pose proof (get_id st sessionId s G) as I.
    set (s' := {| id := id s; name := name s; createdAt := createdAt s;
                  updatedAt := now; images := newImages |}).
    rewrite <- I. change (id s) with (id s') at 1. apply get_put_same.
  - assert (N : key <> sessionId).
    { intros ->. rewrite Extractor.jsstring_eqb_refl in E. discriminate E. }
    destruct (get st sessionId) as [s|] eqn:G.
    + rewrite get_put_other.
      * destruct (get st key); reflexivity.
      * cbn [id]. rewrite (get_id st sessionId s G). exact N.
    + destruct (get st key); reflexivity.
Qed.

Lemma get_delete (st : Store) (sessionId key : jsstring) :
  get (delete st sessionId) key = if JSString.eqb key sessionId then None else get st key.
Proof.
  induction st as [|x r IH]; cbn [delete get].
  - destruct (JSString.eqb key sessionId); reflexivity.
  - destruct (JSString.eqb (id x) sessionId) eqn:E.
    + rewrite IH. destruct (JSString.eqb key sessionId) eqn:K; [reflexivity|].
      apply Extractor.jsstring_eqb_eq in E.
      rewrite eqb_false; [reflexivity|].
      intros F. rewrite F in E. subst key.
      rewrite Extractor.jsstring_eqb_refl in K. discriminate K.
    + cbn [get]. rewrite IH.
      destruct (JSString.eqb key sessionId) eqn:K; [|reflexivity].
      apply Extractor.jsstring_eqb_eq in K. subst key. rewrite E. reflexivity.
Qed.

(** X25. [deleteFlowSession] removes the session with the given id and
    no other: afterwards that id is not found, every other id is found
    as before, and the listing contains no session with the id. *)
Theorem delete_removes_one_session (st : Store) (sessionId : jsstring) :
  (forall key,
      get (deleteFlowSession st sessionId) key =
      if JSString.eqb key sessionId then None else get st key) /\
  (forall s, In s (loadFlowSessions (Some (deleteFlowSession st sessionId))) ->
             id s <> sessionId /\ In s st).
Proof.
  split; [intros key; apply get_delete|].
  intros s H. unfold loadFlowSessions, getAll, deleteFlowSession in H.
  apply (Permutation_in _ (sort_permutation _)) in H.
  induction st as [|x r IH]; [destruct H|].
  cbn [delete] in H. destruct (JSString.eqb (id x) sessionId) eqn:E.
  - destruct (IH H) as [A B]. split; [exact A | right; exact B].
  - destruct H as [<-|H].
    + split; [|left; reflexivity].
      intros F. rewrite F, Extractor.jsstring_eqb_refl in E. discriminate E.
    + destruct (IH H) as [A B]. split; [exact A | right; exact B].
Qed.

Lemma delete_removes_one_session_witness :
  let s := {| id := u "flow-1"; name := u "Flow"; createdAt := 1; updatedAt := 1;
              images := [] |} in
  let s2 := {| id := u "flow-2"; name := u "Flow"; createdAt := 2; updatedAt := 2;
               images := [] |} in
  In s2 (loadFlowSessions (Some (deleteFlowSession [s; s2] (u "flow-1")))) /\
  id s2 <> u "flow-1".
Proof.
  intros s s2.
  assert (Hin : In s2 (loadFlowSessions (Some (deleteFlowSession [s; s2] (u "flow-1"))))).
  { left. reflexivity. }
  split; [exact Hin|].
  apply (proj2 (delete_removes_one_session [s; s2] (u "flow-1")) s2 Hin).
Defined.

(** X26. After an update at a time later than every stored update time,
    the updated session heads the listing. *)
Theorem updated_session_listed_first (st : Store) (sessionId : jsstring)
    (newImages : list GeneratedImage) (now : Z) (s : FlowSession) :
  get st sessionId = Some s ->
  (forall x, In x st -> (updatedAt x < now)%Z) ->
  exists rest,
    loadFlowSessions (Some (updateFlowSession st sessionId newImages now))
    = {| id := sessionId; name := name s; createdAt := createdAt s;
         updatedAt := now; images := newImages |} :: rest.
Proof.
  intros G Hst. unfold updateFlowSession. rewrite G.
  rewrite (get_id st sessionId s G).
  set (s' := {| id := sessionId; name := name s; createdAt := createdAt s;
                updatedAt := now; images := newImages |}).
  unfold loadFlowSessions, getAll.
  pose proof (sort_permutation (put st s')) as P.
  pose proof (sort_sorted (put st s')) as S.
  destruct (sort_by_update (put st s')) as [|h rest] eqn:E.
  - exfalso. apply Permutation_nil in P.
    pose proof (put_in st s') as I. rewrite P in I. destruct I.
  - exists rest. f_equal.
    assert (Ih : In h (put st s')).
    { apply (Permutation_in _ P). left. reflexivity. }
    destruct (in_put st s' h Ih) as [Eh|Ih']; [exact Eh|].
    exfalso.
    assert (Is : In s' (h :: rest)).
    { apply (Permutation_in _ (Permutation_sym P)). apply put_in. }
    inversion S as [|? ? _ Hh]; subst.
    pose proof (Hst h Ih') as L.
    destruct Is as [Es|Is].
    + rewrite Es in L. cbn [updatedAt s'] in L. unfold s' in L. cbn in L. lia.
    + rewrite Forall_forall in Hh. specialize (Hh s' Is). unfold s' in Hh. cbn in Hh. lia.
Qed.

Lemma updated_session_listed_first_witness :
  let s := {| id := u "flow-1"; name := u "Flow"; createdAt := 1; updatedAt := 1;
              images := [] |} in
  let s2 := {| id := u "flow-2"; name := u "Flow"; createdAt := 2; updatedAt := 2;
               images := [] |} in
  exists rest,
    loadFlowSessions (Some (updateFlowSession [s; s2] (u "flow-1") [] 5))
    = {| id := u "flow-1"; name := u "Flow"; createdAt := 1; updatedAt := 5;
         images := [] |} :: rest.
Proof.
  intros s s2.
  apply (updated_session_listed_first [s; s2] (u "flow-1") [] 5 s).
  - reflexivity.
  - intros x [<-|[<-|[]]]; cbn; lia.
Defined.



End Browser.

(** * The allowed origins of the Netlify function *)

Module Origins.

Lemma split_piece (sep : N) (x : jsstring) : forall rest,
  ~ In sep x -> split sep (x ++ sep :: rest) = x :: split sep rest.
Proof.
  induction x as [|c x IH]; intros rest H.
  - cbn [app split]. rewrite N.eqb_refl. reflexivity.
  - cbn [app split].
    destruct (N.eqb c sep) eqn:E.
    + apply N.eqb_eq in E. exfalso. apply H. left. exact E.
    + rewrite IH; [reflexivity|]. intros I. apply H. right. exact I.
Qed.

Lemma split_whole (sep : N) (x : jsstring) : ~ In sep x -> split sep x = [x].
Proof.
  induction x as [|c x IH]; intros H.
  - reflexivity.
  - cbn [split].
    destruct (N.eqb c sep) eqn:E.
    + apply N.eqb_eq in E. exfalso. apply H. left. exact E.
    + rewrite IH; [reflexivity|]. intros I. apply H. right. exact I.
Qed.

Lemma origins_of_list (os : list jsstring) :
  os <> [] ->
  Forall (fun o => ~ In 44%N o /\ trim o = o) os ->
  forall pre, (pre = [] \/ pre = [32%N]) ->
    map trim (split 44 (pre ++ join (u ", ") os)) = os.
Proof.
  induction os as [|x r IH]; intros N H pre Hpre; [contradiction|].
  inversion H as [|? ? [Hx Tx] Hr]; subst.
  assert (Tp : trim (pre ++ x) = x).
  { destruct Hpre as [->| ->]; [exact Tx|].
    unfold trim in *. cbn [app trimStart is_trim_space]. exact Tx. }
  assert (Np : ~ In 44%N (pre ++ x)).
  { intros I. apply in_app_or in I. destruct I as [I|I]; [|exact (Hx I)].
    destruct Hpre as [->| ->]; [destruct I | destruct I as [E|[]]; discriminate E]. }
  destruct r as [|y r'].
  - cbn [join]. rewrite split_whole by exact Np. cbn [map]. rewrite Tp. reflexivity.
  - change (join (u ", ") (x :: y :: r'))
      with (x ++ 44%N :: [32%N] ++ join (u ", ") (y :: r')).
    rewrite app_assoc. rewrite split_piece by exact Np.
    cbn [map]. rewrite Tp. f_equal.
    apply IH; [discriminate | exact Hr | right; reflexivity].
Qed.

(** X28. [CORS_ORIGINS] is read as a comma-separated list with optional
    white space around the entries: a list of origins written with [", "]
    between them is read back as that list. When the variable is unset
    or empty the two local development origins are allowed. *)
Theorem cors_origins_read_back (os : list jsstring) :
  Forall (fun o => ~ In 44%N o /\ trim o = o) os ->
  join (u ", ") os <> [] ->
  Netlify.corsOrigins (Some (join (u ", ") os)) = os /\
  Netlify.corsOrigins None = [u "http://localhost:5173"; u "http://localhost:3000"] /\
  Netlify.corsOrigins (Some []) = Netlify.corsOrigins None.
Proof.
  intros H N. split; [|split; reflexivity].
  unfold Netlify.corsOrigins.
  destruct (join (u ", ") os) as [|c v] eqn:J; [contradiction|].
  rewrite <- J.
  apply (origins_of_list os) with (pre := []); [|exact H | left; reflexivity].
  intros ->. discriminate J.
Qed.

Lemma cors_origins_read_back_witness :
  Netlify.corsOrigins (Some (u "https://a.example, https://b.example"))
  = [u "https://a.example"; u "https://b.example"].
Proof.
  apply (cors_origins_read_back [u "https://a.example"; u "https://b.example"]).
  - repeat constructor; vm_compute; intuition discriminate.
  - discriminate.
Defined.

End Origins.
